(** * OrangePi / STM32 ROV link: frame codec, stream reassembler,
      link supervisor and command shaper.

    A shallow embedding of
      - receive_pwm_stm32/Source/Src/crc16_ccitt.c      (device CRC),
      - receive_pwm_stm32/Source/Src/protocol_v1.c      (device link engine),
      - protocol_pack.c                                 (host light packer),
      - orangepi_send/src/libpwm_host.c                 (host send path),
      - pwm_control.c                                   (command shaper).

    Conventions.
      - A C unsigned integer of width w is a [Z] together with the
        wrap-around [u8], [u16], [u32], [u64] written where the C code
        truncates.
      - A byte buffer is a [list Z]; [s_rxbuf]/[s_rxlen] is the list of
        the [s_rxlen] valid bytes (the code never reads past [s_rxlen]).
      - Percentages are C [float]s, and the code is modelled twice.
        Modules [PwmHost32] and [PwmCtrl32] follow IEEE 754 binary32
        (module [Flt]): every operation is the exact one followed by
        rounding to nearest, ties to even, each operation rounded on
        its own (no wider intermediate format, no fused
        multiply-add), with the infinities and NaN; a conversion
        [(int) x] that C leaves undefined gives [None].  Every
        statement about the value of a percentage is made there.
        Modules [PwmHost] and [PwmCtrl] take the same code over exact
        rationals [Q]; they carry the statements in which no rounding
        takes part (masks, toggles, counters, frames, comparisons
        with zero and replacement by the neutral point), and those
        that say they are about exact arithmetic.
      - Calls into collaborators (PWM driver, UART, UDP socket) are
        returned as lists, oldest first; what a collaborator or the
        clock returns ([sendto], [HAL_GetTick], [ticks_ms]) is an
        argument or a field of the state.
      - Pointer arguments are taken to be valid: the [NULL] checks of
        the C functions are not modelled. *)

From Stdlib Require Import ZArith List Bool Lia QArith Qabs Lqa.
From stdpp Require Import base list.
Import ListNotations.
Local Open Scope Z_scope.

(* ================================================================== *)
(** ** Fixed-width integers and big-endian fields *)
(* ================================================================== *)

Module Bits.

Definition u8  (x : Z) : Z := x mod 256.
Definition u16 (x : Z) : Z := x mod 65536.
Definition u32 (x : Z) : Z := x mod 4294967296.
Definition u64 (x : Z) : Z := x mod 18446744073709551616.

(** [p[i]] on the valid part of a buffer. *)
Definition byte_at (p : list Z) (i : nat) : Z := nth i p 0.

(** [be16_read(p + off)]: [(uint16_t)((p[0] << 8) | p[1])]. *)
Definition be16_read (p : list Z) (off : nat) : Z :=
  u16 (Z.lor (Z.shiftl (byte_at p off) 8) (byte_at p (off + 1))).

(** [be32_read(p + off)]. *)
Definition be32_read (p : list Z) (off : nat) : Z :=
  Z.lor (Z.lor (Z.lor (u32 (Z.shiftl (byte_at p off) 24))
                      (u32 (Z.shiftl (byte_at p (off + 1)) 16)))
               (u32 (Z.shiftl (byte_at p (off + 2)) 8)))
        (byte_at p (off + 3)).

(** [be16_write(p, v)] as the two bytes it stores. *)
Definition be16_write (v : Z) : list Z :=
  [u8 (Z.shiftr v 8); u8 (Z.land v 255)].

(** [be32_write(p, v)] as the four bytes it stores. *)
Definition be32_write (v : Z) : list Z :=
  [u8 (Z.shiftr v 24); u8 (Z.shiftr v 16); u8 (Z.shiftr v 8); u8 (Z.land v 255)].

End Bits.

(* ================================================================== *)
(** ** CRC-16/CCITT-FALSE: device and host copies *)
(* ================================================================== *)

Module Crc.
Import Bits.
(** *** Device: crc16_ccitt.c *)

(** One pass of the inner loop; the assignment to the [uint16_t]
    variable truncates. *)
Definition crc_shift (crc : Z) : Z :=
  u16 (if Z.land crc 0x8000 =? 0
       then Z.shiftl crc 1
       else Z.lxor (Z.shiftl crc 1) 0x1021).

(** Body of [while (len--)]: xor the byte into the high half, then
    eight shifts. *)
Definition crc_byte (crc b : Z) : Z :=
  Nat.iter 8 crc_shift (u16 (Z.lxor crc (Z.shiftl (u16 b) 8))).

Definition crc16_update (crc : Z) (data : list Z) : Z :=
  fold_left crc_byte data crc.

Definition crc16_init : Z := 0xFFFF.

Definition crc16_ccitt (data : list Z) : Z := crc16_update 0xFFFF data.

(** *** Host: protocol_pack.c, where every intermediate is cast *)

Definition host_crc_shift (crc : Z) : Z :=
  if Z.land crc 0x8000 =? 0
  then u16 (Z.shiftl crc 1)
  else u16 (Z.lxor (Z.shiftl crc 1) 0x1021).

Definition host_crc_byte (crc b : Z) : Z :=
  Nat.iter 8 host_crc_shift (u16 (Z.lxor crc (u16 (Z.shiftl (u16 b) 8)))).

Fixpoint host_crc_loop (crc : Z) (data : list Z) : Z :=
  match data with
  | [] => crc
  | b :: rest => host_crc_loop (host_crc_byte crc b) rest
  end.

Definition host_crc16_ccitt (data : list Z) : Z := host_crc_loop 0xFFFF data.

End Crc.

(* ================================================================== *)
(** ** Collaborator calls *)
(* ================================================================== *)

(** What the device hands to its collaborators, oldest first.
    [EvFrame] and [EvDiscard] are ghost markers: [EvFrame] is emitted
    where [try_parse_one_frame] reaches its dispatch switch with a
    validated frame, [EvDiscard n] where it gives up [n] bytes without
    a frame. *)
Inductive event : Type :=
| EvFrame (msg seq ticks : Z) (payload : list Z)
| EvDiscard (n : Z)
| EvSetDuty (ch : Z) (duty : Q)
| EvUartTx (bytes : list Z).

Definition is_frame (e : event) : bool :=
  match e with EvFrame _ _ _ _ => true | _ => false end.

Definition is_discard (e : event) : bool :=
  match e with EvDiscard _ => true | _ => false end.

(** Number of validated frames in a trace. *)
Definition frames (evs : list event) : nat := length (List.filter is_frame evs).

(** Number of discard steps in a trace. *)
Definition discards (evs : list event) : nat := length (List.filter is_discard evs).

(* ================================================================== *)
(** ** Device link engine: protocol_v1.c *)
(* ================================================================== *)

Module Device.
Import Bits Crc.
(** *** Constants (protocol_v1.h, config.h) *)

Definition SOF_B0 : Z := 0xAA.
Definition SOF_B1 : Z := 0x55.
Definition HEADER_REST_LEN : Z := 10.
Definition SOF_LEN : Z := 2.
Definition CRC_LEN : Z := 2.
Definition HEADER_TOTAL_LEN : Z := SOF_LEN + HEADER_REST_LEN.
Definition MIN_FRAME_LEN : Z := HEADER_TOTAL_LEN + CRC_LEN.
Definition PROTO_VER_1 : Z := 0x01.
Definition MSG_PWM : Z := 0x01.
Definition MSG_HB : Z := 0x10.
Definition MSG_HB_ACK : Z := 0x11.
Definition MSG_ESTOP : Z := 0x20.
Definition MSG_STATUS : Z := 0x40.
Definition CFG_PROTO_RX_BUF_CAP : Z := 512.
Definition CFG_FAILSAFE_TIMEOUT_MS : Z := 300.
Definition CFG_HB_ACK_ENABLE : bool := true.
Definition PROTOCOL_MSG_LEN : Z := 128.

(** *** State *)

Record proto_stats_t : Type := mk_stats {
  rx_ok : Z;
  rx_crc_err : Z;
  rx_len_err : Z;
  rx_unsupported : Z;
  bytes_rx : Z;
  last_seq : Z
}.

Definition stats_zero : proto_stats_t := mk_stats 0 0 0 0 0 0.

(** The file-scope variables of protocol_v1.c, plus the HAL
    millisecond counter read by [HAL_GetTick]. *)
Record dev : Type := mk_dev {
  s_rxbuf : list Z;
  protocol_flag : Z;
  s_stats : proto_stats_t;
  s_last_ok_rx_ms : Z;
  s_failsafe_timeout_ms : Z;
  hal_tick : Z
}.

Definition s_rxlen (st : dev) : Z := Z.of_nat (length (s_rxbuf st)).

Definition HAL_GetTick (st : dev) : Z := hal_tick st.

Definition set_rxbuf (b : list Z) (st : dev) : dev :=
  mk_dev b (protocol_flag st) (s_stats st) (s_last_ok_rx_ms st)
         (s_failsafe_timeout_ms st) (hal_tick st).

Definition set_flag (f : Z) (st : dev) : dev :=
  mk_dev (s_rxbuf st) f (s_stats st) (s_last_ok_rx_ms st)
         (s_failsafe_timeout_ms st) (hal_tick st).

Definition set_stats (s : proto_stats_t) (st : dev) : dev :=
  mk_dev (s_rxbuf st) (protocol_flag st) s (s_last_ok_rx_ms st)
         (s_failsafe_timeout_ms st) (hal_tick st).

Definition set_last_ok (t : Z) (st : dev) : dev :=
  mk_dev (s_rxbuf st) (protocol_flag st) (s_stats st) t
         (s_failsafe_timeout_ms st) (hal_tick st).

Definition set_timeout (t : Z) (st : dev) : dev :=
  mk_dev (s_rxbuf st) (protocol_flag st) (s_stats st) (s_last_ok_rx_ms st)
         t (hal_tick st).

(** The SysTick interrupt: [dt] milliseconds pass. *)
Definition advance (dt : Z) (st : dev) : dev :=
  mk_dev (s_rxbuf st) (protocol_flag st) (s_stats st) (s_last_ok_rx_ms st)
         (s_failsafe_timeout_ms st) (u32 (hal_tick st + dt)).

Definition inc_ok (s : proto_stats_t) : proto_stats_t :=
  mk_stats (u32 (rx_ok s + 1)) (rx_crc_err s) (rx_len_err s)
           (rx_unsupported s) (bytes_rx s) (last_seq s).

Definition inc_crc_err (s : proto_stats_t) : proto_stats_t :=
  mk_stats (rx_ok s) (u32 (rx_crc_err s + 1)) (rx_len_err s)
           (rx_unsupported s) (bytes_rx s) (last_seq s).

Definition inc_len_err (s : proto_stats_t) : proto_stats_t :=
  mk_stats (rx_ok s) (rx_crc_err s) (u32 (rx_len_err s + 1))
           (rx_unsupported s) (bytes_rx s) (last_seq s).

Definition inc_unsupported (s : proto_stats_t) : proto_stats_t :=
  mk_stats (rx_ok s) (rx_crc_err s) (rx_len_err s)
           (u32 (rx_unsupported s + 1)) (bytes_rx s) (last_seq s).

(** *** protocol_init, protocol_process_init *)

Definition protocol_init (st : dev) : dev :=
  mk_dev [] (protocol_flag st) stats_zero (HAL_GetTick st)
         CFG_FAILSAFE_TIMEOUT_MS (hal_tick st).

Definition protocol_process_init (st : dev) : dev :=
  set_flag 0 (protocol_init st).

(** *** protocol_feed_bytes

    [data] is the chunk, [n] its length (a [uint16_t]).  While
    [protocol_flag] is set the call does nothing. *)
Definition protocol_feed_bytes (data : list Z) (st : dev) : dev :=
  let n := Z.of_nat (length data) in
  if protocol_flag st =? 0 then
    if n =? 0 then st
    else
      (* n > sizeof(s_rxbuf): keep the last 512 bytes, empty the buffer *)
      let '(data1, buf1) :=
        if CFG_PROTO_RX_BUF_CAP <? n
        then (drop (Z.to_nat (n - CFG_PROTO_RX_BUF_CAP)) data, [])
        else (data, s_rxbuf st) in
      let n1 := Z.of_nat (length data1) in
      let len1 := Z.of_nat (length buf1) in
      (* s_rxlen + n > sizeof(s_rxbuf): slide the window left by [over] *)
      let buf2 :=
        if CFG_PROTO_RX_BUF_CAP <? len1 + n1
        then drop (Z.to_nat (u16 (len1 + n1 - CFG_PROTO_RX_BUF_CAP))) buf1
        else buf1 in
      set_flag 1 (set_rxbuf (buf2 ++ data1) st)
  else st.

(** *** protocol_poll, protocol_set_failsafe_timeout_ms *)

(** [enter_failsafe_mid_all]: eight driver calls with duty 0. *)
Definition enter_failsafe_mid_all : list event :=
  [EvSetDuty 1 0; EvSetDuty 2 0; EvSetDuty 3 0; EvSetDuty 4 0;
   EvSetDuty 5 0; EvSetDuty 6 0; EvSetDuty 7 0; EvSetDuty 8 0].

Definition protocol_force_failsafe : list event :=
  [EvSetDuty 1 0; EvSetDuty 2 0; EvSetDuty 3 0; EvSetDuty 4 0;
   EvSetDuty 5 0; EvSetDuty 6 0; EvSetDuty 7 0; EvSetDuty 8 0].

(** The test of [protocol_poll], in [uint32_t] arithmetic. *)
Definition poll_expired (st : dev) : bool :=
  s_failsafe_timeout_ms st <? u32 (HAL_GetTick st - s_last_ok_rx_ms st).

Definition protocol_poll (st : dev) : dev * list event :=
  let now := HAL_GetTick st in
  if poll_expired st
  then (set_last_ok now st, enter_failsafe_mid_all)
  else (st, []).

Definition protocol_set_failsafe_timeout_ms (ms : Z) (st : dev) : dev :=
  let ms := if ms <? 50 then 50 else ms in
  set_timeout ms st.

Definition protocol_reset_stats (st : dev) : dev := set_stats stats_zero st.

(** *** handle_msg_pwm *)

(** The clamp to 0..10000 applied to a channel word. *)
Definition clamp_10000 (v : Z) : Z := if 10000 <? v then 10000 else v.

(** [duty[i]]: linear map of the clamped word to -1..1, then clamped. *)
Definition duty_of (vv : Z) : Q :=
  let d := (inject_Z (vv - 5000) / 5000)%Q in
  let d := if Qlt_le_dec 1 d then 1%Q else d in
  if Qlt_le_dec d (-1) then (-1)%Q else d.

(** The clamped word of channel [i] (0-based) of the payload starting at
    offset 12 of the buffer. *)
Definition pwm_word (buf : list Z) (i : nat) : Z :=
  clamp_10000 (be16_read buf (12 + i * 2)).

Definition pwm_words (buf : list Z) : list Z :=
  map (pwm_word buf) (seq 0 8).

Definition handle_msg_pwm (buf : list Z) (len : Z) (st : dev)
  : dev * list event :=
  if negb (len =? 16) then (set_stats (inc_len_err (s_stats st)) st, [])
  else
    (st, map (fun i => EvSetDuty (Z.of_nat i + 1) (duty_of (pwm_word buf i)))
             (seq 0 8)).

(** *** handle_msg_hb *)

(** The 14-byte acknowledgement built in [buf]. *)
Definition hb_ack_frame (seq now : Z) : list Z :=
  let body := [PROTO_VER_1; MSG_HB_ACK] ++ be16_write seq
              ++ be32_write now ++ be16_write 0 in
  [SOF_B0; SOF_B1] ++ body ++ be16_write (crc16_ccitt body).

Definition handle_msg_hb (seq ticks : Z) (st : dev) : dev * list event :=
  if CFG_HB_ACK_ENABLE
  then (st, [EvUartTx (hb_ack_frame seq (HAL_GetTick st))])
  else (st, []).

(** *** try_parse_one_frame *)

(** The linear search for [0xAA 0x55]: the value of [pos] when the
    [while (pos + 1 < s_rxlen)] loop is left. *)
Fixpoint sof_scan (buf : list Z) : nat :=
  match buf with
  | b0 :: ((b1 :: _) as rest) =>
      if (b0 =? SOF_B0) && (b1 =? SOF_B1) then 0%nat else S (sof_scan rest)
  | _ => 0%nat
  end.

(** Return value, [*consumed], state and collaborator calls. *)
Record parse_ret : Type := mk_ret {
  ret : bool;
  consumed : Z;
  st_after : dev;
  evs : list event
}.

(** The [switch (msg)] reached by a validated frame. *)
Definition dispatch (buf : list Z) (msg seq ticks len : Z) (st : dev)
  : dev * list event :=
  if msg =? MSG_PWM then
    let st1 := set_last_ok (HAL_GetTick st) st in
    let '(st2, ev) := handle_msg_pwm buf len st1 in
    (set_stats (inc_ok (s_stats st2)) st2, ev)
  else if msg =? MSG_HB then
    let st1 := set_last_ok (HAL_GetTick st) st in
    let '(st2, ev) := handle_msg_hb seq ticks st1 in
    (set_stats (inc_ok (s_stats st2)) st2, ev)
  else if msg =? MSG_HB_ACK then
    (set_stats (inc_unsupported (s_stats st)) st, [])
  else
    (set_stats (inc_unsupported (s_stats st)) st, []).

Definition try_parse_one_frame (st : dev) : parse_ret :=
  let buf := s_rxbuf st in
  if s_rxlen st <? 1 then mk_ret false 0 st []
  else
    let pos := Z.of_nat (sof_scan buf) in
    if 0 <? pos then mk_ret true pos st [EvDiscard pos]
    else if s_rxlen st <? MIN_FRAME_LEN then mk_ret false 0 st []
    else
      let ver := byte_at buf 2 in
      let msg := byte_at buf 3 in
      let seq := be16_read buf 4 in
      let ticks := be32_read buf 6 in
      let len := be16_read buf 10 in
      if negb (ver =? PROTO_VER_1) then
        mk_ret true 1 (set_stats (inc_unsupported (s_stats st)) st) [EvDiscard 1]
      else
        let frame_len := HEADER_TOTAL_LEN + len + CRC_LEN in
        if CFG_PROTO_RX_BUF_CAP <? frame_len then
          mk_ret true 1 (set_stats (inc_len_err (s_stats st)) st) [EvDiscard 1]
        else if s_rxlen st <? frame_len then mk_ret false 0 st []
        else
          let crc_calc :=
            crc16_ccitt (take (Z.to_nat (u16 (10 + len))) (drop 2 buf)) in
          let crc_rx := be16_read buf (Z.to_nat (12 + len)) in
          if negb (crc_calc =? crc_rx) then
            mk_ret true 1 (set_stats (inc_crc_err (s_stats st)) st) [EvDiscard 1]
          else
            let payload := take (Z.to_nat len) (drop 12 buf) in
            let '(st1, ev) := dispatch buf msg seq ticks len st in
            mk_ret true (u16 frame_len) st1
                   (EvFrame msg seq ticks payload :: ev).

(** The validation conditions of [try_parse_one_frame], as a test on a
    buffer: start marker at offset 0, at least a minimal frame, known
    version, total length within the buffer capacity and within the
    bytes present, and matching CRC. *)
Definition declared_frame_len (buf : list Z) : Z :=
  HEADER_TOTAL_LEN + be16_read buf 10 + CRC_LEN.

Definition valid_frame_at (buf : list Z) : bool :=
  (byte_at buf 0 =? SOF_B0) && (byte_at buf 1 =? SOF_B1)
  && (MIN_FRAME_LEN <=? Z.of_nat (length buf))
  && (byte_at buf 2 =? PROTO_VER_1)
  && (declared_frame_len buf <=? CFG_PROTO_RX_BUF_CAP)
  && (declared_frame_len buf <=? Z.of_nat (length buf))
  && (crc16_ccitt (take (Z.to_nat (u16 (10 + be16_read buf 10))) (drop 2 buf))
      =? be16_read buf (Z.to_nat (12 + be16_read buf 10))).

(** Pure noise: no offset of the buffer starts a valid frame. *)
Definition no_frame_in (buf : list Z) : bool :=
  forallb (fun k => negb (valid_frame_at (drop k buf)))
          (seq 0 (S (length buf))).

(** A byte string that is exactly one valid frame. *)
Definition is_frame_bytes (f : list Z) : bool :=
  valid_frame_at f && (declared_frame_len f =? Z.of_nat (length f)).

(** The three ways one pass can end. *)
Inductive pass_kind (st : dev) (r : parse_ret) : Prop :=
| pass_wait :
    ret r = false -> evs r = [] -> st_after r = st ->
    valid_frame_at (s_rxbuf st) = false ->
    pass_kind st r
| pass_discard :
    ret r = true -> 1 <= consumed r <= s_rxlen st ->
    discards (evs r) = 1%nat -> frames (evs r) = 0%nat ->
    valid_frame_at (s_rxbuf st) = false ->
    pass_kind st r
| pass_frame :
    ret r = true -> consumed r = declared_frame_len (s_rxbuf st) ->
    MIN_FRAME_LEN <= consumed r <= s_rxlen st ->
    discards (evs r) = 0%nat -> frames (evs r) = 1%nat ->
    valid_frame_at (s_rxbuf st) = true ->
    pass_kind st r.

(** *** process_rx_buffer

    The [for (;;)] loop, with the number of passes bounded by [fuel];
    [None] means the bound was reached before the loop was left. *)
Fixpoint process_rx_buffer_loop (fuel : nat) (st : dev)
  : option (dev * list event) :=
  match fuel with
  | O => None
  | S fuel' =>
      let r := try_parse_one_frame st in
      if negb (ret r) then Some (st_after r, evs r)
      else
        let st1 := st_after r in
        let st2 :=
          if 0 <? consumed r
          then set_rxbuf (drop (Z.to_nat (consumed r)) (s_rxbuf st1)) st1
          else st1 in
        match process_rx_buffer_loop fuel' st2 with
        | Some (st3, ev) => Some (st3, evs r ++ ev)
        | None => None
        end
  end.

(** Every pass that goes round again removes at least one byte, so
    one pass more than the occupancy is enough (see
    [process_rx_buffer_loop_total]). *)
Definition process_rx_buffer (st : dev) : option (dev * list event) :=
  process_rx_buffer_loop (S (length (s_rxbuf st))) st.

(** *** protocol_process, protocol_it_process *)

Definition protocol_process (st : dev) : option (dev * list event) :=
  if protocol_flag st =? 1 then
    match process_rx_buffer st with
    | Some (st1, ev) => Some (set_flag 0 st1, ev)
    | None => None
    end
  else Some (st, []).

(** The UART idle interrupt with the [len] bytes the DMA stored. *)
Definition protocol_it_process (chunk : list Z) (st : dev) : dev :=
  if (0 <? Z.of_nat (length chunk)) && (protocol_flag st =? 0)
  then set_flag 1 (protocol_feed_bytes chunk st)
  else st.

(** The state left by [protocol_process_init] on a device whose tick
    counter reads [t]. *)
Definition fresh (t : Z) : dev :=
  protocol_process_init (mk_dev [] 0 stats_zero 0 0 t).

End Device.

(* ================================================================== *)
(** ** Host light packer: protocol_pack.c *)
(* ================================================================== *)

Module HostPack.
Import Bits Crc.
Definition SOF_B0 : Z := 0xAA.
Definition SOF_B1 : Z := 0x55.
Definition HEADER_FIXED_LEN : Z := 12.
Definition CRC_LEN : Z := 2.
Definition PROTO_VER_1 : Z := 0x01.
Definition MSG_PWM : Z := 0x01.
Definition MSG_HB : Z := 0x10.

(** The packer's own [be16_write] and [be32_write]. *)
Definition be16_write (v : Z) : list Z :=
  [u8 (Z.shiftr v 8); u8 (Z.land v 255)].

Definition be32_write (v : Z) : list Z :=
  [u8 (Z.shiftr v 24); u8 (Z.shiftr v 16); u8 (Z.shiftr v 8); u8 v].

(** [v = pwm8[i]; if (v > 10000u) v = 10000u;] *)
Definition clip (v : Z) : Z := if 10000 <? v then 10000 else v.

(** [protocol_pack_pwm]: [s_seq] is the packer's sequence counter,
    [now] the value of [host_ticks_ms()], [pwm8] the eight channel
    words and [out_cap] the room in [out_buf].  Returns the bytes
    written ([None] for [false]) and the new counter. *)
Definition protocol_pack_pwm (s_seq now : Z) (pwm8 : list Z) (out_cap : Z)
  : option (list Z) * Z :=
  let len := 16 in
  let total := u16 (HEADER_FIXED_LEN + len + CRC_LEN) in
  if out_cap <? total then (None, s_seq)
  else
    let head := [SOF_B0; SOF_B1; PROTO_VER_1; MSG_PWM]
                ++ be16_write s_seq ++ be32_write now ++ be16_write len in
    let payload :=
      flat_map (fun i => be16_write (clip (nth i pwm8 0))) (seq 0 8) in
    let crc :=
      host_crc16_ccitt (take (Z.to_nat (u16 (10 + len)))
                             (drop 2 (head ++ payload))) in
    (Some (head ++ payload ++ be16_write crc), u16 (s_seq + 1)).

(** [protocol_pack_heartbeat]. *)
Definition protocol_pack_heartbeat (s_seq now : Z) (out_cap : Z)
  : option (list Z) * Z :=
  let len := 0 in
  let total := u16 (HEADER_FIXED_LEN + CRC_LEN) in
  if out_cap <? total then (None, s_seq)
  else
    let head := [SOF_B0; SOF_B1; PROTO_VER_1; MSG_HB]
                ++ be16_write s_seq ++ be32_write now ++ be16_write len in
    let crc := host_crc16_ccitt (take 10 (drop 2 head)) in
    (Some (head ++ be16_write crc), u16 (s_seq + 1)).

End HostPack.

(* ================================================================== *)
(** ** Device scenarios *)
(* ================================================================== *)

Module Scenario.
Import Bits Device.
(** The calls a scheduler or an interrupt can make on the engine. *)
Inductive op : Type :=
| OpInit
| OpFeed (data : list Z)
| OpItFeed (chunk : list Z)
| OpProcess
| OpPoll
| OpSetTimeout (ms : Z)
| OpResetStats
| OpForceFailsafe
| OpTick (dt : Z).

Definition run_op (o : op) (st : dev) : option (dev * list event) :=
  match o with
  | OpInit => Some (protocol_init st, [])
  | OpFeed data => Some (protocol_feed_bytes data st, [])
  | OpItFeed chunk => Some (protocol_it_process chunk st, [])
  | OpProcess => protocol_process st
  | OpPoll => Some (protocol_poll st)
  | OpSetTimeout ms => Some (protocol_set_failsafe_timeout_ms ms st, [])
  | OpResetStats => Some (protocol_reset_stats st, [])
  | OpForceFailsafe => Some (st, protocol_force_failsafe)
  | OpTick dt => Some (advance dt st, [])
  end.

(** A validated COMMAND or HEARTBEAT frame was dispatched. *)
Definition is_live_frame (e : event) : bool :=
  match e with
  | EvFrame msg _ _ _ => (msg =? MSG_PWM) || (msg =? MSG_HB)
  | _ => false
  end.

Definition has_live_frame (ev : list event) : bool := existsb is_live_frame ev.

(** The calls that write [s_last_ok_rx_ms]. *)
Definition refreshes (o : op) (st : dev) (ev : list event) : bool :=
  match o with
  | OpInit => true
  | OpProcess => has_live_frame ev
  | OpPoll => poll_expired st
  | _ => false
  end.

(** The driver call that sets channel 1 to neutral; one per run of
    [enter_failsafe_mid_all]. *)
Definition is_neutral_ch1 (e : event) : bool :=
  match e with
  | EvSetDuty ch d => (ch =? 1) && Qeq_bool d 0
  | _ => false
  end.

Definition failsafe_entries (ev : list event) : nat :=
  length (List.filter is_neutral_ch1 ev).

(** An outage: no bytes arrive, the tick advances by each [dt] in turn
    and [protocol_poll] runs after each advance. *)
Fixpoint poll_run (dts : list Z) (st : dev) : dev * list event :=
  match dts with
  | [] => (st, [])
  | dt :: rest =>
      let '(st1, ev1) := protocol_poll (advance dt st) in
      let '(st2, ev2) := poll_run rest st1 in
      (st2, ev1 ++ ev2)
  end.

(** Sum of the advances of an outage. *)
Definition total_ms (dts : list Z) : Z := fold_right Z.add 0 dts.

(** A frame fed in two chunks split at [k].  [protocol_process] runs
    after the second chunk and, when [drain_between], after the first
    too.  Result: the frames decoded after the first chunk and after
    the second. *)
Definition two_ingests (drain_between : bool) (f : list Z) (k : nat)
  (st : dev) : option (nat * nat) :=
  let st1 := protocol_feed_bytes (take k f) st in
  match (if drain_between then protocol_process st1 else Some (st1, [])) with
  | None => None
  | Some (st2, ev1) =>
      let st3 := protocol_feed_bytes (drop k f) st2 in
      match protocol_process st3 with
      | None => None
      | Some (_, ev2) => Some (frames ev1, frames ev2)
      end
  end.

(** A heartbeat as the host packs it: sequence 7, host tick 0x01020304. *)
Definition hb_example : list Z :=
  match fst (HostPack.protocol_pack_heartbeat 7 0x01020304 16) with
  | Some f => f
  | None => []
  end.

(** Sixty bytes of noise (twice the longest frame): false start
    markers, a header with a bad CRC, a header with an absurd length. *)
Definition noise60 : list Z :=
  [0xAA; 0x55; 0x02; 0x01; 0x00; 0x01; 0x17; 0x2C; 0x00; 0x09;
   0x00; 0x10; 0xAA; 0xAA; 0x55; 0x01; 0x10; 0x00; 0x07; 0x01;
   0x02; 0x03; 0x04; 0x00; 0x00; 0xDE; 0xAD; 0x55; 0xAA; 0x13;
   0xAA; 0x55; 0x01; 0x01; 0x00; 0x02; 0x31; 0x41; 0x59; 0x26;
   0xFF; 0xFF; 0x53; 0x58; 0x97; 0x93; 0x23; 0x84; 0x62; 0x64;
   0x33; 0x83; 0x27; 0x95; 0x02; 0x88; 0x41; 0x97; 0x16; 0xAA].

(** The [EvUartTx] payloads of a trace. *)
Definition uart_frames (ev : list event) : list (list Z) :=
  flat_map (fun e => match e with EvUartTx b => [b] | _ => [] end) ev.

End Scenario.

(* ================================================================== *)
(** ** Host send path: libpwm_host.c *)
(* ================================================================== *)

Module PwmHost.
Import Bits.
Local Open Scope Z_scope.

Definition PWM_HOST_PROTO_VER : Z := 0x01.
Definition PWM_HOST_MSG_PWM : Z := 0x01.
Definition PWM_HOST_MSG_HB : Z := 0x10.
Definition PWM_HOST_MSG_HB_ACK : Z := 0x11.
Definition PWM_HOST_SOF_BE : Z := 0xAA55.
(** [PWM_HOST_CH_NUM], as a loop bound and as an [int]. *)
Definition PWM_HOST_CH_NUM : nat := 8.
Definition PWM_HOST_CH_NUM_Z : Z := 8.
Definition PWM_HOST_VAL_MIN : Z := 0.
Definition PWM_HOST_VAL_MID : Z := 5000.
Definition PWM_HOST_VAL_MAX : Z := 10000.
Definition PWM_HOST_PCT_MIN : Q := 5.
Definition PWM_HOST_PCT_MID : Q := 15 # 2.
Definition PWM_HOST_PCT_MAX : Q := 10.

Definition V1_FIXED_HEADER_LEN : Z := 10.
Definition V1_HEADER_TOTAL_LEN : Z := 2 + V1_FIXED_HEADER_LEN.
Definition V1_CRC_LEN : Z := 2.
Definition V1_MAX_PAYLOAD : Z := 16.
Definition V1_MAX_FRAME : Z := V1_HEADER_TOTAL_LEN + V1_MAX_PAYLOAD + V1_CRC_LEN.

Inductive pwmh_result_t : Type :=
| PWMH_OK | PWMH_EINVAL | PWMH_ENOTINIT | PWMH_ESYS | PWMH_EBUSY | PWMH_EINTERNAL.

Definition is_ok (r : pwmh_result_t) : bool :=
  match r with PWMH_OK => true | _ => false end.

Record pwm_host_stats_t : Type := mk_hstats {
  tx_pwm : Z;
  tx_hb : Z;
  rx_hb_ack : Z;
  tx_err : Z;
  rx_err : Z
}.

(** The file-scope variables the send path uses. *)
Record host : Type := mk_host {
  s_sock : Z;
  s_seq : Z;
  s_shadow : list Z;
  s_stats : pwm_host_stats_t
}.

Definition inc_tx_pwm (s : pwm_host_stats_t) : pwm_host_stats_t :=
  mk_hstats (u64 (tx_pwm s + 1)) (tx_hb s) (rx_hb_ack s) (tx_err s) (rx_err s).

Definition inc_tx_err (s : pwm_host_stats_t) : pwm_host_stats_t :=
  mk_hstats (tx_pwm s) (tx_hb s) (rx_hb_ack s) (u64 (tx_err s + 1)) (rx_err s).

Definition set_hstats (s : pwm_host_stats_t) (h : host) : host :=
  mk_host (s_sock h) (s_seq h) (s_shadow h) s.

Definition set_seq (q : Z) (h : host) : host :=
  mk_host (s_sock h) q (s_shadow h) (s_stats h).

Definition set_shadow (sh : list Z) (h : host) : host :=
  mk_host (s_sock h) (s_seq h) sh (s_stats h).

(** The two bytes [memcpy] stores from [htons(v)], and the four from
    [htonl(v)]: network order on any host. *)
Definition be16 (v : Z) : list Z := [u8 (Z.shiftr v 8); u8 v].
Definition be32 (v : Z) : list Z :=
  [u8 (Z.shiftr v 24); u8 (Z.shiftr v 16); u8 (Z.shiftr v 8); u8 v].

(** [crc16_ccitt_false]. *)
Definition crc_step (crc : Z) : Z :=
  if Z.land crc 0x8000 =? 0
  then u16 (Z.shiftl crc 1)
  else u16 (Z.lxor (Z.shiftl crc 1) 0x1021).

Definition crc16_ccitt_false (data : list Z) : Z :=
  fold_left (fun crc b =>
               Nat.iter 8 crc_step (u16 (Z.lxor crc (u16 (Z.shiftl (u16 b) 8)))))
            data 0xFFFF.

(** [v1_pack]: [now] is the value of [ticks_ms()].  The sequence
    counter is pre-incremented. *)
Definition v1_pack (msg_id : Z) (payload : list Z) (out_cap now : Z) (h : host)
  : pwmh_result_t * list Z * host :=
  let payload_len := Z.of_nat (length payload) in
  let need := u16 (V1_HEADER_TOTAL_LEN + payload_len + V1_CRC_LEN) in
  if out_cap <? need then (PWMH_EINVAL, [], h)
  else
    let seq := u16 (s_seq h + 1) in
    let head := [u8 (Z.shiftr PWM_HOST_SOF_BE 8); u8 (Z.land PWM_HOST_SOF_BE 255);
                 u8 PWM_HOST_PROTO_VER; u8 msg_id]
                ++ be16 seq ++ be32 now ++ be16 payload_len ++ payload in
    let crc :=
      crc16_ccitt_false
        (take (Z.to_nat (u16 (V1_FIXED_HEADER_LEN + payload_len))) (drop 2 head)) in
    (PWMH_OK, head ++ be16 crc, set_seq seq h).

(** [v1_send_frame]: [sent] is what [sendto] returns once it is not
    interrupted.  The third component is the datagram handed to
    [sendto], if the call got that far. *)
Definition v1_send_frame (msg_id : Z) (payload : list Z) (now sent : Z) (h : host)
  : pwmh_result_t * host * list (list Z) :=
  if s_sock h <? 0 then (PWMH_ENOTINIT, h, [])
  else
    match v1_pack msg_id payload V1_MAX_FRAME now h with
    | (PWMH_OK, buf, h1) =>
        if (sent <? 0) || negb (sent =? Z.of_nat (length buf))
        then (PWMH_ESYS, set_hstats (inc_tx_err (s_stats h1)) h1, [buf])
        else (PWMH_OK, h1, [buf])
    | (r, _, h1) => (r, h1, [])
    end.

(** C conversion of a [float] to [int]: truncation toward zero. *)
Definition float_to_int (q : Q) : Z := Z.quot (Qnum q) (Z.pos (Qden q)).

Definition pwm_host_percent_to_u16 (pct : Q) : Z :=
  let pct := if Qlt_le_dec pct PWM_HOST_PCT_MIN then PWM_HOST_PCT_MIN else pct in
  let pct := if Qlt_le_dec PWM_HOST_PCT_MAX pct then PWM_HOST_PCT_MAX else pct in
  let norm := ((pct - PWM_HOST_PCT_MIN) / (PWM_HOST_PCT_MAX - PWM_HOST_PCT_MIN))%Q in
  let v := float_to_int (norm * inject_Z PWM_HOST_VAL_MAX + (1 # 2))%Q in
  let v := if v <? PWM_HOST_VAL_MIN then PWM_HOST_VAL_MIN else v in
  let v := if PWM_HOST_VAL_MAX <? v then PWM_HOST_VAL_MAX else v in
  u16 v.

(** [pwm_host_set_all_u16]. *)
Definition pwm_host_set_all_u16 (v : list Z) (now sent : Z) (h : host)
  : pwmh_result_t * host * list (list Z) :=
  if s_sock h <? 0 then (PWMH_ENOTINIT, h, [])
  else
    let payload16 :=
      map (fun i => let vi := nth i v 0 in
                    if PWM_HOST_VAL_MAX <? vi then PWM_HOST_VAL_MAX else vi)
          (seq 0 PWM_HOST_CH_NUM) in
    let h1 := set_shadow payload16 h in
    let payload := flat_map be16 payload16 in
    let '(rc, h2, out) := v1_send_frame PWM_HOST_MSG_PWM payload now sent h1 in
    if is_ok rc
    then (rc, set_hstats (inc_tx_pwm (s_stats h2)) h2, out)
    else (rc, set_hstats (inc_tx_err (s_stats h2)) h2, out).

(** The word [pwm_host_set_all_pct] computes for one channel. *)
Definition pct_word (p : Q) : Z :=
  let p := if Qlt_le_dec p 0 then PWM_HOST_PCT_MID else p in
  pwm_host_percent_to_u16 p.

(** [pwm_host_set_all_pct]. *)
Definition pwm_host_set_all_pct (pct : list Q) (now sent : Z) (h : host)
  : pwmh_result_t * host * list (list Z) :=
  if s_sock h <? 0 then (PWMH_ENOTINIT, h, [])
  else
    let vv := map (fun i => pct_word (nth i pct 0%Q)) (seq 0 PWM_HOST_CH_NUM) in
    pwm_host_set_all_u16 vv now sent h.

End PwmHost.

(* ================================================================== *)
(** ** Command shaper: pwm_control.c *)
(* ================================================================== *)

Module PwmCtrl.
Import Bits PwmHost.
Local Open Scope Z_scope.

Definition PWM_CH_MASK_ALL : Z := 0xFF.
Definition PWM_CH_MASK_1_4 : Z := 0x0F.
Definition PWM_CH_MASK_5_8 : Z := 0xF0.

Definition PWM_CTRL_GROUP_MODE_ALL : Z := 0.
Definition PWM_CTRL_GROUP_MODE_AB_ALTERNATE : Z := 1.

Definition PWM_CTRL_OK : Z := 0.
Definition PWM_CTRL_ERR_NOT_INIT : Z := -1.
Definition PWM_CTRL_ERR_INVALID_ARG : Z := -2.
Definition PWM_CTRL_ERR_INTERNAL : Z := -3.

Record pwm_ctrl_config_t : Type := mk_cfg {
  ctrl_hz : Q;
  max_step_pct : Q;
  min_pct : Q;
  mid_pct : Q;
  max_pct : Q;
  enable_reverse_protection : Z;
  groupA_mask : Z;
  groupB_mask : Z;
  group_mode : Z
}.

(** The file-scope variables of pwm_control.c. *)
Record ctrl : Type := mk_ctrl {
  s_inited : Z;
  s_cfg : pwm_ctrl_config_t;
  s_current_pct : list Q;
  s_target_pct : list Q;
  s_step_count : Z;
  s_group_toggle : Z
}.

Definition set_target (t : list Q) (c : ctrl) : ctrl :=
  mk_ctrl (s_inited c) (s_cfg c) (s_current_pct c) t (s_step_count c)
          (s_group_toggle c).

Definition set_toggle (g : Z) (c : ctrl) : ctrl :=
  mk_ctrl (s_inited c) (s_cfg c) (s_current_pct c) (s_target_pct c)
          (s_step_count c) g.

(** The literal [1e-6f]. *)
Definition eps : Q := 1 # 1000000.

(** [max_step_pct_effective]. *)
Definition max_step_pct_effective (c : ctrl) : Q :=
  if Qlt_le_dec 0 (max_step_pct (s_cfg c)) then max_step_pct (s_cfg c) else 100.

(** [ch_in_mask]: [ch] is 1-based, [mask] a [uint8_t]. *)
Definition ch_in_mask (ch : Z) (mask : Z) : bool :=
  if (ch <? 1) || (PWM_HOST_CH_NUM_Z <? ch) then false
  else negb (Z.land mask (u8 (Z.shiftl 1 (ch - 1))) =? 0).

(** [active_mask_for_this_step]: the mask of this call and the state
    with the A/B toggle flipped. *)
Definition active_mask_for_this_step (c : ctrl) : Z * ctrl :=
  if group_mode (s_cfg c) =? PWM_CTRL_GROUP_MODE_ALL
  then (PWM_CH_MASK_ALL, c)
  else if s_group_toggle c =? 0
       then (groupA_mask (s_cfg c), set_toggle 1 c)
       else (groupB_mask (s_cfg c), set_toggle 0 c).

(** The locals [minp] and [maxp] of [clamp_pct]. *)
Definition clamp_min (c : ctrl) : Q :=
  if Qlt_le_dec 0 (min_pct (s_cfg c)) then min_pct (s_cfg c) else PWM_HOST_PCT_MIN.

Definition clamp_max (c : ctrl) : Q :=
  if Qlt_le_dec 0 (max_pct (s_cfg c)) then max_pct (s_cfg c) else PWM_HOST_PCT_MAX.

(** [clamp_pct]. *)
Definition clamp_pct (c : ctrl) (pct : Q) : Q :=
  let minp := clamp_min c in
  let maxp := clamp_max c in
  let pct := if Qlt_le_dec pct minp then minp else pct in
  if Qlt_le_dec maxp pct then maxp else pct.

(** The configuration [pwm_ctrl_init] stores: the caller's copy (all
    zero for [NULL]) with the defaults filled in. *)
Definition cfg_zero : pwm_ctrl_config_t := mk_cfg 0 0 0 0 0 0 0 0 0.

Definition init_cfg (cfg : option pwm_ctrl_config_t) : pwm_ctrl_config_t :=
  let c0 := match cfg with Some c => c | None => cfg_zero end in
  let hz := if Qlt_le_dec 0 (ctrl_hz c0) then ctrl_hz c0 else 50%Q in
  let ms := if Qlt_le_dec 0 (max_step_pct c0) then max_step_pct c0 else (1 # 5)%Q in
  let mn := if Qlt_le_dec 0 (min_pct c0) then min_pct c0 else PWM_HOST_PCT_MIN in
  let md := if Qlt_le_dec 0 (mid_pct c0) then mid_pct c0 else PWM_HOST_PCT_MID in
  let mx := if Qlt_le_dec 0 (max_pct c0) then max_pct c0 else PWM_HOST_PCT_MAX in
  let ordered :=
    match Qlt_le_dec mn md, Qlt_le_dec md mx with
    | left _, left _ => true
    | _, _ => false
    end in
  let mn := if ordered then mn else PWM_HOST_PCT_MIN in
  let md := if ordered then md else PWM_HOST_PCT_MID in
  let mx := if ordered then mx else PWM_HOST_PCT_MAX in
  let rp := match cfg with
            | None => 1
            | Some c => if enable_reverse_protection c =? 0 then 0 else 1
            end in
  let both_zero := (groupA_mask c0 =? 0) && (groupB_mask c0 =? 0) in
  let ga := if both_zero then PWM_CH_MASK_1_4 else groupA_mask c0 in
  let gb := if both_zero then PWM_CH_MASK_5_8 else groupB_mask c0 in
  let gm := if negb (group_mode c0 =? PWM_CTRL_GROUP_MODE_ALL)
               && negb (group_mode c0 =? PWM_CTRL_GROUP_MODE_AB_ALTERNATE)
            then PWM_CTRL_GROUP_MODE_AB_ALTERNATE else group_mode c0 in
  mk_cfg hz ms mn md mx rp ga gb gm.

Definition pwm_ctrl_deinit (c : ctrl) : ctrl :=
  mk_ctrl 0 (s_cfg c) (s_current_pct c) (s_target_pct c) (s_step_count c)
          (s_group_toggle c).

(** [s_target_pct[i] = v].  Both callers keep [i] below 8 (the channel
    check of [pwm_ctrl_set_target_pct], the loop bound of
    [pwm_ctrl_set_targets_mask]), so the store never leaves the array. *)
Definition store (i : nat) (v : Q) (l : list Q) : list Q := <[i := v]> l.

(** [pwm_ctrl_set_target_pct]. *)
Definition pwm_ctrl_set_target_pct (ch : Z) (pct : Q) (c : ctrl) : Z * ctrl :=
  if s_inited c =? 0 then (PWM_CTRL_ERR_NOT_INIT, c)
  else if (ch <? 1) || (PWM_HOST_CH_NUM_Z <? ch) then (PWM_CTRL_ERR_INVALID_ARG, c)
  else
    let pct := if Qlt_le_dec pct 0 then mid_pct (s_cfg c) else pct in
    let pct := clamp_pct c pct in
    (PWM_CTRL_OK, set_target (store (Z.to_nat (ch - 1)) pct (s_target_pct c)) c).

(** The body of the loop of [pwm_ctrl_set_targets_mask] for index [i],
    on the target array [t]. *)
Definition mask_body (c : ctrl) (mask : Z) (pct : list Q)
  (t : list Q) (i : nat) : list Q :=
  if negb (ch_in_mask (Z.of_nat i + 1) mask) then t
  else
    let p := nth i pct 0%Q in
    let p := if Qlt_le_dec p 0 then mid_pct (s_cfg c) else p in
    store i (clamp_pct c p) t.

(** [pwm_ctrl_set_targets_mask]. *)
Definition pwm_ctrl_set_targets_mask (mask : Z) (pct : list Q) (c : ctrl)
  : Z * ctrl :=
  if s_inited c =? 0 then (PWM_CTRL_ERR_NOT_INIT, c)
  else
    (PWM_CTRL_OK,
     set_target (fold_left (mask_body c mask pct) (seq 0 PWM_HOST_CH_NUM)
                           (s_target_pct c)) c).

(** The body of the first loop of [pwm_ctrl_step] for index [i]:
    the value stored in [next_pct[i]]. *)
Definition next_pct_at (c : ctrl) (mask : Z) (i : nat) : Q :=
  let max_step := max_step_pct_effective c in
  let mid := mid_pct (s_cfg c) in
  let ch := Z.of_nat i + 1 in
  let cur := nth i (s_current_pct c) 0%Q in
  let tgt := nth i (s_target_pct c) 0%Q in
  let eff_target :=
    if enable_reverse_protection (s_cfg c) =? 0 then tgt
    else
      let cur_above_mid := if Qlt_le_dec (mid + eps) cur then true else false in
      let cur_below_mid := if Qlt_le_dec cur (mid - eps) then true else false in
      let tgt_above_mid := if Qlt_le_dec (mid + eps) tgt then true else false in
      let tgt_below_mid := if Qlt_le_dec tgt (mid - eps) then true else false in
      if (cur_above_mid && tgt_below_mid) || (cur_below_mid && tgt_above_mid)
      then mid else tgt in
  let delta := (eff_target - cur)%Q in
  if negb (ch_in_mask ch mask) then cur
  else
    let delta :=
      if Qlt_le_dec max_step (Qabs delta)
      then (if Qlt_le_dec 0 delta then max_step else - max_step)%Q
      else delta in
    clamp_pct c (cur + delta)%Q.

(** [pwm_ctrl_step]: [now] and [sent] are the clock value and the
    [sendto] result met by the frame it emits. *)
Definition pwm_ctrl_step (now sent : Z) (c : ctrl) (h : host)
  : Z * ctrl * host * list (list Z) :=
  if s_inited c =? 0 then (PWM_CTRL_ERR_NOT_INIT, c, h, [])
  else
    let '(mask, c1) := active_mask_for_this_step c in
    let next_pct := map (next_pct_at c1 mask) (seq 0 PWM_HOST_CH_NUM) in
    let '(rc, h1, out) := pwm_host_set_all_pct next_pct now sent h in
    if negb (is_ok rc) then (PWM_CTRL_ERR_INTERNAL, c1, h1, out)
    else
      (PWM_CTRL_OK,
       mk_ctrl (s_inited c1) (s_cfg c1) next_pct (s_target_pct c1)
               (u64 (s_step_count c1 + 1)) (s_group_toggle c1),
       h1, out).

(** The three ways a step can end. *)
Inductive step_kind (c : ctrl) (rc : Z) (c' : ctrl) : Prop :=
| step_not_init :
    s_inited c = 0 -> rc = PWM_CTRL_ERR_NOT_INIT -> c' = c ->
    step_kind c rc c'
| step_emit_failed :
    s_inited c <> 0 -> rc = PWM_CTRL_ERR_INTERNAL ->
    c' = snd (active_mask_for_this_step c) ->
    step_kind c rc c'
| step_done :
    s_inited c <> 0 -> rc = PWM_CTRL_OK ->
    s_inited c' = s_inited c -> s_cfg c' = s_cfg c ->
    s_target_pct c' = s_target_pct c ->
    s_current_pct c'
      = map (next_pct_at c (fst (active_mask_for_this_step c)))
            (seq 0 PWM_HOST_CH_NUM) ->
    s_step_count c' = u64 (s_step_count c + 1) ->
    s_group_toggle c' = s_group_toggle (snd (active_mask_for_this_step c)) ->
    step_kind c rc c'.

(** *** Runs of the shaper *)

(** Current value and target of channel index [i] (0-based). *)
Definition cur_at (c : ctrl) (i : nat) : Q := nth i (s_current_pct c) 0%Q.
Definition tgt_at (c : ctrl) (i : nat) : Q := nth i (s_target_pct c) 0%Q.

(** One [pwm_ctrl_step] per element of [env], each with its clock
    value and [sendto] result. *)
Fixpoint run_steps (env : list (Z * Z)) (c : ctrl) (h : host) : ctrl * host :=
  match env with
  | [] => (c, h)
  | (now, sent) :: rest =>
      let '(_, c1, h1, _) := pwm_ctrl_step now sent c h in
      run_steps rest c1 h1
  end.

(** Current value of channel index [i] after the steps of [env]. *)
Definition cur_after (env : list (Z * Z)) (c : ctrl) (h : host) (i : nat) : Q :=
  cur_at (fst (run_steps env c h)) i.

(** A host with an open socket, and the shaper as [pwm_ctrl_init]
    leaves it for configuration [k], with every current value at
    [cur0] and every target at [tgt0]. *)
Definition host0 : host := mk_host 3 0 (repeat PWM_HOST_VAL_MID 8) (mk_hstats 0 0 0 0 0).

Definition shaper_at (k : pwm_ctrl_config_t) (cur0 tgt0 : Q) : ctrl :=
  mk_ctrl 1 (init_cfg (Some k)) (repeat cur0 8) (repeat tgt0 8) 0 0.

(** The defaults, with A/B alternation. *)
Definition cfg_alternate : pwm_ctrl_config_t :=
  mk_cfg 50 (1 # 5) 5 (15 # 2) 10 1 PWM_CH_MASK_1_4 PWM_CH_MASK_5_8
         PWM_CTRL_GROUP_MODE_AB_ALTERNATE.

End PwmCtrl.

(* ================================================================== *)
(** ** Streams of frames *)
(* ================================================================== *)

Module Stream.
Import Bits Device.
(** The frame marker of a byte string that is one frame. *)
Definition frame_event (f : list Z) : event :=
  EvFrame (byte_at f 3) (be16_read f 4) (be32_read f 6)
          (take (Z.to_nat (be16_read f 10)) (drop 12 f)).

(** The frame markers of a trace, in order. *)
Definition frame_events (ev : list event) : list event :=
  List.filter is_frame ev.

(** A frame whose kind refreshes the link timer. *)
Definition is_live (f : list Z) : bool :=
  (byte_at f 3 =? MSG_PWM) || (byte_at f 3 =? MSG_HB).

(** Number of frames of a list whose kind refreshes the link timer. *)
Definition live_count (fs : list (list Z)) : Z :=
  Z.of_nat (length (List.filter is_live fs)).

(** The collaborator calls the handlers make for frame [f] when the
    tick counter reads [tick]: eight duties for a COMMAND with a
    16-byte payload, one acknowledgement for a HEARTBEAT, nothing
    otherwise. *)
Definition frame_effects (tick : Z) (f : list Z) : list event :=
  if byte_at f 3 =? MSG_PWM then
    if be16_read f 10 =? 16
    then map (fun i => EvSetDuty (Z.of_nat i + 1) (duty_of (pwm_word f i)))
             (seq 0 8)
    else []
  else if byte_at f 3 =? MSG_HB then
    [EvUartTx (hb_ack_frame (be16_read f 4) tick)]
  else [].

(** The trace of one frame: its marker, then the handler's calls. *)
Definition frame_trace (tick : Z) (f : list Z) : list event :=
  frame_event f :: frame_effects tick f.

(** A command as the light packer builds it: sequence 8, host tick
    0x01020305, one word above the range. *)
Definition pwm_example : list Z :=
  match fst (HostPack.protocol_pack_pwm 8 0x01020305
               [0; 2500; 5000; 7500; 10000; 12000; 1; 9999] 32) with
  | Some f => f
  | None => []
  end.

(** A CRC-valid COMMAND frame whose payload is four bytes long. *)
Definition short_command : list Z :=
  snd (fst (PwmHost.v1_pack PwmHost.PWM_HOST_MSG_PWM [1; 2; 3; 4] 30 77
              PwmCtrl.host0)).

(** Number of COMMAND and HEARTBEAT frame markers in a trace. *)
Definition live_markers (ev : list event) : nat :=
  length (List.filter Scenario.is_live_frame ev).

End Stream.

(* ================================================================== *)
(** ** The version-1 frame layout *)
(* ================================================================== *)

Module Wire.
Import Bits Crc Device.
(** The layout given in the header comment of protocol_v1.h:
    SOF(2) VER(1) MSG(1) SEQ(2) TICKS(4) LEN(2) PAYLOAD(n) CRC(2),
    big-endian fields, the CRC over VER..PAYLOAD. *)
Definition wire_frame (msg seq ticks : Z) (payload : list Z) : list Z :=
  let body := [PROTO_VER_1; msg] ++ be16_write seq ++ be32_write ticks
              ++ be16_write (Z.of_nat (length payload)) ++ payload in
  [SOF_B0; SOF_B1] ++ body ++ be16_write (crc16_ccitt body).

(** Eight channel words as a COMMAND payload. *)
Definition words_payload (ws : list Z) : list Z := flat_map be16_write ws.

End Wire.

(* ================================================================== *)
(** ** Host library, the rest: libpwm_host.c *)
(* ================================================================== *)

Module PwmHostRx.
Import Bits PwmHost.
Local Open Scope Z_scope.

Definition RX_BUF_SIZE : Z := 256.

(** [pwmh_result_t] as the [int] it is ([PWMH_OK = 0], ...). *)
Definition result_code (r : pwmh_result_t) : Z :=
  match r with
  | PWMH_OK => 0 | PWMH_EINVAL => 1 | PWMH_ENOTINIT => 2
  | PWMH_ESYS => 3 | PWMH_EBUSY => 4 | PWMH_EINTERNAL => 5
  end.

(** The heartbeat bookkeeping of libpwm_host.c.  [s_last_rtt_ms] is a
    [double] that only ever holds -1 or a 32-bit tick difference, both
    exact: it is kept as an integer. *)
Record hb_state : Type := mk_hb {
  s_last_rtt_ms : Z;
  s_last_hb_seq : Z;
  s_last_hb_send_ticks : Z
}.

Definition inc_tx_hb (s : pwm_host_stats_t) : pwm_host_stats_t :=
  mk_hstats (tx_pwm s) (u64 (tx_hb s + 1)) (rx_hb_ack s) (tx_err s) (rx_err s).

Definition inc_rx_hb_ack (s : pwm_host_stats_t) : pwm_host_stats_t :=
  mk_hstats (tx_pwm s) (tx_hb s) (u64 (rx_hb_ack s + 1)) (tx_err s) (rx_err s).

Definition inc_rx_err (s : pwm_host_stats_t) : pwm_host_stats_t :=
  mk_hstats (tx_pwm s) (tx_hb s) (rx_hb_ack s) (tx_err s) (u64 (rx_err s + 1)).

(** [v1_try_parse_hb_ack(buf, len, &seq, &ticks)] on the [len] bytes
    received: [None] for the return value 0, otherwise the consumed
    length and the two values stored through the pointers.  The
    16-bit and 32-bit fields are copied out and converted from network
    order, which reads them as big-endian numbers. *)
Definition v1_try_parse_hb_ack (buf : list Z) : option (Z * Z * Z) :=
  let len := Z.of_nat (length buf) in
  if len <? V1_HEADER_TOTAL_LEN + V1_CRC_LEN then None
  else if negb (byte_at buf 0 =? u8 (Z.shiftr PWM_HOST_SOF_BE 8))
          || negb (byte_at buf 1 =? u8 (Z.land PWM_HOST_SOF_BE 255))
  then None
  else
    let ver := byte_at buf 2 in
    let msg := byte_at buf 3 in
    if negb (ver =? PWM_HOST_PROTO_VER) || negb (msg =? PWM_HOST_MSG_HB_ACK)
    then None
    else
      let payload_len := be16_read buf 10 in
      let frame_len := V1_HEADER_TOTAL_LEN + payload_len + V1_CRC_LEN in
      if len <? frame_len then None
      else
        let crc_rx := be16_read buf (Z.to_nat (frame_len - 2)) in
        let crc_calc :=
          crc16_ccitt_false
            (take (Z.to_nat (u16 (V1_FIXED_HEADER_LEN + payload_len)))
                  (drop 2 buf)) in
        if negb (crc_rx =? crc_calc) then None
        else Some (frame_len, be16_read buf 4, be32_read buf 6).

(** The value [pwm_host_percent_to_u16] converts to [int]:
    [norm * (float)PWM_HOST_VAL_MAX + 0.5f] for the clamped input. *)
Definition scaled (pct : Q) : Q :=
  let pct := if Qlt_le_dec pct PWM_HOST_PCT_MIN then PWM_HOST_PCT_MIN else pct in
  let pct := if Qlt_le_dec PWM_HOST_PCT_MAX pct then PWM_HOST_PCT_MAX else pct in
  ((pct - PWM_HOST_PCT_MIN) / (PWM_HOST_PCT_MAX - PWM_HOST_PCT_MIN)
   * inject_Z PWM_HOST_VAL_MAX + (1 # 2))%Q.

(** [pwm_host_init], as far as the variables of the send and receive
    paths go.  [fd] is what [socket()] returns and [pton] what
    [inet_pton()] returns for the configured address. *)
Definition pwm_host_init (fd pton : Z) (h : host) (b : hb_state)
  : pwmh_result_t * host * hb_state :=
  if fd <? 0
  then (PWMH_ESYS, mk_host fd (s_seq h) (s_shadow h) (s_stats h), b)
  else if negb (pton =? 1)
  then (PWMH_EINVAL, mk_host (-1) (s_seq h) (s_shadow h) (s_stats h), b)
  else (PWMH_OK,
        mk_host fd 0 (repeat PWM_HOST_VAL_MID PWM_HOST_CH_NUM)
                (mk_hstats 0 0 0 0 0),
        mk_hb (-1) 0 0).

(** [pwm_host_close]. *)
Definition pwm_host_close (h : host) : host :=
  if 0 <=? s_sock h then mk_host (-1) (s_seq h) (s_shadow h) (s_stats h) else h.

(** [pwm_host_send_heartbeat]: [now_ms] is the clock read by the
    function itself, [now] the one read by [v1_pack]. *)
Definition pwm_host_send_heartbeat (now_ms now sent : Z) (h : host) (b : hb_state)
  : pwmh_result_t * host * hb_state * list (list Z) :=
  if s_sock h <? 0 then (PWMH_ENOTINIT, h, b, [])
  else
    let next_seq := u16 (s_seq h + 1) in
    let '(rc, h1, out) := v1_send_frame PWM_HOST_MSG_HB [] now sent h in
    if is_ok rc
    then (rc, set_hstats (inc_tx_hb (s_stats h1)) h1,
          mk_hb (s_last_rtt_ms b) next_seq now_ms, out)
    else (rc, set_hstats (inc_tx_err (s_stats h1)) h1, b, out).

(** What [recvfrom(..., MSG_DONTWAIT, ...)] finds, once it is not
    interrupted: a datagram (with the clock value [ticks_ms()] would
    read while it is handled), or an error other than "would block".
    An empty queue is "would block". *)
Inductive rx_item : Type :=
| RxDatagram (bytes : list Z) (now : Z)
| RxError.

(** The [for (;;)] loop of [pwm_host_poll] over the socket's queue.
    Result: the return value, the state, and the queue left. *)
Fixpoint poll_loop (q : list rx_item) (handled : Z) (h : host) (b : hb_state)
  : Z * host * hb_state * list rx_item :=
  match q with
  | [] => (handled, h, b, [])
  | RxError :: q' =>
      (if 0 <? handled then handled else - result_code PWMH_ESYS,
       set_hstats (inc_rx_err (s_stats h)) h, b, q')
  | RxDatagram d now :: q' =>
      let buf := take (Z.to_nat RX_BUF_SIZE) d in
      if Z.of_nat (length buf) =? 0 then (handled, h, b, q')
      else
        match v1_try_parse_hb_ack buf with
        | Some (_, seq_rx, _) =>
            let h1 := set_hstats (inc_rx_hb_ack (s_stats h)) h in
            let b1 :=
              if (seq_rx =? s_last_hb_seq b)
                 && negb (s_last_hb_send_ticks b =? 0)
              then mk_hb (u32 (now - s_last_hb_send_ticks b))
                         (s_last_hb_seq b) (s_last_hb_send_ticks b)
              else b in
            poll_loop q' (handled + 1) h1 b1
        | None => poll_loop q' (handled + 1) h b
        end
  end.

(** [pwm_host_poll]: [nsel] is what [select()] returns once it is not
    interrupted and [isset] the value of [FD_ISSET]. *)
Definition pwm_host_poll (nsel : Z) (isset : bool) (q : list rx_item)
  (h : host) (b : hb_state) : Z * host * hb_state * list rx_item :=
  if s_sock h <? 0 then (- result_code PWMH_ENOTINIT, h, b, q)
  else if nsel <? 0
  then (- result_code PWMH_ESYS, set_hstats (inc_rx_err (s_stats h)) h, b, q)
  else if nsel =? 0 then (0, h, b, q)
  else if negb isset then (0, h, b, q)
  else poll_loop q 0 h b.

(** A datagram that the loop takes for an acknowledgement, and the
    sequence number it carries. *)
Definition ack_seq (d : list Z) : option Z :=
  match v1_try_parse_hb_ack (take (Z.to_nat RX_BUF_SIZE) d) with
  | Some (_, seq_rx, _) => Some seq_rx
  | None => None
  end.

Definition is_ack (d : list Z) : bool :=
  match ack_seq d with Some _ => true | None => false end.

(** A queue of datagrams, each with the clock value met while it is
    handled. *)
Definition datagrams (q : list (list Z * Z)) : list rx_item :=
  map (fun d => RxDatagram (fst d) (snd d)) q.

(** [pwm_host_last_rtt_ms], [pwm_host_get_stats]. *)
Definition pwm_host_last_rtt_ms (b : hb_state) : Z := s_last_rtt_ms b.
Definition pwm_host_get_stats (h : host) : pwm_host_stats_t := s_stats h.

End PwmHostRx.

(* ================================================================== *)
(** ** Host test sender: orangepi_send/src/main.cpp *)
(* ================================================================== *)

Module HostMain.
Import Bits Crc.
(** [try_parse_hb_ack(rx, seq, ticks_ms)]: [None] for [false],
    otherwise the two values stored through the references (they are
    also written when the later length or CRC test fails; the caller
    reads them only after [true]).  The file's [crc16_ccitt] is the
    text of protocol_pack.c's. *)
Definition try_parse_hb_ack (rx : list Z) : option (Z * Z) :=
  if negb (Z.of_nat (length rx) =? 14) then None
  else if negb (byte_at rx 0 =? 0xAA) || negb (byte_at rx 1 =? 0x55) then None
  else if negb (byte_at rx 2 =? 0x01) then None
  else if negb (byte_at rx 3 =? 0x11) then None
  else
    let seq := be16_read rx 4 in
    let ticks_ms := be32_read rx 6 in
    if negb (be16_read rx 10 =? 0) then None
    else
      let crc_calc := host_crc16_ccitt (take 10 (drop 2 rx)) in
      let crc_rx := be16_read rx 12 in
      if crc_calc =? crc_rx then Some (seq, ticks_ms) else None.

End HostMain.

(* ================================================================== *)
(** ** Command shaper, the rest: pwm_control.c *)
(* ================================================================== *)

(* ================================================================== *)
(** ** Host library: the blocking ramp of libpwm_host.c *)
(* ================================================================== *)

(* ================================================================== *)
(** ** Binary floating point: the arithmetic of [float] and [double] *)
(* ================================================================== *)

(** A finite number of a binary format with precision [f_prec] and
    smallest positive number [2 ^ f_emin] is an integer count of that
    smallest number: [Fin n] stands for [n * 2 ^ f_emin], every
    operation is the exact operation followed by rounding to nearest,
    ties to even, and a result of magnitude [2 ^ f_emax] or more is an
    infinity.  Zero has no sign here: the modelled code never divides
    by a zero and never reads a sign bit. *)
Module Flt.

Record format : Type := mk_format { f_prec : Z; f_emin : Z; f_emax : Z }.

Definition binary32 : format := mk_format 24 (-149) 128.
(** What the two formats have in common. *)
Definition format_ok (fmt : format) : Prop :=
  1 <= f_prec fmt /\ f_emin fmt <= 0 /\ f_prec fmt <= f_emax fmt - f_emin fmt.

Inductive fl : Type := Fin (n : Z) | PInf | NInf | NaN.

(** What singles out the integer nearest to [a / b], ties to even. *)
Definition rne_spec (a b m : Z) : Prop :=
  (2 * m - 1) * b <= 2 * a <= (2 * m + 1) * b /\
  (2 * a = (2 * m + 1) * b \/ 2 * a = (2 * m - 1) * b -> Z.even m = true).

(** The integer nearest to [a / b] for [b > 0], ties to even. *)
Definition rne_div (a b : Z) : Z :=
  let q := a / b in
  let r := a mod b in
  match 2 * r ?= b with
  | Lt => q
  | Gt => q + 1
  | Eq => if Z.even q then q else q + 1
  end.

Section Format.
Variable fmt : format.

(** The number 1 and the overflow threshold, in units. *)
Definition one : Z := 2 ^ (- f_emin fmt).
Definition huge : Z := 2 ^ (f_emax fmt - f_emin fmt).

(** The spacing of the format around [a / b] units is [2 ^ ulp_shift]
    units. *)
Definition ulp_shift (a b : Z) : Z :=
  Z.max 0 (Z.log2 (Z.abs a / b) + 1 - f_prec fmt).

(** [a / b] units rounded to the format, exponent unbounded. *)
Definition round_units (a b : Z) : Z :=
  let s := ulp_shift a b in
  rne_div a (b * 2 ^ s) * 2 ^ s.

Definition overflow (n : Z) : fl :=
  if huge <=? Z.abs n then (if n <? 0 then NInf else PInf) else Fin n.

(** The value [a / b] units, [b > 0], as a number of the format. *)
Definition round (a b : Z) : fl := overflow (round_units a b).

(** A number written out in the source: [a / b]. *)
Definition of_frac (a b : Z) : fl := round (a * one) b.

(** Conversion of an integer. *)
Definition of_Z (z : Z) : fl := round (z * one) 1.

Definition neg (x : fl) : fl :=
  match x with
  | Fin n => Fin (- n)
  | PInf => NInf
  | NInf => PInf
  | NaN => NaN
  end.

Definition abs (x : fl) : fl :=
  match x with
  | Fin n => Fin (Z.abs n)
  | PInf | NInf => PInf
  | NaN => NaN
  end.

Definition add (x y : fl) : fl :=
  match x, y with
  | NaN, _ | _, NaN => NaN
  | PInf, NInf | NInf, PInf => NaN
  | PInf, _ | _, PInf => PInf
  | NInf, _ | _, NInf => NInf
  | Fin a, Fin b => round (a + b) 1
  end.

Definition sub (x y : fl) : fl := add x (neg y).

Definition mul (x y : fl) : fl :=
  match x, y with
  | NaN, _ | _, NaN => NaN
  | Fin a, Fin b => round (a * b) one
  | Fin a, PInf | PInf, Fin a =>
      if a =? 0 then NaN else if a <? 0 then NInf else PInf
  | Fin a, NInf | NInf, Fin a =>
      if a =? 0 then NaN else if a <? 0 then PInf else NInf
  | PInf, PInf | NInf, NInf => PInf
  | PInf, NInf | NInf, PInf => NInf
  end.

Definition div (x y : fl) : fl :=
  match x, y with
  | NaN, _ | _, NaN => NaN
  | Fin a, Fin b =>
      if b =? 0
      then (if a =? 0 then NaN else if a <? 0 then NInf else PInf)
      else round (Z.sgn b * a * one) (Z.abs b)
  | Fin _, (PInf | NInf) => Fin 0
  | PInf, Fin b => if b <? 0 then NInf else PInf
  | NInf, Fin b => if b <? 0 then PInf else NInf
  | (PInf | NInf), (PInf | NInf) => NaN
  end.

End Format.

(** The comparisons of C: false as soon as one side is a NaN. *)
Definition ltb (x y : fl) : bool :=
  match x, y with
  | NaN, _ | _, NaN => false
  | Fin a, Fin b => a <? b
  | NInf, NInf | PInf, _ => false
  | NInf, _ | _, PInf => true
  | Fin _, NInf => false
  end.

Definition leb (x y : fl) : bool :=
  match x, y with
  | NaN, _ | _, NaN => false
  | Fin a, Fin b => a <=? b
  | NInf, _ | _, PInf => true
  | PInf, (Fin _ | NInf) | Fin _, NInf => false
  end.

Definition gtb (x y : fl) : bool := ltb y x.
Section Format2.
Variable fmt : format.

(** The numbers of the format: a finite one is a multiple of the
    spacing at its own magnitude and below the overflow threshold. *)
Definition representable (n : Z) : bool :=
  (n mod 2 ^ ulp_shift fmt n 1 =? 0) && (Z.abs n <? huge fmt).

Definition is_float (x : fl) : bool :=
  match x with Fin n => representable n | _ => true end.

(** A number that is not a NaN. *)
Definition is_num (x : fl) : bool :=
  match x with
  | Fin n => representable n
  | PInf | NInf => true
  | NaN => false
  end.

(** Where a number stands among the others: a finite one at its
    count of units, the infinities at the overflow threshold. *)
Definition rank (x : fl) : Z :=
  match x with
  | Fin n => n
  | PInf => huge fmt
  | NInf => - huge fmt
  | NaN => 0
  end.

(** [(int) x] for a 32-bit [int]: truncation toward zero; undefined
    for a NaN, an infinity and a value outside the range of [int]. *)
Definition to_int (x : fl) : option Z :=
  match x with
  | Fin n =>
      let z := Z.quot n (one fmt) in
      if (-2147483648 <=? z) && (z <=? 2147483647) then Some z else None
  | _ => None
  end.

End Format2.

End Flt.

(* ================================================================== *)
(** ** [float] as binary32 *)
(* ================================================================== *)

(** The operations of C on [float], each rounded to binary32. *)
Module F32.
Import Flt.
Definition fmt : format := binary32.
Definition zero : fl := Fin 0.
(** The number 1, in units of [2 ^ -149]. *)
Definition one : Z := Flt.one fmt.
Definition add : fl -> fl -> fl := Flt.add fmt.
Definition sub : fl -> fl -> fl := Flt.sub fmt.
Definition mul : fl -> fl -> fl := Flt.mul fmt.
Definition div : fl -> fl -> fl := Flt.div fmt.
Definition rank : fl -> Z := Flt.rank fmt.
Definition is_num : fl -> bool := Flt.is_num fmt.
Definition to_int : fl -> option Z := Flt.to_int fmt.

(** A constant written [a/b] in the source, as the compiler stores
    it: [1e-6f] is [lit 1 1000000]. *)
Definition lit (a b : Z) : fl := of_frac fmt a b.
(** [(float) z] for an integer [z]. *)
Definition of_int (z : Z) : fl := of_Z fmt z.

(** A finite number of the format. *)
Definition is_fin (x : fl) : bool :=
  match x with Fin n => representable fmt n | _ => false end.

(** A finite number of the format or a NaN. *)
Definition no_inf (x : fl) : bool :=
  match x with Fin n => representable fmt n | NaN => true | _ => false end.

(** A finite number of the format within [lo, hi]. *)
Definition fin_between (lo hi x : fl) : bool :=
  is_fin x && leb lo x && leb x hi.

End F32.

(* ================================================================== *)
(** ** Host library in binary32: the percentage paths of libpwm_host.c *)
(* ================================================================== *)

Module PwmHost32.
Import Bits Flt.
Import PwmHost.
Local Open Scope Z_scope.

Definition PWM_HOST_PCT_MIN : fl := F32.lit 5 1.
Definition PWM_HOST_PCT_MID : fl := F32.lit 15 2.
Definition PWM_HOST_PCT_MAX : fl := F32.lit 10 1.

(** [pwm_host_percent_to_u16].  [None] where the conversion to [int]
    is undefined. *)
Definition pwm_host_percent_to_u16 (pct : fl) : option Z :=
  let pct := if ltb pct PWM_HOST_PCT_MIN then PWM_HOST_PCT_MIN else pct in
  let pct := if gtb pct PWM_HOST_PCT_MAX then PWM_HOST_PCT_MAX else pct in
  let norm := F32.div (F32.sub pct PWM_HOST_PCT_MIN)
                      (F32.sub PWM_HOST_PCT_MAX PWM_HOST_PCT_MIN) in
  match F32.to_int (F32.add (F32.mul norm (F32.of_int PWM_HOST_VAL_MAX))
                            (F32.lit 1 2)) with
  | None => None
  | Some v =>
      let v := if v <? PWM_HOST_VAL_MIN then PWM_HOST_VAL_MIN else v in
      let v := if PWM_HOST_VAL_MAX <? v then PWM_HOST_VAL_MAX else v in
      Some (u16 v)
  end.

(** The word [pwm_host_set_all_pct] and [pwm_host_set_ch_pct] compute
    for one percentage. *)
Definition pct_word (p : fl) : option Z :=
  let p := if ltb p F32.zero then PWM_HOST_PCT_MID else p in
  pwm_host_percent_to_u16 p.

(** The words of a whole array, if every one is defined. *)
Fixpoint all_some (l : list (option Z)) : option (list Z) :=
  match l with
  | [] => Some []
  | Some w :: rest =>
      match all_some rest with Some ws => Some (w :: ws) | None => None end
  | None :: _ => None
  end.

(** [pwm_host_set_all_pct]. *)
Definition pwm_host_set_all_pct (pct : list fl) (now sent : Z) (h : host)
  : option (pwmh_result_t * host * list (list Z)) :=
  if s_sock h <? 0 then Some (PWMH_ENOTINIT, h, [])
  else
    match all_some (map (fun i => pct_word (nth i pct F32.zero))
                        (seq 0 PWM_HOST_CH_NUM)) with
    | None => None
    | Some vv => Some (pwm_host_set_all_u16 vv now sent h)
    end.

End PwmHost32.

(* ================================================================== *)
(** ** Command shaper in binary32: pwm_control.c *)
(* ================================================================== *)

Module PwmCtrl32.
Import Bits Flt.
Import PwmHost.
Local Open Scope Z_scope.

Definition PWM_CH_MASK_ALL : Z := PwmCtrl.PWM_CH_MASK_ALL.
Definition PWM_CH_MASK_1_4 : Z := PwmCtrl.PWM_CH_MASK_1_4.
Definition PWM_CH_MASK_5_8 : Z := PwmCtrl.PWM_CH_MASK_5_8.
Definition PWM_CTRL_GROUP_MODE_ALL : Z := PwmCtrl.PWM_CTRL_GROUP_MODE_ALL.
Definition PWM_CTRL_GROUP_MODE_AB_ALTERNATE : Z :=
  PwmCtrl.PWM_CTRL_GROUP_MODE_AB_ALTERNATE.
Definition PWM_CTRL_OK : Z := PwmCtrl.PWM_CTRL_OK.
Definition PWM_CTRL_ERR_NOT_INIT : Z := PwmCtrl.PWM_CTRL_ERR_NOT_INIT.
Definition PWM_CTRL_ERR_INVALID_ARG : Z := PwmCtrl.PWM_CTRL_ERR_INVALID_ARG.
Definition PWM_CTRL_ERR_INTERNAL : Z := PwmCtrl.PWM_CTRL_ERR_INTERNAL.
Definition ch_in_mask : Z -> Z -> bool := PwmCtrl.ch_in_mask.

Record pwm_ctrl_config_t : Type := mk_cfg {
  ctrl_hz : fl;
  max_step_pct : fl;
  min_pct : fl;
  mid_pct : fl;
  max_pct : fl;
  enable_reverse_protection : Z;
  groupA_mask : Z;
  groupB_mask : Z;
  group_mode : Z
}.

(** The file-scope variables of pwm_control.c. *)
Record ctrl : Type := mk_ctrl {
  s_inited : Z;
  s_cfg : pwm_ctrl_config_t;
  s_current_pct : list fl;
  s_target_pct : list fl;
  s_step_count : Z;
  s_group_toggle : Z
}.

Definition set_target (t : list fl) (c : ctrl) : ctrl :=
  mk_ctrl (s_inited c) (s_cfg c) (s_current_pct c) t (s_step_count c)
          (s_group_toggle c).

Definition set_toggle (g : Z) (c : ctrl) : ctrl :=
  mk_ctrl (s_inited c) (s_cfg c) (s_current_pct c) (s_target_pct c)
          (s_step_count c) g.

(** The literal [1e-6f]. *)
Definition eps : fl := F32.lit 1 1000000.

(** [max_step_pct_effective]. *)
Definition max_step_pct_effective (c : ctrl) : fl :=
  if leb (max_step_pct (s_cfg c)) F32.zero then F32.of_int 100
  else max_step_pct (s_cfg c).

(** [active_mask_for_this_step]: the mask of this call and the state
    with the A/B toggle flipped. *)
Definition active_mask_for_this_step (c : ctrl) : Z * ctrl :=
  if group_mode (s_cfg c) =? PWM_CTRL_GROUP_MODE_ALL
  then (PWM_CH_MASK_ALL, c)
  else if s_group_toggle c =? 0
       then (groupA_mask (s_cfg c), set_toggle 1 c)
       else (groupB_mask (s_cfg c), set_toggle 0 c).

Definition clamp_min (c : ctrl) : fl :=
  if gtb (min_pct (s_cfg c)) F32.zero then min_pct (s_cfg c)
  else PwmHost32.PWM_HOST_PCT_MIN.

Definition clamp_max (c : ctrl) : fl :=
  if gtb (max_pct (s_cfg c)) F32.zero then max_pct (s_cfg c)
  else PwmHost32.PWM_HOST_PCT_MAX.

(** [clamp_pct]. *)
Definition clamp_pct (c : ctrl) (pct : fl) : fl :=
  let minp := clamp_min c in
  let maxp := clamp_max c in
  let pct := if ltb pct minp then minp else pct in
  if gtb pct maxp then maxp else pct.

(** [init_state_to_mid]. *)
Definition init_state_to_mid (c : ctrl) : ctrl :=
  let mid := if gtb (mid_pct (s_cfg c)) F32.zero
             then mid_pct (s_cfg c) else PwmHost32.PWM_HOST_PCT_MID in
  mk_ctrl (s_inited c) (s_cfg c)
          (repeat mid PWM_HOST_CH_NUM) (repeat mid PWM_HOST_CH_NUM) 0 0.

(** The configuration [pwm_ctrl_init] stores: the caller's copy (all
    zero for [NULL]) with the defaults filled in. *)
Definition cfg_zero : pwm_ctrl_config_t :=
  mk_cfg F32.zero F32.zero F32.zero F32.zero F32.zero 0 0 0 0.

Definition init_cfg (cfg : option pwm_ctrl_config_t) : pwm_ctrl_config_t :=
  let c0 := match cfg with Some c => c | None => cfg_zero end in
  let hz := if leb (ctrl_hz c0) F32.zero then F32.of_int 50 else ctrl_hz c0 in
  let ms := if leb (max_step_pct c0) F32.zero
            then F32.lit 2 10 else max_step_pct c0 in
  let mn := if leb (min_pct c0) F32.zero
            then PwmHost32.PWM_HOST_PCT_MIN else min_pct c0 in
  let md := if leb (mid_pct c0) F32.zero
            then PwmHost32.PWM_HOST_PCT_MID else mid_pct c0 in
  let mx := if leb (max_pct c0) F32.zero
            then PwmHost32.PWM_HOST_PCT_MAX else max_pct c0 in
  let ordered := ltb mn md && ltb md mx in
  let mn := if ordered then mn else PwmHost32.PWM_HOST_PCT_MIN in
  let md := if ordered then md else PwmHost32.PWM_HOST_PCT_MID in
  let mx := if ordered then mx else PwmHost32.PWM_HOST_PCT_MAX in
  let rp := match cfg with
            | None => 1
            | Some c => if enable_reverse_protection c =? 0 then 0 else 1
            end in
  let both_zero := (groupA_mask c0 =? 0) && (groupB_mask c0 =? 0) in
  let ga := if both_zero then PWM_CH_MASK_1_4 else groupA_mask c0 in
  let gb := if both_zero then PWM_CH_MASK_5_8 else groupB_mask c0 in
  let gm := if negb (group_mode c0 =? PWM_CTRL_GROUP_MODE_ALL)
               && negb (group_mode c0 =? PWM_CTRL_GROUP_MODE_AB_ALTERNATE)
            then PWM_CTRL_GROUP_MODE_AB_ALTERNATE else group_mode c0 in
  mk_cfg hz ms mn md mx rp ga gb gm.

(** [pwm_ctrl_init]: [now] and [sent] are the clock value and the
    [sendto] result met by the frame it emits. *)
Definition pwm_ctrl_init (cfg : option pwm_ctrl_config_t) (now sent : Z)
  (c : ctrl) (h : host) : option (Z * ctrl * host * list (list Z)) :=
  let c1 := init_state_to_mid
              (mk_ctrl (s_inited c) (init_cfg cfg) (s_current_pct c)
                       (s_target_pct c) (s_step_count c) (s_group_toggle c)) in
  let mid_arr := repeat (mid_pct (s_cfg c1)) PWM_HOST_CH_NUM in
  match PwmHost32.pwm_host_set_all_pct mid_arr now sent h with
  | None => None
  | Some (rc, h1, out) =>
      if negb (is_ok rc) then Some (PWM_CTRL_ERR_INTERNAL, c1, h1, out)
      else Some (PWM_CTRL_OK,
                 mk_ctrl 1 (s_cfg c1) (s_current_pct c1) (s_target_pct c1)
                         (s_step_count c1) (s_group_toggle c1),
                 h1, out)
  end.

(** [s_target_pct[i] = v], for [i] below 8. *)
Definition store (i : nat) (v : fl) (l : list fl) : list fl := <[i := v]> l.

(** [pwm_ctrl_set_target_pct]. *)
Definition pwm_ctrl_set_target_pct (ch : Z) (pct : fl) (c : ctrl) : Z * ctrl :=
  if s_inited c =? 0 then (PWM_CTRL_ERR_NOT_INIT, c)
  else if (ch <? 1) || (PWM_HOST_CH_NUM_Z <? ch)
  then (PWM_CTRL_ERR_INVALID_ARG, c)
  else
    let pct := if ltb pct F32.zero then mid_pct (s_cfg c) else pct in
    let pct := clamp_pct c pct in
    (PWM_CTRL_OK, set_target (store (Z.to_nat (ch - 1)) pct (s_target_pct c)) c).

(** The body of the loop of [pwm_ctrl_set_targets_mask] for index [i],
    on the target array [t]. *)
Definition mask_body (c : ctrl) (mask : Z) (pct : list fl)
  (t : list fl) (i : nat) : list fl :=
  if negb (ch_in_mask (Z.of_nat i + 1) mask) then t
  else
    let p := nth i pct F32.zero in
    let p := if ltb p F32.zero then mid_pct (s_cfg c) else p in
    store i (clamp_pct c p) t.

(** [pwm_ctrl_set_targets_mask]. *)
Definition pwm_ctrl_set_targets_mask (mask : Z) (pct : list fl) (c : ctrl)
  : Z * ctrl :=
  if s_inited c =? 0 then (PWM_CTRL_ERR_NOT_INIT, c)
  else
    (PWM_CTRL_OK,
     set_target (fold_left (mask_body c mask pct) (seq 0 PWM_HOST_CH_NUM)
                           (s_target_pct c)) c).

(** [pwm_ctrl_set_all_target_mid]. *)
Definition pwm_ctrl_set_all_target_mid (c : ctrl) : Z * ctrl :=
  if s_inited c =? 0 then (PWM_CTRL_ERR_NOT_INIT, c)
  else (PWM_CTRL_OK, set_target (repeat (mid_pct (s_cfg c)) PWM_HOST_CH_NUM) c).

(** The increment [pwm_ctrl_step] adds to the value of an updated
    channel: [delta] after the slope limit. *)
Definition step_delta (c : ctrl) (i : nat) : fl :=
  let max_step := max_step_pct_effective c in
  let mid := mid_pct (s_cfg c) in
  let cur := nth i (s_current_pct c) F32.zero in
  let tgt := nth i (s_target_pct c) F32.zero in
  let eff_target :=
    if enable_reverse_protection (s_cfg c) =? 0 then tgt
    else
      let cur_above_mid := gtb cur (F32.add mid eps) in
      let cur_below_mid := ltb cur (F32.sub mid eps) in
      let tgt_above_mid := gtb tgt (F32.add mid eps) in
      let tgt_below_mid := ltb tgt (F32.sub mid eps) in
      if (cur_above_mid && tgt_below_mid) || (cur_below_mid && tgt_above_mid)
      then mid else tgt in
  let delta := F32.sub eff_target cur in
  if gtb (abs delta) max_step
  then (if gtb delta F32.zero then max_step else neg max_step)
  else delta.

(** The body of the first loop of [pwm_ctrl_step] for index [i]: the
    value stored in [next_pct[i]]. *)
Definition next_pct_at (c : ctrl) (mask : Z) (i : nat) : fl :=
  let cur := nth i (s_current_pct c) F32.zero in
  if negb (ch_in_mask (Z.of_nat i + 1) mask) then cur
  else clamp_pct c (F32.add cur (step_delta c i)).

(** [pwm_ctrl_step]: [now] and [sent] are the clock value and the
    [sendto] result met by the frame it emits. *)
Definition pwm_ctrl_step (now sent : Z) (c : ctrl) (h : host)
  : option (Z * ctrl * host * list (list Z)) :=
  if s_inited c =? 0 then Some (PWM_CTRL_ERR_NOT_INIT, c, h, [])
  else
    let '(mask, c1) := active_mask_for_this_step c in
    let next_pct := map (next_pct_at c1 mask) (seq 0 PWM_HOST_CH_NUM) in
    match PwmHost32.pwm_host_set_all_pct next_pct now sent h with
    | None => None
    | Some (rc, h1, out) =>
        if negb (is_ok rc) then Some (PWM_CTRL_ERR_INTERNAL, c1, h1, out)
        else
          Some (PWM_CTRL_OK,
                mk_ctrl (s_inited c1) (s_cfg c1) next_pct (s_target_pct c1)
                        (u64 (s_step_count c1 + 1)) (s_group_toggle c1),
                h1, out)
    end.

(** Current value and target of channel index [i] (0-based). *)
Definition cur_at (c : ctrl) (i : nat) : fl := nth i (s_current_pct c) F32.zero.
Definition tgt_at (c : ctrl) (i : nat) : fl := nth i (s_target_pct c) F32.zero.

(** One [pwm_ctrl_step] per element of [env], each with its clock
    value and [sendto] result; the states passed through, oldest
    first, the starting one included. *)
Fixpoint run_steps (env : list (Z * Z)) (c : ctrl) (h : host)
  : option (list ctrl) :=
  match env with
  | [] => Some [c]
  | (now, sent) :: rest =>
      match pwm_ctrl_step now sent c h with
      | None => None
      | Some (_, c1, h1, _) =>
          match run_steps rest c1 h1 with
          | None => None
          | Some tr => Some (c :: tr)
          end
      end
  end.

(** The calls an application makes on the shaper between two
    initialisations. *)
Inductive ctrl_op : Type :=
| CSetTarget (ch : Z) (pct : fl)
| CSetTargetsMask (mask : Z) (pct : list fl)
| CSetAllTargetMid
| CStep (now sent : Z).

Definition run_ctrl_op (o : ctrl_op) (c : ctrl) (h : host)
  : option (ctrl * host) :=
  match o with
  | CSetTarget ch pct => Some (snd (pwm_ctrl_set_target_pct ch pct c), h)
  | CSetTargetsMask mask pct =>
      Some (snd (pwm_ctrl_set_targets_mask mask pct c), h)
  | CSetAllTargetMid => Some (snd (pwm_ctrl_set_all_target_mid c), h)
  | CStep now sent =>
      match pwm_ctrl_step now sent c h with
      | None => None
      | Some (_, c1, h1, _) => Some (c1, h1)
      end
  end.

Fixpoint run_ctrl_ops (ops : list ctrl_op) (c : ctrl) (h : host)
  : option (ctrl * host) :=
  match ops with
  | [] => Some (c, h)
  | o :: rest =>
      match run_ctrl_op o c h with
      | None => None
      | Some (c1, h1) => run_ctrl_ops rest c1 h1
      end
  end.

(** The requests of a call are numbers. *)
Definition op_is_num (o : ctrl_op) : bool :=
  match o with
  | CSetTarget _ pct => F32.is_num pct
  | CSetTargetsMask _ pct => forallb F32.is_num pct
  | _ => true
  end.

(** Finite limits in the order [0 < min < mid < max], and a step that
    is a binary32 value of any kind. *)
Definition cfg_ok (k : pwm_ctrl_config_t) : bool :=
  F32.is_fin (min_pct k) && F32.is_fin (mid_pct k) && F32.is_fin (max_pct k)
  && ltb F32.zero (min_pct k) && ltb (min_pct k) (mid_pct k)
  && ltb (mid_pct k) (max_pct k)
  && is_float F32.fmt (max_step_pct k).

(** Eight values and eight targets, all finite and within the
    limits. *)
Definition in_limits (c : ctrl) : bool :=
  cfg_ok (s_cfg c)
  && (length (s_current_pct c) =? 8)%nat
  && (length (s_target_pct c) =? 8)%nat
  && forallb (F32.fin_between (min_pct (s_cfg c)) (max_pct (s_cfg c)))
             (s_current_pct c)
  && forallb (F32.fin_between (min_pct (s_cfg c)) (max_pct (s_cfg c)))
             (s_target_pct c).

(** A configuration of binary32 values whose three limits are finite
    or NaN. *)
Definition cfg_no_inf (k : pwm_ctrl_config_t) : bool :=
  F32.no_inf (min_pct k) && F32.no_inf (mid_pct k) && F32.no_inf (max_pct k)
  && is_float F32.fmt (max_step_pct k).

(** The shaper as [pwm_ctrl_init] leaves it for configuration [k],
    with every current value at [cur0] and every target at [tgt0]. *)
Definition shaper_at (k : pwm_ctrl_config_t) (cur0 tgt0 : fl) : ctrl :=
  mk_ctrl 1 (init_cfg (Some k)) (repeat cur0 8) (repeat tgt0 8) 0 0.

(** The default limits, every channel updated on every step, reverse
    protection on, and the step [s]. *)
Definition cfg_step (s : fl) : pwm_ctrl_config_t :=
  mk_cfg (F32.of_int 50) s (F32.lit 5 1) (F32.lit 15 2) (F32.lit 10 1)
         1 0 0 PWM_CTRL_GROUP_MODE_ALL.

(** The defaults, with A/B alternation. *)
Definition cfg_alternate : pwm_ctrl_config_t :=
  mk_cfg (F32.of_int 50) (F32.lit 2 10) (F32.lit 5 1) (F32.lit 15 2)
         (F32.lit 10 1) 1 PWM_CH_MASK_1_4 PWM_CH_MASK_5_8
         PWM_CTRL_GROUP_MODE_AB_ALTERNATE.

(** The argument of [pwm_ctrl_init]: [NULL], or a configuration of
    binary32 values whose limits are finite or NaN. *)
Definition cfg_arg_ok (cfg : option pwm_ctrl_config_t) : bool :=
  match cfg with Some k => cfg_no_inf k | None => true end.


(** [max_pct <= 2 * min_pct]: the limits under which the difference of
    any two values within them is itself a binary32 number. *)
Definition narrow_limits (k : pwm_ctrl_config_t) : bool :=
  F32.rank (max_pct k) <=? 2 * F32.rank (min_pct k).

(** The three ways a step within the limits ends. *)
Definition step_result (c : ctrl) (rc : Z) (c' : ctrl) : Prop :=
  s_inited c' = s_inited c /\ s_cfg c' = s_cfg c /\
  s_target_pct c' = s_target_pct c /\
  ((rc <> PWM_CTRL_OK /\ s_current_pct c' = s_current_pct c) \/
   (rc = PWM_CTRL_OK /\
    s_current_pct c'
    = map (next_pct_at c (fst (active_mask_for_this_step c)))
          (seq 0 PWM_HOST_CH_NUM))).



End PwmCtrl32.

(* ================================================================== *)
(** * Properties *)
(* ================================================================== *)

(* ================================================================== *)
(** ** Facts about fixed-width fields *)
(* ================================================================== *)

Module BitsFacts.
Import Bits.
Lemma u8_range x : 0 <= u8 x < 256.
Proof. unfold u8. apply Z.mod_pos_bound. lia. Qed.

Lemma u16_range x : 0 <= u16 x < 65536.
Proof. unfold u16. apply Z.mod_pos_bound. lia. Qed.

Lemma u32_range x : 0 <= u32 x < 4294967296.
Proof. unfold u32. apply Z.mod_pos_bound. lia. Qed.

Lemma u16_small x : 0 <= x < 65536 -> u16 x = x.
Proof. intros. unfold u16. apply Z.mod_small. lia. Qed.

Lemma u32_small x : 0 <= x < 4294967296 -> u32 x = x.
Proof. intros. unfold u32. apply Z.mod_small. lia. Qed.

(** Or-ing a shifted high part with a low part that fits under the
    shift is an addition. *)
Lemma lor_shiftl_add (hi lo n : Z) :
  0 <= n -> 0 <= lo < 2 ^ n -> Z.lor (Z.shiftl hi n) lo = hi * 2 ^ n + lo.
Proof.
  intros Hn Hlo.
  pose proof (Z.add_lor_land (Z.shiftl hi n) lo) as Hadd.
  assert (Z.land (Z.shiftl hi n) lo = 0) as Hdisj.
  { apply Z.bits_inj'. intros k Hk.
    rewrite Z.land_spec, Z.bits_0.
    destruct (Z_lt_le_dec k n).
    - rewrite Z.shiftl_spec_low by lia. reflexivity.
    - rewrite <- (Z.mod_small lo (2 ^ n)) by lia.
      rewrite Z.mod_pow2_bits_high by lia. apply andb_false_r. }
  rewrite Z.shiftl_mul_pow2 in * by lia. lia.
Qed.

Lemma be16_read_bytes (hi lo : Z) (pre post : list Z) :
  0 <= hi < 256 -> 0 <= lo < 256 ->
  be16_read (pre ++ hi :: lo :: post) (length pre) = hi * 256 + lo.
Proof.
  intros Hhi Hlo. unfold be16_read, byte_at.
  rewrite Nat.add_1_r.
  rewrite (nth_middle pre (lo :: post) hi 0).
  replace (pre ++ hi :: lo :: post) with ((pre ++ [hi]) ++ lo :: post)
    by (rewrite <- app_assoc; reflexivity).
  replace (S (length pre)) with (length (pre ++ [hi]))
    by (rewrite length_app; simpl; lia).
  rewrite (nth_middle (pre ++ [hi]) post lo 0).
  rewrite (lor_shiftl_add hi lo 8) by lia.
  apply u16_small. change (2 ^ 8) with 256. lia.
Qed.

Lemma be16_write_split (v : Z) :
  0 <= v < 65536 ->
  be16_write v = [v / 256; v mod 256].
Proof.
  intros Hv. unfold be16_write, u8.
  rewrite Z.shiftr_div_pow2 by lia. change (2 ^ 8) with 256.
  change 255 with (Z.ones 8). rewrite Z.land_ones by lia.
  change (2 ^ 8) with 256.
  rewrite Z.mod_mod by lia.
  rewrite (Z.mod_small (v / 256)); [reflexivity|].
  split; [apply Z.div_pos; lia | apply Z.div_lt_upper_bound; lia].
Qed.

(** Reading back a 16-bit field that was written big-endian. *)
Lemma be16_read_write (v : Z) (pre post : list Z) :
  0 <= v < 65536 ->
  be16_read (pre ++ be16_write v ++ post) (length pre) = v.
Proof.
  intros Hv. rewrite be16_write_split by assumption.
  change ([v / 256; v mod 256] ++ post) with (v / 256 :: v mod 256 :: post).
  rewrite be16_read_bytes.
  - pose proof (Z.div_mod v 256). lia.
  - split; [apply Z.div_pos; lia | apply Z.div_lt_upper_bound; lia].
  - apply Z.mod_pos_bound. lia.
Qed.

Lemma be16_read_range p off : 0 <= be16_read p off < 65536.
Proof. apply u16_range. Qed.

Lemma be16_write_length v : length (be16_write v) = 2%nat.
Proof. reflexivity. Qed.

Lemma be32_write_length v : length (be32_write v) = 4%nat.
Proof. reflexivity. Qed.

Lemma lor_mul_add (hi lo n : Z) :
  0 <= n -> 0 <= lo < 2 ^ n -> Z.lor (hi * 2 ^ n) lo = hi * 2 ^ n + lo.
Proof.
  intros Hn Hlo. rewrite <- Z.shiftl_mul_pow2 by lia.
  rewrite lor_shiftl_add by lia. rewrite Z.shiftl_mul_pow2 by lia. reflexivity.
Qed.

Lemma byte_at_app_plus (pre l : list Z) (k : nat) :
  byte_at (pre ++ l) (length pre + k) = byte_at l k.
Proof. unfold byte_at. apply app_nth2_plus. Qed.

Lemma be32_read_bytes (b3 b2 b1 b0 : Z) (pre post : list Z) :
  0 <= b3 < 256 -> 0 <= b2 < 256 -> 0 <= b1 < 256 -> 0 <= b0 < 256 ->
  be32_read (pre ++ b3 :: b2 :: b1 :: b0 :: post) (length pre)
  = ((b3 * 256 + b2) * 256 + b1) * 256 + b0.
Proof.
  intros H3 H2 H1 H0. unfold be32_read.
  rewrite <- (Nat.add_0_r (length pre)) at 1.
  rewrite !byte_at_app_plus. unfold byte_at. cbn [nth].
  rewrite !Z.shiftl_mul_pow2 by lia.
  rewrite !u32_small by lia.
  rewrite (lor_mul_add b3 (b2 * 2 ^ 16) 24) by lia.
  replace (b3 * 2 ^ 24 + b2 * 2 ^ 16) with ((b3 * 256 + b2) * 2 ^ 16) by lia.
  rewrite (lor_mul_add (b3 * 256 + b2) (b1 * 2 ^ 8) 16) by lia.
  replace ((b3 * 256 + b2) * 2 ^ 16 + b1 * 2 ^ 8)
    with (((b3 * 256 + b2) * 256 + b1) * 2 ^ 8) by lia.
  rewrite (lor_mul_add _ b0 8) by lia. lia.
Qed.

Lemma be32_bytes_sum (v : Z) :
  0 <= v < 4294967296 ->
  ((v / 16777216 * 256 + (v / 65536) mod 256) * 256 + (v / 256) mod 256) * 256
    + v mod 256 = v.
Proof.
  intros Hv.
  pose proof (Z.div_mod v 256 ltac:(lia)).
  pose proof (Z.div_mod (v / 256) 256 ltac:(lia)).
  pose proof (Z.div_mod (v / 65536) 256 ltac:(lia)).
  assert (v / 256 / 256 = v / 65536) by (rewrite Z.div_div by lia; reflexivity).
  assert (v / 65536 / 256 = v / 16777216) by (rewrite Z.div_div by lia; reflexivity).
  lia.
Qed.

Lemma be32_write_split (v : Z) :
  0 <= v < 4294967296 ->
  be32_write v = [v / 16777216; (v / 65536) mod 256; (v / 256) mod 256; v mod 256].
Proof.
  intros Hv. unfold be32_write, u8.
  rewrite !Z.shiftr_div_pow2 by lia.
  change 255 with (Z.ones 8). rewrite Z.land_ones by lia.
  change (2 ^ 8) with 256. change (2 ^ 16) with 65536.
  change (2 ^ 24) with 16777216.
  rewrite Z.mod_mod by lia.
  rewrite (Z.mod_small (v / 16777216)); [reflexivity|].
  split; [apply Z.div_pos; lia | apply Z.div_lt_upper_bound; lia].
Qed.

(** Reading back a 32-bit field that was written big-endian. *)
Lemma be32_read_write (v : Z) (pre post : list Z) :
  0 <= v < 4294967296 ->
  be32_read (pre ++ be32_write v ++ post) (length pre) = v.
Proof.
  intros Hv. rewrite be32_write_split by assumption.
  cbn [app].
  rewrite be32_read_bytes.
  - apply be32_bytes_sum, Hv.
  - split; [apply Z.div_pos; lia | apply Z.div_lt_upper_bound; lia].
  - apply Z.mod_pos_bound. lia.
  - apply Z.mod_pos_bound. lia.
  - apply Z.mod_pos_bound. lia.
Qed.

End BitsFacts.

(* ================================================================== *)
(** ** Facts about the CRC copies *)
(* ================================================================== *)

Module CrcFacts.
Import Bits BitsFacts Crc.
Lemma host_crc_shift_eq crc : host_crc_shift crc = crc_shift crc.
Proof. unfold host_crc_shift, crc_shift. destruct (_ =? _); reflexivity. Qed.

Lemma u16_lxor_u16_r a b : u16 (Z.lxor a (u16 b)) = u16 (Z.lxor a b).
Proof.
  unfold u16. change 65536 with (2 ^ 16).
  apply Z.bits_inj'. intros k Hk.
  rewrite !Z.testbit_mod_pow2 by lia.
  destruct (k <? 16) eqn:Hlt; [|reflexivity].
  rewrite !andb_true_l, !Z.lxor_spec, Z.testbit_mod_pow2 by lia.
  rewrite Hlt. reflexivity.
Qed.

Lemma host_crc_byte_eq crc b : host_crc_byte crc b = crc_byte crc b.
Proof.
  unfold host_crc_byte, crc_byte. rewrite u16_lxor_u16_r.
  generalize (u16 (Z.lxor crc (Z.shiftl (u16 b) 8))). intros c.
  simpl. rewrite !host_crc_shift_eq. reflexivity.
Qed.

Lemma host_crc_loop_eq data : forall crc,
  host_crc_loop crc data = crc16_update crc data.
Proof.
  induction data as [|b rest IH]; intros crc; simpl; [reflexivity|].
  rewrite IH, host_crc_byte_eq. reflexivity.
Qed.

Lemma host_crc16_eq data : host_crc16_ccitt data = crc16_ccitt data.
Proof. apply host_crc_loop_eq. Qed.

Lemma crc_shift_range crc : 0 <= crc_shift crc < 65536.
Proof. apply u16_range. Qed.

Lemma crc_byte_range crc b : 0 <= crc_byte crc b < 65536.
Proof. unfold crc_byte. simpl. apply crc_shift_range. Qed.

Lemma crc16_update_range data : forall crc,
  0 <= crc < 65536 -> 0 <= crc16_update crc data < 65536.
Proof.
  induction data as [|b rest IH]; intros crc Hc; simpl; [assumption|].
  apply IH, crc_byte_range.
Qed.

Lemma crc16_ccitt_range data : 0 <= crc16_ccitt data < 65536.
Proof. apply crc16_update_range. lia. Qed.

(** The catalogue check value of CRC-16/CCITT-FALSE on "123456789". *)
Example crc16_check_value :
  crc16_ccitt [49; 50; 51; 52; 53; 54; 55; 56; 57] = 0x29B1.
Proof. reflexivity. Qed.

End CrcFacts.

(* ================================================================== *)
(** ** Counting in traces *)
(* ================================================================== *)

Lemma frames_app e1 e2 : frames (e1 ++ e2) = (frames e1 + frames e2)%nat.
Proof. unfold frames. rewrite List.filter_app, length_app. reflexivity. Qed.

Lemma discards_app e1 e2 : discards (e1 ++ e2) = (discards e1 + discards e2)%nat.
Proof. unfold discards. rewrite List.filter_app, length_app. reflexivity. Qed.


(* ================================================================== *)
(** ** The device parser, one pass at a time *)
(* ================================================================== *)

Module DeviceFacts.
Import Bits BitsFacts Crc CrcFacts Device.
(** Case split on the test of the first [if] of the goal. *)
Ltac case_if :=
  match goal with
  | |- context [if ?c then _ else _] =>
      let E := fresh "E" in destruct c eqn:E
  end.

Ltac zify_tests :=
  repeat match goal with
  | H : (_ <? _) = true |- _ => apply Z.ltb_lt in H
  | H : (_ <? _) = false |- _ => apply Z.ltb_ge in H
  | H : (_ <=? _) = true |- _ => apply Z.leb_le in H
  | H : (_ <=? _) = false |- _ => apply Z.leb_gt in H
  | H : (_ =? _) = true |- _ => apply Z.eqb_eq in H
  | H : (_ =? _) = false |- _ => apply Z.eqb_neq in H
  | H : negb _ = true |- _ => apply negb_true_iff in H
  | H : negb _ = false |- _ => apply negb_false_iff in H
  end.

Lemma sof_scan_bound buf : (sof_scan buf <= length buf - 1)%nat.
Proof.
  induction buf as [|b0 rest IH]; simpl; [lia|].
  destruct rest as [|b1 rest']; [simpl; lia|].
  destruct ((b0 =? SOF_B0) && (b1 =? SOF_B1)); [lia|].
  simpl in *. lia.
Qed.

(** With two bytes or more, the scan stops at 0 exactly on a start
    marker. *)
Lemma sof_scan_zero b0 b1 rest :
  sof_scan (b0 :: b1 :: rest) = 0%nat <->
  (b0 =? SOF_B0) && (b1 =? SOF_B1) = true.
Proof.
  simpl. destruct ((b0 =? SOF_B0) && (b1 =? SOF_B1)); split;
    intros; try reflexivity; try discriminate.
Qed.

Lemma dispatch_rxbuf buf msg seq ticks len st :
  s_rxbuf (fst (dispatch buf msg seq ticks len st)) = s_rxbuf st.
Proof.
  unfold dispatch, handle_msg_pwm, handle_msg_hb.
  repeat case_if; reflexivity.
Qed.

Lemma dispatch_frames buf msg seq ticks len st :
  frames (snd (dispatch buf msg seq ticks len st)) = 0%nat /\
  discards (snd (dispatch buf msg seq ticks len st)) = 0%nat.
Proof.
  unfold dispatch, handle_msg_pwm, handle_msg_hb.
  repeat case_if; split; reflexivity.
Qed.

Lemma try_parse_rxbuf st :
  s_rxbuf (st_after (try_parse_one_frame st)) = s_rxbuf st.
Proof.
  unfold try_parse_one_frame.
  repeat case_if; try reflexivity.
  destruct (dispatch _ _ _ _ _ _) as [st1 ev] eqn:Hd. simpl.
  change st1 with (fst (st1, ev)). rewrite <- Hd. apply dispatch_rxbuf.
Qed.

Lemma try_parse_kind st : pass_kind st (try_parse_one_frame st).
Proof.
  unfold try_parse_one_frame, s_rxlen.
  destruct st as [buf flag stats last tmo tick]; simpl.
  destruct (Z.of_nat (length buf) <? 1) eqn:Hlen.
  { apply pass_wait; try reflexivity. simpl.
    zify_tests. destruct buf; [reflexivity | simpl in Hlen; lia]. }
  destruct (0 <? Z.of_nat (sof_scan buf)) eqn:Hpos.
  { pose proof (sof_scan_bound buf).
    apply pass_discard; simpl; try reflexivity.
    - unfold s_rxlen; simpl. zify_tests. lia.
    - unfold valid_frame_at. zify_tests.
      destruct buf as [|b0 [|b1 rest]]; try (simpl in Hpos; lia).
      destruct ((b0 =? SOF_B0) && (b1 =? SOF_B1)) eqn:Hsof.
      + apply (proj2 (sof_scan_zero b0 b1 rest)) in Hsof. lia.
      + unfold byte_at. simpl nth. rewrite Hsof. reflexivity. }
  destruct (Z.of_nat (length buf) <? MIN_FRAME_LEN) eqn:Hmin.
  { apply pass_wait; try reflexivity. simpl. unfold valid_frame_at.
    apply Z.ltb_lt, Z.leb_gt in Hmin. rewrite Hmin.
    rewrite andb_false_r. reflexivity. }
  assert (Hmin' : (MIN_FRAME_LEN <=? Z.of_nat (length buf)) = true).
  { apply Z.leb_le. apply Z.ltb_ge in Hmin. exact Hmin. }
  assert (Hsof : (byte_at buf 0 =? SOF_B0) && (byte_at buf 1 =? SOF_B1) = true).
  { apply Z.ltb_ge in Hpos, Hmin.
    destruct buf as [|b0 [|b1 rest]];
      try (unfold MIN_FRAME_LEN, HEADER_TOTAL_LEN, SOF_LEN, HEADER_REST_LEN,
             CRC_LEN in Hmin; simpl in Hmin; lia).
    apply (proj1 (sof_scan_zero b0 b1 rest)). lia. }
  assert (Hlo : MIN_FRAME_LEN <= Z.of_nat (length buf))
    by (apply Z.leb_le; exact Hmin').
  clear Hlen Hpos Hmin.
  destruct (negb (byte_at buf 2 =? PROTO_VER_1)) eqn:Hver.
  { apply negb_true_iff in Hver.
    apply pass_discard; simpl; try reflexivity.
    - unfold s_rxlen, MIN_FRAME_LEN, HEADER_TOTAL_LEN, SOF_LEN,
        HEADER_REST_LEN, CRC_LEN in *; simpl. lia.
    - unfold valid_frame_at. rewrite Hver, Hsof, Hmin'. reflexivity. }
  apply negb_false_iff in Hver.
  fold (declared_frame_len buf).
  destruct (CFG_PROTO_RX_BUF_CAP <? declared_frame_len buf) eqn:Hcap.
  { apply pass_discard; simpl; try reflexivity.
    - unfold s_rxlen, MIN_FRAME_LEN, HEADER_TOTAL_LEN, SOF_LEN,
        HEADER_REST_LEN, CRC_LEN in *; simpl. lia.
    - unfold valid_frame_at. apply Z.ltb_lt, Z.leb_gt in Hcap. rewrite Hcap.
      rewrite Hsof, Hmin', Hver. reflexivity. }
  destruct (Z.of_nat (length buf) <? declared_frame_len buf) eqn:Havail.
  { apply pass_wait; try reflexivity. simpl. unfold valid_frame_at.
    apply Z.ltb_lt, Z.leb_gt in Havail. rewrite Havail.
    rewrite andb_false_r. reflexivity. }
  match goal with
  | |- context [negb (?a =? ?b)] => destruct (negb (a =? b)) eqn:Hcrc
  end.
  { apply negb_true_iff in Hcrc.
    apply pass_discard; simpl; try reflexivity.
    - unfold s_rxlen, MIN_FRAME_LEN, HEADER_TOTAL_LEN, SOF_LEN,
        HEADER_REST_LEN, CRC_LEN in *; simpl. lia.
    - unfold valid_frame_at. rewrite Hcrc. apply andb_false_r. }
  apply negb_false_iff in Hcrc.
  destruct (dispatch _ _ _ _ _ _) as [st1 ev] eqn:Hd.
  pose proof (dispatch_frames buf (byte_at buf 3) (be16_read buf 4)
                (be32_read buf 6) (be16_read buf 10)
                (mk_dev buf flag stats last tmo tick)) as [Hf Hdc].
  rewrite Hd in Hf, Hdc. simpl in Hf, Hdc.
  pose proof (be16_read_range buf 10) as Hl.
  apply Z.ltb_ge in Hcap, Havail.
  assert (Hfl : u16 (declared_frame_len buf) = declared_frame_len buf).
  { apply u16_small.
    unfold declared_frame_len, HEADER_TOTAL_LEN, SOF_LEN, HEADER_REST_LEN,
      CRC_LEN, CFG_PROTO_RX_BUF_CAP in *. lia. }
  apply pass_frame; simpl.
  - reflexivity.
  - exact Hfl.
  - rewrite Hfl. unfold s_rxlen; simpl.
    unfold declared_frame_len, MIN_FRAME_LEN, HEADER_TOTAL_LEN, SOF_LEN,
      HEADER_REST_LEN, CRC_LEN in *. lia.
  - unfold discards in *. simpl. exact Hdc.
  - unfold frames in *. simpl. rewrite Hf. reflexivity.
  - unfold valid_frame_at. rewrite Hsof, Hmin', Hver, Hcrc.
    apply Z.leb_le in Hcap, Havail.
    rewrite Hcap, Havail. reflexivity.
Qed.

(** On a buffer that starts with a valid frame, one pass dispatches it
    and consumes exactly its declared length. *)
Lemma try_parse_valid st :
  valid_frame_at (s_rxbuf st) = true ->
  try_parse_one_frame st =
    let buf := s_rxbuf st in
    let d := dispatch buf (byte_at buf 3) (be16_read buf 4) (be32_read buf 6)
                      (be16_read buf 10) st in
    mk_ret true (declared_frame_len buf) (fst d)
           (EvFrame (byte_at buf 3) (be16_read buf 4) (be32_read buf 6)
                    (take (Z.to_nat (be16_read buf 10)) (drop 12 buf))
            :: snd d).
Proof.
  unfold valid_frame_at. intros Hv.
  repeat (apply andb_true_iff in Hv; destruct Hv as [Hv ?]).
  match goal with H : (crc16_ccitt _ =? _) = true |- _ => rename H into Hcrc end.
  match goal with
  | H : (declared_frame_len _ <=? Z.of_nat _) = true |- _ => rename H into Havail
  end.
  match goal with
  | H : (declared_frame_len _ <=? CFG_PROTO_RX_BUF_CAP) = true |- _ =>
      rename H into Hcap
  end.
  match goal with H : (byte_at _ 2 =? _) = true |- _ => rename H into Hver end.
  match goal with H : (MIN_FRAME_LEN <=? _) = true |- _ => rename H into Hmin end.
  match goal with H : (byte_at _ 1 =? _) = true |- _ => rename H into Hs1 end.
  rename Hv into Hs0.
  unfold try_parse_one_frame, s_rxlen.
  destruct st as [buf flag stats last tmo tick]; simpl in *.
  apply Z.leb_le in Hmin, Hcap, Havail.
  unfold MIN_FRAME_LEN, HEADER_TOTAL_LEN, SOF_LEN, HEADER_REST_LEN, CRC_LEN in Hmin.
  assert ((Z.of_nat (length buf) <? 1) = false) as -> by (apply Z.ltb_ge; lia).
  assert (sof_scan buf = 0%nat) as ->.
  { destruct buf as [|b0 [|b1 rest]]; try (simpl in Hmin; lia).
    apply (proj2 (sof_scan_zero b0 b1 rest)).
    unfold byte_at in Hs0, Hs1. simpl in Hs0, Hs1. rewrite Hs0, Hs1.
    reflexivity. }
  change (0 <? Z.of_nat 0) with false. cbv iota.
  assert ((Z.of_nat (length buf) <? MIN_FRAME_LEN) = false) as ->
    by (apply Z.ltb_ge;
        unfold MIN_FRAME_LEN, HEADER_TOTAL_LEN, SOF_LEN, HEADER_REST_LEN, CRC_LEN;
        lia).
  rewrite Hver. simpl negb. cbv iota.
  fold (declared_frame_len buf).
  assert ((CFG_PROTO_RX_BUF_CAP <? declared_frame_len buf) = false) as ->
    by (apply Z.ltb_ge; lia).
  assert ((Z.of_nat (length buf) <? declared_frame_len buf) = false) as ->
    by (apply Z.ltb_ge; lia).
  rewrite Hcrc. simpl negb. cbv iota.
  destruct (dispatch _ _ _ _ _ _) as [st1 ev]. simpl.
  f_equal. apply u16_small.
  pose proof (be16_read_range buf 10).
  unfold declared_frame_len, HEADER_TOTAL_LEN, SOF_LEN, HEADER_REST_LEN,
    CRC_LEN, CFG_PROTO_RX_BUF_CAP in *. lia.
Qed.

(** *** The drain loop *)

Lemma valid_frame_at_nil : valid_frame_at [] = false.
Proof. reflexivity. Qed.

Lemma no_frame_in_spec buf :
  no_frame_in buf = true -> forall k, valid_frame_at (drop k buf) = false.
Proof.
  unfold no_frame_in. intros H k.
  destruct (le_lt_dec k (length buf)) as [Hk|Hk].
  - rewrite forallb_forall in H.
    specialize (H k). rewrite in_seq in H.
    apply negb_true_iff, H. lia.
  - rewrite drop_ge by lia. apply valid_frame_at_nil.
Qed.

(** What one call of the loop gives, for any bound larger than the
    occupancy: it leaves the loop, every discard step costs at least
    one byte and every frame at least a minimal frame, and the other
    variables of the engine are left alone. *)
Lemma process_rx_buffer_loop_spec fuel : forall st,
  (length (s_rxbuf st) < fuel)%nat ->
  exists st' ev,
    process_rx_buffer_loop fuel st = Some (st', ev) /\
    (discards ev + 14 * frames ev + length (s_rxbuf st')
       <= length (s_rxbuf st))%nat /\
    ((forall k, valid_frame_at (drop k (s_rxbuf st)) = false) ->
       frames ev = 0%nat).
Proof.
  induction fuel as [|fuel IH]; intros st Hfuel; [lia|].
  simpl. pose proof (try_parse_kind st) as Hk.
  pose proof (try_parse_rxbuf st) as Hbuf.
  destruct Hk as [Hret Hev Hst _
                 |Hret Hc Hd Hf _
                 |Hret Hc Hcr Hd Hf Hvalid].
  - rewrite Hret. simpl. exists (st_after (try_parse_one_frame st)), [].
    rewrite Hev, Hst. split; [reflexivity|]. split; [simpl; lia|].
    intros _. reflexivity.
  - rewrite Hret. simpl.
    assert ((0 <? consumed (try_parse_one_frame st)) = true) as ->
      by (apply Z.ltb_lt; lia).
    set (r := try_parse_one_frame st) in *.
    set (st2 := set_rxbuf (drop (Z.to_nat (consumed r)) (s_rxbuf (st_after r)))
                          (st_after r)).
    assert (Hlen2 : (length (s_rxbuf st2) + Z.to_nat (consumed r)
                     = length (s_rxbuf st))%nat).
    { unfold st2; simpl. rewrite Hbuf, length_drop.
      unfold s_rxlen in Hc. lia. }
    destruct (IH st2) as (st3 & ev & Hrun & Hbound & Hnoise); [lia|].
    rewrite Hrun. exists st3, (evs r ++ ev). split; [reflexivity|].
    rewrite discards_app, frames_app, Hd, Hf. split; [lia|].
    intros Hn. simpl. apply Hnoise. intros k.
    unfold st2; simpl. rewrite Hbuf, drop_drop. apply Hn.
  - rewrite Hret. simpl.
    unfold MIN_FRAME_LEN, HEADER_TOTAL_LEN, SOF_LEN, HEADER_REST_LEN,
      CRC_LEN in Hcr.
    assert ((0 <? consumed (try_parse_one_frame st)) = true) as ->
      by (apply Z.ltb_lt; lia).
    set (r := try_parse_one_frame st) in *.
    set (st2 := set_rxbuf (drop (Z.to_nat (consumed r)) (s_rxbuf (st_after r)))
                          (st_after r)).
    assert (Hlen2 : (length (s_rxbuf st2) + Z.to_nat (consumed r)
                     = length (s_rxbuf st))%nat).
    { unfold st2; simpl. rewrite Hbuf, length_drop.
      unfold s_rxlen in Hcr. lia. }
    destruct (IH st2) as (st3 & ev & Hrun & Hbound & Hnoise); [lia|].
    rewrite Hrun. exists st3, (evs r ++ ev). split; [reflexivity|].
    rewrite discards_app, frames_app, Hd, Hf. split.
    + lia.
    + intros Hn. specialize (Hn 0%nat). rewrite drop_0 in Hn. congruence.
Qed.

(** The loop of [process_rx_buffer] always ends. *)
Lemma process_rx_buffer_loop_total st :
  exists st' ev, process_rx_buffer st = Some (st', ev).
Proof.
  destruct (process_rx_buffer_loop_spec (S (length (s_rxbuf st))) st)
    as (st' & ev & H & _); [lia|].
  exists st', ev. exact H.
Qed.

(** More fuel does not change the result. *)
Lemma process_rx_buffer_loop_mono fuel : forall st r,
  process_rx_buffer_loop fuel st = Some r ->
  process_rx_buffer_loop (S fuel) st = Some r.
Proof.
  induction fuel as [|fuel IH]; intros st r H; [discriminate|].
  simpl in H. change (process_rx_buffer_loop (S (S fuel)) st) with
    (let r0 := try_parse_one_frame st in
     if negb (ret r0) then Some (st_after r0, evs r0)
     else
       let st1 := st_after r0 in
       let st2 :=
         if 0 <? consumed r0
         then set_rxbuf (drop (Z.to_nat (consumed r0)) (s_rxbuf st1)) st1
         else st1 in
       match process_rx_buffer_loop (S fuel) st2 with
       | Some (st3, ev) => Some (st3, evs r0 ++ ev)
       | None => None
       end).
  cbv zeta in *.
  destruct (negb (ret (try_parse_one_frame st))); [exact H|].
  match type of H with
  | match process_rx_buffer_loop fuel ?s with _ => _ end = _ =>
      destruct (process_rx_buffer_loop fuel s) as [[st3 ev]|] eqn:Hrun;
        [|discriminate]
  end.
  rewrite (IH _ _ Hrun). exact H.
Qed.

(** *** Sliding-window ingestion keeps the buffer within its capacity *)

Lemma protocol_feed_bytes_cap data st :
  Z.of_nat (length (s_rxbuf st)) <= CFG_PROTO_RX_BUF_CAP ->
  Z.of_nat (length (s_rxbuf (protocol_feed_bytes data st)))
    <= CFG_PROTO_RX_BUF_CAP.
Proof.
  intros Hcap. unfold protocol_feed_bytes, CFG_PROTO_RX_BUF_CAP in *.
  destruct (protocol_flag st =? 0); [|exact Hcap].
  destruct (Z.of_nat (length data) =? 0); [exact Hcap|].
  destruct (512 <? Z.of_nat (length data)) eqn:Hbig.
  - apply Z.ltb_lt in Hbig. simpl.
    destruct (512 <? _); rewrite ?drop_nil; simpl; rewrite length_drop; lia.
  - apply Z.ltb_ge in Hbig.
    destruct (512 <? _) eqn:Hover; simpl; rewrite length_app.
    + apply Z.ltb_lt in Hover. rewrite length_drop.
      rewrite u16_small by lia. lia.
    + apply Z.ltb_ge in Hover. lia.
Qed.

End DeviceFacts.

(* ================================================================== *)
(** ** Host packer to device parser *)
(* ================================================================== *)

Module RoundTrip.
Import Bits BitsFacts Crc CrcFacts Device DeviceFacts.
Lemma host_be16_write_eq v : HostPack.be16_write v = be16_write v.
Proof. reflexivity. Qed.

Lemma host_be32_write_eq v : HostPack.be32_write v = be32_write v.
Proof.
  unfold HostPack.be32_write, be32_write. do 3 f_equal.
  unfold u8. change 255 with (Z.ones 8). rewrite Z.land_ones by lia.
  change (2 ^ 8) with 256. rewrite Z.mod_mod by lia. reflexivity.
Qed.

Lemma clip_range v : 0 <= v < 65536 -> 0 <= HostPack.clip v < 65536.
Proof. unfold HostPack.clip. destruct (10000 <? v); lia. Qed.

Lemma clamp_clip v : clamp_10000 (HostPack.clip v) = clamp_10000 v.
Proof.
  unfold clamp_10000, HostPack.clip.
  destruct (10000 <? v) eqn:E; [reflexivity|]. rewrite E. reflexivity.
Qed.

(** A 16-bit field found at offset [k] of a buffer. *)
Lemma be16_read_at (l : list Z) (k : nat) (v : Z) :
  l = take k l ++ be16_write v ++ drop (k + 2) l ->
  (k <= length l)%nat -> 0 <= v < 65536 ->
  be16_read l k = v.
Proof.
  intros E Hk Hv. rewrite E.
  pose proof (be16_read_write v (take k l) (drop (k + 2) l) Hv) as H.
  rewrite length_take, Nat.min_l in H by lia. exact H.
Qed.

Lemma be32_read_at (l : list Z) (k : nat) (v : Z) :
  l = take k l ++ be32_write v ++ drop (k + 4) l ->
  (k <= length l)%nat -> 0 <= v < 4294967296 ->
  be32_read l k = v.
Proof.
  intros E Hk Hv. rewrite E.
  pose proof (be32_read_write v (take k l) (drop (k + 4) l) Hv) as H.
  rewrite length_take, Nat.min_l in H by lia. exact H.
Qed.

Section Pack.
Variables (s_seq now : Z) (v0 v1 v2 v3 v4 v5 v6 v7 : Z).

Let pwm8 := [v0; v1; v2; v3; v4; v5; v6; v7].
Let head :=
  [HostPack.SOF_B0; HostPack.SOF_B1; HostPack.PROTO_VER_1; HostPack.MSG_PWM]
    ++ be16_write s_seq ++ HostPack.be32_write now.
Let words :=
  be16_write (HostPack.clip v0) ++ be16_write (HostPack.clip v1)
  ++ be16_write (HostPack.clip v2) ++ be16_write (HostPack.clip v3)
  ++ be16_write (HostPack.clip v4) ++ be16_write (HostPack.clip v5)
  ++ be16_write (HostPack.clip v6) ++ be16_write (HostPack.clip v7).
Let body := drop 2 (head ++ be16_write 16 ++ words).
Let frame :=
  head ++ be16_write 16 ++ words ++ be16_write (host_crc16_ccitt body).

Lemma pack_pwm_frame out_cap :
  30 <= out_cap ->
  HostPack.protocol_pack_pwm s_seq now pwm8 out_cap
  = (Some frame, u16 (s_seq + 1)).
Proof.
  intros Hcap. unfold HostPack.protocol_pack_pwm.
  assert ((out_cap <? u16 (HostPack.HEADER_FIXED_LEN + 16 + HostPack.CRC_LEN))
          = false) as -> by (apply Z.ltb_ge; change (u16 _) with 30; lia).
  reflexivity.
Qed.

Lemma frame_len_field : be16_read frame 10 = 16.
Proof. apply be16_read_at; [reflexivity | simpl; lia | lia]. Qed.

Lemma frame_seq_field : 0 <= s_seq < 65536 -> be16_read frame 4 = s_seq.
Proof. intros. apply be16_read_at; [reflexivity | simpl; lia | lia]. Qed.

Lemma frame_ticks_field : 0 <= now < 4294967296 -> be32_read frame 6 = now.
Proof.
  intros. apply be32_read_at; [|simpl; lia|lia].
  unfold frame, head. rewrite host_be32_write_eq. reflexivity.
Qed.

Lemma frame_crc_field : be16_read frame 28 = crc16_ccitt body.
Proof.
  rewrite <- host_crc16_eq.
  apply be16_read_at; [reflexivity | simpl; lia |].
  rewrite host_crc16_eq. apply crc16_ccitt_range.
Qed.

Lemma frame_valid : valid_frame_at frame = true.
Proof.
  unfold valid_frame_at, declared_frame_len.
  rewrite frame_len_field.
  change (Z.to_nat (12 + 16)) with 28%nat.
  rewrite frame_crc_field.
  change (take (Z.to_nat (u16 (10 + 16))) (drop 2 frame)) with body.
  rewrite (Z.eqb_refl (crc16_ccitt body)). reflexivity.
Qed.

Hypothesis Hwords : Forall (fun v => 0 <= v < 65536) pwm8.

Lemma frame_word i :
  (i < 8)%nat -> pwm_word frame i = clamp_10000 (nth i pwm8 0).
Proof.
  intros Hi. unfold pwm_word.
  assert (Hr : forall j, (j < 8)%nat -> 0 <= HostPack.clip (nth j pwm8 0) < 65536).
  { intros j Hj. apply clip_range.
    rewrite List.Forall_forall in Hwords. apply Hwords.
    apply nth_In. simpl. lia. }
  transitivity (clamp_10000 (HostPack.clip (nth i pwm8 0)));
    [|apply clamp_clip].
  f_equal.
  do 8 (destruct i as [|i];
        [apply be16_read_at; [reflexivity | simpl; lia | apply Hr; lia]|]).
  lia.
Qed.

Hypothesis Hseq : 0 <= s_seq < 65536.
Hypothesis Hnow : 0 <= now < 4294967296.

(** The device pass over a buffer holding exactly the packed frame. *)
Lemma pack_then_parse (out_cap : Z) (st : dev) :
  30 <= out_cap ->
  exists frame,
    HostPack.protocol_pack_pwm s_seq now pwm8 out_cap
      = (Some frame, u16 (s_seq + 1)) /\
    valid_frame_at frame = true /\
    pwm_words frame = map clamp_10000 pwm8 /\
    try_parse_one_frame (set_rxbuf frame st)
      = mk_ret true 30
          (set_stats (inc_ok (s_stats st))
             (set_last_ok (hal_tick st) (set_rxbuf frame st)))
          (EvFrame MSG_PWM s_seq now (take 16 (drop 12 frame))
           :: map (fun i => EvSetDuty (Z.of_nat i + 1)
                                      (duty_of (clamp_10000 (nth i pwm8 0))))
                  (seq 0 8)).
Proof.
  intros Hcap. exists frame.
  split; [apply pack_pwm_frame, Hcap|].
  split; [apply frame_valid|].
  split.
  { unfold pwm_words. change pwm8 with (map (fun i => nth i pwm8 0) (seq 0 8)).
    rewrite map_map. apply map_ext_in. intros i Hi. apply in_seq in Hi.
    apply frame_word. lia. }
  rewrite try_parse_valid by apply frame_valid.
  cbv zeta. change (s_rxbuf (set_rxbuf frame st)) with frame.
  unfold declared_frame_len.
  rewrite frame_len_field, frame_seq_field, frame_ticks_field by assumption.
  change (byte_at frame 3) with MSG_PWM.
  unfold dispatch. rewrite (Z.eqb_refl MSG_PWM).
  unfold handle_msg_pwm. change (negb (16 =? 16)) with false. cbv iota.
  cbn [fst snd].
  f_equal. f_equal.
  apply map_ext_in. intros i Hi. apply in_seq in Hi.
  rewrite frame_word by lia. reflexivity.
Qed.

End Pack.
End RoundTrip.

Module ScenarioChecks.
Import Bits Device Scenario.
Example hb_example_bytes :
  hb_example = [0xAA; 0x55; 0x01; 0x10; 0x00; 0x07; 0x01; 0x02; 0x03; 0x04;
                0x00; 0x00; 0x82; 0xF9].
Proof. vm_compute. reflexivity. Qed.

End ScenarioChecks.

(* ================================================================== *)
(** ** The liveness timestamp *)
(* ================================================================== *)

Module Liveness.
Import Bits BitsFacts Crc CrcFacts Device DeviceFacts Scenario.
Lemma has_live_frame_app e1 e2 :
  has_live_frame (e1 ++ e2) = has_live_frame e1 || has_live_frame e2.
Proof. apply existsb_app. Qed.

(** What [dispatch] leaves in the timestamp, and that its own calls
    contain no frame marker. *)
Lemma dispatch_last_ok buf msg seq ticks len st :
  let d := dispatch buf msg seq ticks len st in
  s_last_ok_rx_ms (fst d)
    = (if (msg =? MSG_PWM) || (msg =? MSG_HB)
       then HAL_GetTick st else s_last_ok_rx_ms st) /\
  has_live_frame (snd d) = false /\
  hal_tick (fst d) = hal_tick st /\
  s_failsafe_timeout_ms (fst d) = s_failsafe_timeout_ms st /\
  protocol_flag (fst d) = protocol_flag st.
Proof.
  unfold dispatch, handle_msg_pwm, handle_msg_hb. cbv zeta.
  destruct (msg =? MSG_PWM) eqn:Hp.
  - destruct (negb (len =? 16)); simpl; repeat split; reflexivity.
  - destruct (msg =? MSG_HB) eqn:Hh.
    + simpl; repeat split; reflexivity.
    + destruct (msg =? MSG_HB_ACK); simpl; repeat split; reflexivity.
Qed.

(** One pass of the parser: the timestamp is written exactly when the
    pass dispatched a validated COMMAND or HEARTBEAT frame. *)
Lemma try_parse_last_ok st :
  let r := try_parse_one_frame st in
  s_last_ok_rx_ms (st_after r)
    = (if has_live_frame (evs r) then HAL_GetTick st else s_last_ok_rx_ms st) /\
  hal_tick (st_after r) = hal_tick st /\
  s_failsafe_timeout_ms (st_after r) = s_failsafe_timeout_ms st /\
  protocol_flag (st_after r) = protocol_flag st.
Proof.
  unfold try_parse_one_frame. cbv zeta.
  destruct (s_rxlen st <? 1); [simpl; repeat split; reflexivity|].
  destruct (0 <? Z.of_nat (sof_scan (s_rxbuf st)));
    [simpl; repeat split; reflexivity|].
  destruct (s_rxlen st <? MIN_FRAME_LEN); [simpl; repeat split; reflexivity|].
  destruct (negb (byte_at (s_rxbuf st) 2 =? PROTO_VER_1));
    [simpl; repeat split; reflexivity|].
  destruct (CFG_PROTO_RX_BUF_CAP <? _); [simpl; repeat split; reflexivity|].
  destruct (s_rxlen st <? _); [simpl; repeat split; reflexivity|].
  destruct (negb (_ =? _)); [simpl; repeat split; reflexivity|].
  match goal with
  | |- context [dispatch ?b ?m ?s ?t ?l ?st0] =>
      pose proof (dispatch_last_ok b m s t l st0) as Hd;
      destruct (dispatch b m s t l st0) as [st1 ev]
  end.
  cbv zeta in Hd. simpl in Hd. destruct Hd as (H1 & H2 & H3 & H4 & H5).
  simpl. rewrite H2, orb_false_r. repeat split; assumption.
Qed.

(** The frame marker of a pass is live exactly on a validated frame
    whose kind is COMMAND or HEARTBEAT. *)
Lemma try_parse_live_frame st :
  has_live_frame (evs (try_parse_one_frame st))
  = valid_frame_at (s_rxbuf st)
    && ((byte_at (s_rxbuf st) 3 =? MSG_PWM) || (byte_at (s_rxbuf st) 3 =? MSG_HB)).
Proof.
  destruct (valid_frame_at (s_rxbuf st)) eqn:Hv.
  - rewrite try_parse_valid by exact Hv. cbv zeta. cbn [evs has_live_frame existsb].
    destruct (dispatch_last_ok (s_rxbuf st) (byte_at (s_rxbuf st) 3)
                (be16_read (s_rxbuf st) 4) (be32_read (s_rxbuf st) 6)
                (be16_read (s_rxbuf st) 10) st) as (_ & Hno & _).
    unfold has_live_frame in Hno. rewrite Hno, orb_false_r. reflexivity.
  - destruct (try_parse_kind st) as [_ Hev _ _|_ _ _ Hf _|_ _ _ _ _ Hv'];
      [rewrite Hev; reflexivity| |congruence].
    simpl. unfold frames in Hf.
    induction (evs (try_parse_one_frame st)) as [|e l IH]; [reflexivity|].
    destruct e; simpl in *; try discriminate; apply IH; assumption.
Qed.

(** The whole drain: the timestamp is written exactly when some
    dispatched frame was a COMMAND or a HEARTBEAT. *)
Lemma process_rx_buffer_loop_last_ok fuel : forall st st' ev,
  process_rx_buffer_loop fuel st = Some (st', ev) ->
  s_last_ok_rx_ms st'
    = (if has_live_frame ev then HAL_GetTick st else s_last_ok_rx_ms st) /\
  hal_tick st' = hal_tick st /\
  s_failsafe_timeout_ms st' = s_failsafe_timeout_ms st /\
  protocol_flag st' = protocol_flag st.
Proof.
  induction fuel as [|fuel IH]; intros st st' ev Hrun; [discriminate|].
  simpl in Hrun.
  pose proof (try_parse_last_ok st) as Hp. cbv zeta in Hp.
  destruct Hp as (Hl & Ht & Hto & Hfl).
  set (r := try_parse_one_frame st) in *.
  destruct (ret r); simpl in Hrun.
  - match type of Hrun with
    | match process_rx_buffer_loop fuel ?s with _ => _ end = _ =>
        destruct (process_rx_buffer_loop fuel s) as [[st3 ev3]|] eqn:Hrec;
          [|discriminate];
        assert (Hs : s_last_ok_rx_ms s = s_last_ok_rx_ms (st_after r)
                     /\ hal_tick s = hal_tick (st_after r)
                     /\ s_failsafe_timeout_ms s = s_failsafe_timeout_ms (st_after r)
                     /\ protocol_flag s = protocol_flag (st_after r))
          by (destruct (0 <? consumed r); repeat split; reflexivity)
    end.
    destruct Hs as (Hs1 & Hs2 & Hs3 & Hs4).
    injection Hrun as <- <-.
    apply IH in Hrec. destruct Hrec as (Hl3 & Ht3 & Hto3 & Hfl3).
    unfold HAL_GetTick in *.
    rewrite has_live_frame_app, Hl3, Hs1, Hs2, Hl, Ht.
    repeat split; try congruence.
    destruct (has_live_frame (evs r)), (has_live_frame ev3); reflexivity.
  - injection Hrun as <- <-. repeat split; assumption.
Qed.

(** Every call of the engine: [s_last_ok_rx_ms] is written by
    [protocol_init], by a drain that dispatched a COMMAND or HEARTBEAT
    frame, and by [protocol_poll] when it fires; nothing else touches
    it. *)
Lemma run_op_last_ok o st st' ev :
  run_op o st = Some (st', ev) ->
  s_last_ok_rx_ms st'
    = (if refreshes o st ev then HAL_GetTick st else s_last_ok_rx_ms st).
Proof.
  destruct o; simpl; intros H; try (injection H as <- <-; reflexivity).
  - (* OpFeed *)
    injection H as <- <-. unfold protocol_feed_bytes.
    repeat case_if; reflexivity.
  - (* OpItFeed *)
    injection H as <- <-. unfold protocol_it_process, protocol_feed_bytes.
    repeat case_if; reflexivity.
  - (* OpProcess *)
    unfold protocol_process in H.
    destruct (protocol_flag st =? 1).
    + unfold process_rx_buffer in H.
      destruct (process_rx_buffer_loop _ st) as [[st1 ev1]|] eqn:Hrun;
        [|discriminate].
      injection H as <- <-.
      apply process_rx_buffer_loop_last_ok in Hrun.
      destruct Hrun as (Hl & _). exact Hl.
    + injection H as <- <-. reflexivity.
  - (* OpPoll *)
    unfold protocol_poll in H. destruct (poll_expired st);
      injection H as <- <-; reflexivity.
Qed.

End Liveness.

(* ================================================================== *)
(** ** The failsafe timer *)
(* ================================================================== *)

Module Failsafe.
Import Bits BitsFacts Device DeviceFacts Scenario Liveness.
Lemma failsafe_entries_app e1 e2 :
  failsafe_entries (e1 ++ e2) = (failsafe_entries e1 + failsafe_entries e2)%nat.
Proof. unfold failsafe_entries. rewrite List.filter_app, length_app. reflexivity. Qed.

Lemma failsafe_entries_enter : failsafe_entries enter_failsafe_mid_all = 1%nat.
Proof. reflexivity. Qed.

(** Without wrap-around the test of [protocol_poll] compares the
    elapsed time with the timeout. *)
Lemma poll_expired_iff st :
  0 <= s_last_ok_rx_ms st <= hal_tick st -> hal_tick st < 4294967296 ->
  poll_expired st = true <->
  s_failsafe_timeout_ms st < hal_tick st - s_last_ok_rx_ms st.
Proof.
  intros Hl Ht. unfold poll_expired, HAL_GetTick.
  rewrite u32_small by lia. apply Z.ltb_lt.
Qed.

Lemma protocol_poll_fires st :
  0 <= s_last_ok_rx_ms st <= hal_tick st -> hal_tick st < 4294967296 ->
  s_failsafe_timeout_ms st < hal_tick st - s_last_ok_rx_ms st ->
  protocol_poll st = (set_last_ok (hal_tick st) st, enter_failsafe_mid_all).
Proof.
  intros Hl Ht He. unfold protocol_poll.
  apply (proj2 (poll_expired_iff st Hl Ht)) in He. rewrite He. reflexivity.
Qed.

Lemma protocol_poll_quiet st :
  0 <= s_last_ok_rx_ms st <= hal_tick st -> hal_tick st < 4294967296 ->
  hal_tick st - s_last_ok_rx_ms st <= s_failsafe_timeout_ms st ->
  protocol_poll st = (st, []).
Proof.
  intros Hl Ht He. unfold protocol_poll.
  destruct (poll_expired st) eqn:E; [|reflexivity].
  apply (proj1 (poll_expired_iff st Hl Ht)) in E. lia.
Qed.

(** Over an outage every run of [enter_failsafe_mid_all] moves the
    timestamp forward by more than the timeout. *)
Lemma poll_run_rate dts : forall st,
  Forall (fun dt => 0 <= dt) dts ->
  0 <= s_last_ok_rx_ms st <= hal_tick st ->
  hal_tick st + total_ms dts < 4294967296 ->
  let r := poll_run dts st in
  Z.of_nat (failsafe_entries (snd r)) * (s_failsafe_timeout_ms st + 1)
    <= s_last_ok_rx_ms (fst r) - s_last_ok_rx_ms st /\
  s_last_ok_rx_ms (fst r) <= hal_tick (fst r) /\
  hal_tick (fst r) = hal_tick st + total_ms dts /\
  s_failsafe_timeout_ms (fst r) = s_failsafe_timeout_ms st.
Proof.
  induction dts as [|dt rest IH]; intros st Hdts Hl Ht; cbv zeta.
  - unfold failsafe_entries, total_ms. simpl. repeat split; lia.
  - inversion Hdts as [|? ? Hdt Hrest]; subst.
    assert (Hsum : 0 <= total_ms rest).
    { clear -Hrest. induction Hrest; simpl; lia. }
    simpl in Ht. simpl poll_run.
    assert (Hta : hal_tick (advance dt st) = hal_tick st + dt)
      by (simpl; apply u32_small; lia).
    assert (Hla : s_last_ok_rx_ms (advance dt st) = s_last_ok_rx_ms st)
      by reflexivity.
    assert (Htoa : s_failsafe_timeout_ms (advance dt st)
                   = s_failsafe_timeout_ms st) by reflexivity.
    generalize dependent (advance dt st). intros sa Hta Hla Htoa.
    destruct (Z_lt_le_dec (s_failsafe_timeout_ms sa)
                          (hal_tick sa - s_last_ok_rx_ms sa)) as [Hexp|Hexp].
    + rewrite protocol_poll_fires by lia.
      specialize (IH (set_last_ok (hal_tick sa) sa) Hrest).
      cbv zeta in IH.
      change (s_last_ok_rx_ms (set_last_ok (hal_tick sa) sa))
        with (hal_tick sa) in IH.
      change (hal_tick (set_last_ok (hal_tick sa) sa)) with (hal_tick sa) in IH.
      change (s_failsafe_timeout_ms (set_last_ok (hal_tick sa) sa))
        with (s_failsafe_timeout_ms sa) in IH.
      destruct IH as (I1 & I2 & I3 & I4); [lia|lia|].
      destruct (poll_run rest (set_last_ok (hal_tick sa) sa)) as [st2 ev2].
      cbn [fst snd] in *.
      rewrite failsafe_entries_app, failsafe_entries_enter.
      rewrite Htoa in *.
      rewrite Nat2Z.inj_add, Z.mul_add_distr_r.
      change (total_ms (dt :: rest)) with (dt + total_ms rest).
      repeat split; lia.
    + rewrite protocol_poll_quiet by lia.
      specialize (IH sa Hrest). cbv zeta in IH.
      destruct IH as (I1 & I2 & I3 & I4); [lia|lia|].
      destruct (poll_run rest sa) as [st2 ev2].
      cbn [fst snd app] in *. rewrite Htoa in *.
      change (total_ms (dt :: rest)) with (dt + total_ms rest).
      repeat split; lia.
Qed.

(** After a drain that dispatched a COMMAND or HEARTBEAT frame the
    next poll is quiet. *)
Lemma poll_after_live_frame st st' ev :
  protocol_process st = Some (st', ev) ->
  has_live_frame ev = true ->
  0 <= s_failsafe_timeout_ms st ->
  s_last_ok_rx_ms st' = hal_tick st' /\ protocol_poll st' = (st', []).
Proof.
  intros Hrun Hlive Hto.
  pose proof (run_op_last_ok OpProcess st st' ev Hrun) as Hl.
  simpl in Hl. rewrite Hlive in Hl.
  unfold protocol_process in Hrun.
  destruct (protocol_flag st =? 1); [|injection Hrun as <- <-; discriminate].
  unfold process_rx_buffer in Hrun.
  destruct (process_rx_buffer_loop _ st) as [[st1 ev1]|] eqn:Hloop;
    [|discriminate].
  injection Hrun as <- <-.
  apply process_rx_buffer_loop_last_ok in Hloop.
  destruct Hloop as (_ & Ht & Hto' & _).
  simpl in *. unfold HAL_GetTick in Hl.
  split; [congruence|].
  unfold protocol_poll, poll_expired, HAL_GetTick. simpl.
  rewrite Hl, Ht, Z.sub_diag, Hto'.
  change (u32 0) with 0.
  assert ((s_failsafe_timeout_ms st <? 0) = false) as -> by (apply Z.ltb_ge; lia).
  reflexivity.
Qed.

End Failsafe.

(* ================================================================== *)
(** ** Frames split over two chunks *)
(* ================================================================== *)

Module Reassembly.
Import Bits BitsFacts Crc CrcFacts Device DeviceFacts Scenario.
Lemma byte_at_take (l : list Z) (k i : nat) :
  (i < k)%nat -> byte_at (take k l) i = byte_at l i.
Proof.
  intros Hi. unfold byte_at.
  revert k i Hi. induction l as [|x l IH]; intros k i Hi.
  - rewrite take_nil. reflexivity.
  - destruct k as [|k]; [lia|]. destruct i as [|i]; [reflexivity|].
    simpl. apply IH. lia.
Qed.

Lemma be16_read_take (l : list Z) (k off : nat) :
  (off + 1 < k)%nat -> be16_read (take k l) off = be16_read l off.
Proof.
  intros H. unfold be16_read. rewrite !byte_at_take by lia. reflexivity.
Qed.

Lemma is_frame_bytes_facts f :
  is_frame_bytes f = true ->
  valid_frame_at f = true /\
  declared_frame_len f = Z.of_nat (length f) /\
  14 <= Z.of_nat (length f) <= 512 /\
  (byte_at f 0 =? SOF_B0) && (byte_at f 1 =? SOF_B1) = true /\
  byte_at f 2 = PROTO_VER_1.
Proof.
  unfold is_frame_bytes. intros H.
  apply andb_true_iff in H. destruct H as [Hv Hd].
  apply Z.eqb_eq in Hd. split; [exact Hv|]. split; [exact Hd|].
  unfold valid_frame_at in Hv.
  repeat (apply andb_true_iff in Hv; destruct Hv as [Hv ?]).
  repeat match goal with
         | H : (_ <=? _) = true |- _ => apply Z.leb_le in H
         | H : (byte_at _ 2 =? _) = true |- _ => apply Z.eqb_eq in H
         end.
  unfold MIN_FRAME_LEN, HEADER_TOTAL_LEN, SOF_LEN, HEADER_REST_LEN, CRC_LEN,
    CFG_PROTO_RX_BUF_CAP in *.
  repeat split; try lia; try assumption.
Qed.

(** A proper, non-empty prefix of a frame makes the parser wait. *)
Lemma try_parse_prefix f k st :
  is_frame_bytes f = true ->
  (0 < k < length f)%nat ->
  s_rxbuf st = take k f ->
  try_parse_one_frame st = mk_ret false 0 st [].
Proof.
  intros Hf Hk Hbuf.
  destruct (is_frame_bytes_facts f Hf) as (_ & Hd & Hlen & Hsof & Hver).
  unfold try_parse_one_frame, s_rxlen. rewrite Hbuf.
  rewrite length_take, Nat.min_l by lia.
  assert ((Z.of_nat k <? 1) = false) as -> by (apply Z.ltb_ge; lia).
  assert (sof_scan (take k f) = 0%nat) as ->.
  { destruct f as [|b0 [|b1 rest]]; try (simpl in Hlen; lia).
    destruct k as [|[|k]]; [lia|reflexivity|].
    cbn [take firstn]. apply (proj2 (sof_scan_zero b0 b1 _)). exact Hsof. }
  change (0 <? Z.of_nat 0) with false. cbv iota.
  destruct (Z.of_nat k <? MIN_FRAME_LEN) eqn:Hmin; [reflexivity|].
  apply Z.ltb_ge in Hmin.
  unfold MIN_FRAME_LEN, HEADER_TOTAL_LEN, SOF_LEN, HEADER_REST_LEN, CRC_LEN in Hmin.
  rewrite byte_at_take by lia. rewrite Hver, Z.eqb_refl. simpl negb. cbv iota.
  rewrite (be16_read_take f k 10) by lia.
  fold (declared_frame_len f). rewrite Hd.
  assert ((CFG_PROTO_RX_BUF_CAP <? Z.of_nat (length f)) = false) as ->
    by (apply Z.ltb_ge; unfold CFG_PROTO_RX_BUF_CAP; lia).
  assert ((Z.of_nat k <? Z.of_nat (length f)) = true) as ->
    by (apply Z.ltb_lt; lia).
  reflexivity.
Qed.

(** Draining a buffer that holds exactly one frame decodes it and
    empties the buffer. *)
Lemma drain_one_frame f st :
  is_frame_bytes f = true ->
  s_rxbuf st = f ->
  exists st' ev,
    process_rx_buffer st = Some (st', ev) /\ frames ev = 1%nat /\
    s_rxbuf st' = [].
Proof.
  intros Hf Hbuf.
  destruct (is_frame_bytes_facts f Hf) as (Hv & Hd & Hlen & _ & _).
  unfold process_rx_buffer. rewrite Hbuf.
  replace (S (length f)) with (S (S (length f - 1))) by lia.
  cbn [process_rx_buffer_loop].
  rewrite (try_parse_valid st) by (rewrite Hbuf; exact Hv).
  cbv zeta. rewrite Hbuf. cbn [ret consumed st_after evs negb].
  rewrite Hd.
  assert ((0 <? Z.of_nat (length f)) = true) as -> by (apply Z.ltb_lt; lia).
  set (d := dispatch f (byte_at f 3) (be16_read f 4) (be32_read f 6)
                     (be16_read f 10) st).
  assert (Hdb : s_rxbuf (fst d) = f)
    by (unfold d; rewrite dispatch_rxbuf; exact Hbuf).
  rewrite Hdb, Nat2Z.id, drop_all.
  set (st2 := set_rxbuf [] (fst d)).
  assert (Hstop : try_parse_one_frame st2 = mk_ret false 0 st2 [])
    by reflexivity.
  rewrite Hstop. cbn [ret negb st_after evs].
  eexists _, _. split; [reflexivity|]. split; [|reflexivity].
  rewrite app_nil_r. unfold frames. cbn [List.filter is_frame length].
  destruct (dispatch_frames f (byte_at f 3) (be16_read f 4) (be32_read f 6)
              (be16_read f 10) st) as [H0 _].
  fold d in H0. unfold frames in H0. rewrite H0. reflexivity.
Qed.

(** Feeding a chunk that fits, with the flag clear. *)
Lemma protocol_feed_bytes_fits data st :
  protocol_flag st = 0 -> data <> [] ->
  Z.of_nat (length (s_rxbuf st)) + Z.of_nat (length data) <= 512 ->
  protocol_feed_bytes data st = set_flag 1 (set_rxbuf (s_rxbuf st ++ data) st).
Proof.
  intros Hflag Hne Hfit. unfold protocol_feed_bytes, CFG_PROTO_RX_BUF_CAP.
  rewrite Hflag. change (0 =? 0) with true. cbv iota.
  assert ((Z.of_nat (length data) =? 0) = false) as ->
    by (apply Z.eqb_neq; destruct data; [congruence | simpl; lia]).
  assert ((512 <? Z.of_nat (length data)) = false) as ->
    by (apply Z.ltb_ge; lia).
  assert ((512 <? Z.of_nat (length (s_rxbuf st)) + Z.of_nat (length data))
          = false) as -> by (apply Z.ltb_ge; lia).
  reflexivity.
Qed.

(** While the flag is set, a chunk is dropped. *)
Lemma protocol_feed_bytes_busy data st :
  protocol_flag st <> 0 -> protocol_feed_bytes data st = st.
Proof.
  intros H. unfold protocol_feed_bytes.
  apply Z.eqb_neq in H. rewrite H. reflexivity.
Qed.

(** A drain over a stored prefix decodes nothing and keeps it. *)
Lemma protocol_process_prefix f k st :
  is_frame_bytes f = true ->
  (0 < k < length f)%nat ->
  s_rxbuf st = take k f -> protocol_flag st = 1 ->
  protocol_process st = Some (set_flag 0 st, []).
Proof.
  intros Hf Hk Hbuf Hflag. unfold protocol_process, process_rx_buffer.
  rewrite Hflag. change (1 =? 1) with true. cbv iota.
  cbn [process_rx_buffer_loop].
  rewrite (try_parse_prefix f k st Hf Hk Hbuf). reflexivity.
Qed.

End Reassembly.

(* ================================================================== *)
(** ** The heartbeat acknowledgement *)
(* ================================================================== *)

Module Heartbeat.
Import Bits BitsFacts Crc CrcFacts Device DeviceFacts Scenario RoundTrip.
(** Field by field, the acknowledgement built by [handle_msg_hb]. *)
Lemma hb_ack_fields (seq now : Z) :
  0 <= seq < 65536 -> 0 <= now < 4294967296 ->
  let ack := hb_ack_frame seq now in
  byte_at ack 3 = MSG_HB_ACK /\
  be16_read ack 4 = seq /\
  be32_read ack 6 = now /\
  take 4 (drop 6 ack) = be32_write now /\
  be16_read ack 10 = 0 /\
  is_frame_bytes ack = true.
Proof.
  intros Hseq Hnow ack.
  assert (Hlen : be16_read ack 10 = 0)
    by (apply be16_read_at; [reflexivity | simpl; lia | lia]).
  assert (Hcrc : be16_read ack 12
                 = crc16_ccitt ([PROTO_VER_1; MSG_HB_ACK] ++ be16_write seq
                                ++ be32_write now ++ be16_write 0)).
  { apply be16_read_at; [reflexivity | simpl; lia | apply crc16_ccitt_range]. }
  split; [reflexivity|].
  split; [apply be16_read_at; [reflexivity | simpl; lia | lia]|].
  split; [apply be32_read_at; [reflexivity | simpl; lia | lia]|].
  split; [reflexivity|].
  split; [exact Hlen|].
  unfold is_frame_bytes, valid_frame_at, declared_frame_len.
  rewrite Hlen. change (Z.to_nat (12 + 0)) with 12%nat. rewrite Hcrc.
  change (take (Z.to_nat (u16 (10 + 0))) (drop 2 ack))
    with ([PROTO_VER_1; MSG_HB_ACK] ++ be16_write seq
          ++ be32_write now ++ be16_write 0).
  rewrite (Z.eqb_refl (crc16_ccitt _)). reflexivity.
Qed.

(** The pass over a buffer that starts with a valid heartbeat. *)
Lemma try_parse_heartbeat st :
  valid_frame_at (s_rxbuf st) = true ->
  byte_at (s_rxbuf st) 3 = MSG_HB ->
  let buf := s_rxbuf st in
  try_parse_one_frame st
  = mk_ret true (declared_frame_len buf)
      (set_stats (inc_ok (s_stats st)) (set_last_ok (hal_tick st) st))
      [EvFrame MSG_HB (be16_read buf 4) (be32_read buf 6)
               (take (Z.to_nat (be16_read buf 10)) (drop 12 buf));
       EvUartTx (hb_ack_frame (be16_read buf 4) (hal_tick st))].
Proof.
  intros Hv Hmsg buf. subst buf. rewrite try_parse_valid by exact Hv.
  cbv zeta. rewrite Hmsg.
  unfold dispatch. change (MSG_HB =? MSG_PWM) with false.
  change (MSG_HB =? MSG_HB) with true. cbv iota.
  reflexivity.
Qed.

End Heartbeat.

(* ================================================================== *)
(** ** The command shaper, one step at a time *)
(* ================================================================== *)

Module ShaperFacts.
Import Bits PwmHost PwmCtrl.
Local Open Scope Q_scope.

Lemma nth_map_seq {A} (f : nat -> A) (n i : nat) (d : A) :
  (i < n)%nat -> nth i (map f (seq 0 n)) d = f i.
Proof.
  intros Hi. rewrite (nth_indep _ d (f 0%nat)) by (rewrite length_map, length_seq; lia).
  rewrite (map_nth f (seq 0 n) 0%nat i). rewrite seq_nth by lia. reflexivity.
Qed.

(** [active_mask_for_this_step] touches the toggle only. *)
Lemma active_mask_fields c :
  let c1 := snd (active_mask_for_this_step c) in
  s_inited c1 = s_inited c /\ s_cfg c1 = s_cfg c /\
  s_current_pct c1 = s_current_pct c /\ s_target_pct c1 = s_target_pct c /\
  s_step_count c1 = s_step_count c.
Proof.
  unfold active_mask_for_this_step.
  destruct (group_mode (s_cfg c) =? PWM_CTRL_GROUP_MODE_ALL)%Z;
    [|destruct (s_group_toggle c =? 0)%Z]; simpl; repeat split; reflexivity.
Qed.

(** [next_pct_at] reads the configuration and the two arrays only. *)
Lemma next_pct_at_ext c c' mask i :
  s_cfg c' = s_cfg c -> s_current_pct c' = s_current_pct c ->
  s_target_pct c' = s_target_pct c ->
  next_pct_at c' mask i = next_pct_at c mask i.
Proof.
  intros Hc Hcur Htgt.
  unfold next_pct_at, max_step_pct_effective, clamp_pct, clamp_min, clamp_max.
  rewrite Hc, Hcur, Htgt. reflexivity.
Qed.

Lemma pwm_ctrl_step_kind now sent c h :
  let r := pwm_ctrl_step now sent c h in
  step_kind c (fst (fst (fst r))) (snd (fst (fst r))).
Proof.
  unfold pwm_ctrl_step.
  destruct (s_inited c =? 0)%Z eqn:Hi.
  { apply Z.eqb_eq in Hi. apply step_not_init; simpl; auto. }
  apply Z.eqb_neq in Hi.
  pose proof (active_mask_fields c) as Hf. cbv zeta in Hf.
  destruct (active_mask_for_this_step c) as [mask c1] eqn:Ham.
  simpl in Hf. destruct Hf as (H1 & H2 & H3 & H4 & H5).
  destruct (pwm_host_set_all_pct _ now sent h) as [[rc h1] out].
  destruct (negb (is_ok rc)).
  - apply step_emit_failed; rewrite ?Ham; simpl; auto.
  - apply step_done; rewrite ?Ham; simpl; auto; try congruence.
    rewrite !(next_pct_at_ext c c1 mask _ H2 H3 H4). reflexivity.
Qed.

(** A channel outside the mask keeps its value. *)
Lemma next_pct_at_inactive c mask i :
  ch_in_mask (Z.of_nat i + 1) mask = false ->
  next_pct_at c mask i = cur_at c i.
Proof. intros H. unfold next_pct_at. rewrite H. reflexivity. Qed.

(** *** Emit failure *)

(** *** Negative requests *)





(** The loop of [pwm_ctrl_set_targets_mask], index by index. *)
Section MaskLoop.
Variables (c : ctrl) (mask : Z) (pct : list Q).



End MaskLoop.







End ShaperFacts.

(* ================================================================== *)
(** ** Invariants of the reachable states *)
(* ================================================================== *)

Module Invariants.
Import Bits BitsFacts Device DeviceFacts Scenario.
(** The receive buffer never holds more than its capacity, whatever
    the engine is asked to do. *)
Lemma run_op_capacity o st st' ev :
  Z.of_nat (length (s_rxbuf st)) <= CFG_PROTO_RX_BUF_CAP ->
  run_op o st = Some (st', ev) ->
  Z.of_nat (length (s_rxbuf st')) <= CFG_PROTO_RX_BUF_CAP.
Proof.
  intros Hcap Hrun. destruct o; simpl in Hrun.
  - injection Hrun as <- <-. unfold CFG_PROTO_RX_BUF_CAP. simpl. lia.
  - injection Hrun as <- <-. apply protocol_feed_bytes_cap, Hcap.
  - injection Hrun as <- <-. unfold protocol_it_process.
    destruct (_ && _); [|exact Hcap].
    apply (protocol_feed_bytes_cap chunk st), Hcap.
  - unfold protocol_process in Hrun.
    destruct (protocol_flag st =? 1); [|injection Hrun as <- <-; exact Hcap].
    destruct (process_rx_buffer_loop_spec (S (length (s_rxbuf st))) st)
      as (st1 & ev1 & Hloop & Hbound & _); [lia|].
    unfold process_rx_buffer in Hrun. rewrite Hloop in Hrun.
    injection Hrun as <- <-. simpl. lia.
  - unfold protocol_poll in Hrun.
    destruct (poll_expired st); injection Hrun as <- <-; exact Hcap.
  - injection Hrun as <- <-. exact Hcap.
  - injection Hrun as <- <-. exact Hcap.
  - injection Hrun as <- <-. exact Hcap.
  - injection Hrun as <- <-. exact Hcap.
Qed.

(** Every call of the engine returns. *)
Lemma run_op_total o st : exists st' ev, run_op o st = Some (st', ev).
Proof.
  destruct o; simpl; try (eexists _, _; reflexivity).
  - unfold protocol_process.
    destruct (protocol_flag st =? 1); [|eexists _, _; reflexivity].
    destruct (process_rx_buffer_loop_total st) as (st1 & ev1 & ->).
    eexists _, _; reflexivity.
  - destruct (protocol_poll st) as [st1 ev1]. eexists _, _; reflexivity.
Qed.

End Invariants.

(* ================================================================== *)
(** ** Progress of a reversal *)
(* ================================================================== *)

(* ================================================================== *)
(** * Specification properties *)
(* ================================================================== *)

Import Bits BitsFacts Crc CrcFacts Device DeviceFacts Scenario.
Import RoundTrip Liveness Failsafe Reassembly Heartbeat.
(* ------------------------------------------------------------------ *)
(** ** Link engine *)
(* ------------------------------------------------------------------ *)

(** C2 (failsafe trigger), as the code has it.  Without wrap-around of
    the millisecond counter: a poll made more than the timeout T after
    the timestamp runs the neutral-output effect once and re-arms the
    timestamp to the current tick; a poll made within T does nothing;
    over an outage polled at any pace, the number of runs of the
    neutral-output effect times (T + 1) is at most the time since the
    last refresh (one run per window of more than T milliseconds, not
    one per outage); and after a drain that dispatched a validated
    COMMAND or HEARTBEAT frame the timestamp is the current tick and
    the next poll does nothing. *)
Theorem C2_failsafe_once_per_window (st : dev) (dts : list Z) :
  0 <= s_last_ok_rx_ms st <= hal_tick st ->
  Forall (fun dt => 0 <= dt) dts ->
  hal_tick st + total_ms dts < 4294967296 ->
  let T := s_failsafe_timeout_ms st in
  (T < hal_tick st - s_last_ok_rx_ms st ->
   protocol_poll st = (set_last_ok (hal_tick st) st, enter_failsafe_mid_all)) /\
  (hal_tick st - s_last_ok_rx_ms st <= T -> protocol_poll st = (st, [])) /\
  Z.of_nat (failsafe_entries (snd (poll_run dts st))) * (T + 1)
    <= hal_tick st + total_ms dts - s_last_ok_rx_ms st /\
  (forall st1 st2 ev,
     protocol_process st1 = Some (st2, ev) ->
     has_live_frame ev = true ->
     0 <= s_failsafe_timeout_ms st1 ->
     s_last_ok_rx_ms st2 = hal_tick st2 /\ protocol_poll st2 = (st2, [])).
Proof.
  intros Hl Hdts Hnowrap T.
  assert (Hsum : 0 <= total_ms dts).
  { clear -Hdts. induction Hdts; unfold total_ms in *; simpl; lia. }
  split; [intros He; apply protocol_poll_fires; lia|].
  split; [intros He; apply protocol_poll_quiet; lia|].
  split.
  - pose proof (poll_run_rate dts st Hdts Hl Hnowrap) as Hr.
    cbv zeta in Hr. destruct Hr as (H1 & H2 & H3 & _). subst T. lia.
  - intros st1 st2 ev Hrun Hlive Hto.
    apply (poll_after_live_frame st1 st2 ev); assumption.
Qed.

(** A fresh engine (timeout 300 ms) polled every 100 ms for a second. *)
Lemma C2_failsafe_once_per_window_witness :
  Z.of_nat (failsafe_entries (snd (poll_run (repeat 100 10) (fresh 0))))
    * (300 + 1) <= 0 + 1000 - 0.
Proof.
  apply (C2_failsafe_once_per_window (fresh 0) (repeat 100 10)).
  - vm_compute. split; discriminate.
  - repeat constructor; lia.
  - vm_compute. reflexivity.
Defined.

(** C2 as stated fails: a fresh engine (timeout 300 ms, timestamp 0)
    receives nothing and is polled every millisecond for 700 ms; the
    neutral-output effect runs twice in that single outage, at ticks
    301 and 602. *)
Lemma C2_failsafe_fires_again :
  let run := poll_run (repeat 1 700) (fresh 0) in
  frames (snd run) = 0%nat /\
  failsafe_entries (snd run) = 2%nat /\
  failsafe_entries (snd run) <> 1%nat /\
  s_last_ok_rx_ms (fst run) = 602.
Proof. vm_compute. repeat split; try reflexivity. discriminate. Qed.

(** C3 (round trip).  For every sequence counter, clock value and eight
    16-bit channel words, [protocol_pack_pwm] with room for 30 bytes
    succeeds, and the device pass over the bytes it wrote accepts them
    as one COMMAND frame (version, length and CRC pass, 30 bytes
    consumed), recovers the sequence number and the timestamp, and
    hands the driver, channel by channel, the duty of the word clamped
    to 0..10000: the decoded words are the input words after the
    clamp. *)
Theorem C3_command_round_trip (s_seq now out_cap : Z) (pwm8 : list Z) (st : dev) :
  length pwm8 = 8%nat ->
  Forall (fun v => 0 <= v < 65536) pwm8 ->
  0 <= s_seq < 65536 -> 0 <= now < 4294967296 -> 30 <= out_cap ->
  exists frame,
    HostPack.protocol_pack_pwm s_seq now pwm8 out_cap
      = (Some frame, u16 (s_seq + 1)) /\
    valid_frame_at frame = true /\
    pwm_words frame = map clamp_10000 pwm8 /\
    try_parse_one_frame (set_rxbuf frame st)
      = mk_ret true 30
          (set_stats (inc_ok (s_stats st))
             (set_last_ok (hal_tick st) (set_rxbuf frame st)))
          (EvFrame MSG_PWM s_seq now (take 16 (drop 12 frame))
           :: map (fun i => EvSetDuty (Z.of_nat i + 1)
                                      (duty_of (clamp_10000 (nth i pwm8 0))))
                  (seq 0 8)).
Proof.
  intros Hlen Hw Hseq Hnow Hcap.
  do 8 (destruct pwm8 as [|? pwm8]; [discriminate Hlen|]).
  destruct pwm8; [|discriminate Hlen].
  apply pack_then_parse; assumption.
Qed.

(** Words below, at and above the clamp, packed and parsed. *)
Lemma C3_command_round_trip_witness :
  exists frame,
    HostPack.protocol_pack_pwm 41 123456
        [0; 5000; 10000; 12000; 65535; 1; 2; 3] 32
      = (Some frame, u16 (41 + 1)) /\
    valid_frame_at frame = true /\
    pwm_words frame
      = map clamp_10000 [0; 5000; 10000; 12000; 65535; 1; 2; 3] /\
    try_parse_one_frame (set_rxbuf frame (fresh 0))
      = mk_ret true 30
          (set_stats (inc_ok (s_stats (fresh 0)))
             (set_last_ok (hal_tick (fresh 0)) (set_rxbuf frame (fresh 0))))
          (EvFrame MSG_PWM 41 123456 (take 16 (drop 12 frame))
           :: map (fun i =>
                     EvSetDuty (Z.of_nat i + 1)
                       (duty_of (clamp_10000
                          (nth i [0; 5000; 10000; 12000; 65535; 1; 2; 3] 0))))
                  (seq 0 8)).
Proof.
  apply (C3_command_round_trip 41 123456 32
           [0; 5000; 10000; 12000; 65535; 1; 2; 3] (fresh 0)).
  - reflexivity.
  - repeat constructor; lia.
  - lia.
  - lia.
  - lia.
Defined.

(** C6 (partial frame), as the code has it.  For every valid frame and
    every split point before its end, fed to an engine whose buffer is
    empty and whose flag is clear: with a drain between the two chunks,
    the first drain decodes no frame and the drain after the second
    chunk decodes exactly one; without a drain between them (and a
    non-empty first chunk) the second chunk is dropped by the
    [protocol_flag] guard and the drain decodes no frame. *)
Theorem C6_split_frame_needs_drain (f : list Z) (k : nat) (st : dev) :
  s_rxbuf st = [] -> protocol_flag st = 0 ->
  is_frame_bytes f = true -> (k < length f)%nat ->
  two_ingests true f k st = Some (0%nat, 1%nat) /\
  ((0 < k)%nat -> two_ingests false f k st = Some (0%nat, 0%nat)).
Proof.
  intros Hempty Hclear Hf Hk.
  destruct (is_frame_bytes_facts f Hf) as (_ & _ & Hlen & _ & _).
  assert (Hfne : f <> []) by (destruct f; [simpl in Hlen; lia | discriminate]).
  assert (Hidle : protocol_process st = Some (st, []))
    by (unfold protocol_process; rewrite Hclear; reflexivity).
  unfold two_ingests.
  destruct k as [|k].
  - (* empty first chunk: the whole frame arrives in the second *)
    split; [|lia].
    rewrite take_0, drop_0.
    assert (protocol_feed_bytes [] st = st) as ->
      by (unfold protocol_feed_bytes; destruct (protocol_flag st =? 0);
          reflexivity).
    rewrite Hidle.
    rewrite protocol_feed_bytes_fits
      by (try assumption; rewrite Hempty; simpl; lia).
    rewrite Hempty. cbn [app].
    set (st3 := set_flag 1 (set_rxbuf f st)).
    destruct (drain_one_frame f st3 Hf eq_refl) as (st4 & ev & Hrun & Hfr & _).
    unfold protocol_process.
    change (protocol_flag st3 =? 1) with true. cbv iota.
    rewrite Hrun, Hfr. reflexivity.
  - set (st1 := set_flag 1 (set_rxbuf (take (S k) f) st)).
    assert (Hfeed1 : protocol_feed_bytes (take (S k) f) st = st1).
    { rewrite protocol_feed_bytes_fits.
      - rewrite Hempty. reflexivity.
      - exact Hclear.
      - destruct f; [congruence | discriminate].
      - rewrite Hempty, length_take. simpl length. lia. }
    rewrite Hfeed1.
    assert (Hproc1 : protocol_process st1 = Some (set_flag 0 st1, [])).
    { apply (protocol_process_prefix f (S k)); try assumption;
        try reflexivity. lia. }
    split.
    + rewrite Hproc1.
      assert (Hfeed2 : protocol_feed_bytes (drop (S k) f) (set_flag 0 st1)
                       = set_flag 1 (set_rxbuf f (set_flag 0 st1))).
      { rewrite protocol_feed_bytes_fits.
        - simpl. rewrite take_drop. reflexivity.
        - reflexivity.
        - intros E. apply (f_equal length) in E.
          rewrite length_drop in E. simpl in E. lia.
        - change (s_rxbuf (set_flag 0 st1)) with (take (S k) f).
          rewrite length_take, length_drop. lia. }
      rewrite Hfeed2.
      set (st3 := set_flag 1 (set_rxbuf f (set_flag 0 st1))).
      destruct (drain_one_frame f st3 Hf eq_refl) as (st4 & ev & Hrun & Hfr & _).
      unfold protocol_process at 1.
      change (protocol_flag st3 =? 1) with true. cbv iota.
      rewrite Hrun, Hfr. reflexivity.
    + intros _.
      rewrite protocol_feed_bytes_busy by (simpl; lia).
      rewrite Hproc1. reflexivity.
Qed.

(** The heartbeat of the host packer, split after 7 of its 14 bytes,
    on a freshly initialised engine. *)
Lemma C6_split_frame_needs_drain_witness :
  two_ingests true hb_example 7 (fresh 0) = Some (0%nat, 1%nat) /\
  ((0 < 7)%nat -> two_ingests false hb_example 7 (fresh 0) = Some (0%nat, 0%nat)).
Proof.
  apply (C6_split_frame_needs_drain hb_example 7 (fresh 0)).
  - reflexivity.
  - reflexivity.
  - vm_compute. reflexivity.
  - vm_compute. lia.
Defined.

(** C6 as stated fails: the valid heartbeat [hb_example] is fed as
    bytes 0..6 and then bytes 7..13 with no drain in between; the
    drain that follows decodes no frame. *)
Lemma C6_second_chunk_dropped :
  is_frame_bytes hb_example = true /\
  two_ingests false hb_example 7 (fresh 0) = Some (0%nat, 0%nat) /\
  two_ingests false hb_example 7 (fresh 0) <> Some (0%nat, 1%nat).
Proof. vm_compute. repeat split; try reflexivity. discriminate. Qed.

(** C7 (liveness timestamp), as the code has it.  For every call of the
    engine, [s_last_ok_rx_ms] afterwards is the current tick if the
    call was a drain that dispatched a validated COMMAND or HEARTBEAT
    frame, a [protocol_poll] whose timeout test fired, or
    [protocol_init]; otherwise it is unchanged.  In one pass of the
    parser the frame that refreshes it is one that passed every check
    and whose kind is COMMAND or HEARTBEAT; HEARTBEAT_ACK and any other
    kind leave it alone. *)
Theorem C7_timestamp_writers (o : op) (st st' : dev) (ev : list event) :
  run_op o st = Some (st', ev) ->
  s_last_ok_rx_ms st'
    = (if refreshes o st ev then HAL_GetTick st else s_last_ok_rx_ms st) /\
  (forall s,
     let r := try_parse_one_frame s in
     has_live_frame (evs r)
       = valid_frame_at (s_rxbuf s)
         && ((byte_at (s_rxbuf s) 3 =? MSG_PWM)
             || (byte_at (s_rxbuf s) 3 =? MSG_HB)) /\
     s_last_ok_rx_ms (st_after r)
       = (if has_live_frame (evs r) then HAL_GetTick s else s_last_ok_rx_ms s)).
Proof.
  intros Hrun. split; [apply (run_op_last_ok o st st' ev Hrun)|].
  intros s. cbv zeta. split; [apply try_parse_live_frame|].
  apply (try_parse_last_ok s).
Qed.

(** A drain of the host's heartbeat at tick 40. *)
Lemma C7_timestamp_writers_witness :
  exists st' ev,
    run_op OpProcess (protocol_feed_bytes hb_example (advance 40 (fresh 0)))
      = Some (st', ev) /\
    s_last_ok_rx_ms st' = 40.
Proof.
  destruct (run_op OpProcess
              (protocol_feed_bytes hb_example (advance 40 (fresh 0))))
    as [[st' ev]|] eqn:Hrun; [|vm_compute in Hrun; discriminate].
  exists st', ev. split; [reflexivity|].
  destruct (C7_timestamp_writers OpProcess _ st' ev Hrun) as [H _].
  rewrite H. vm_compute in Hrun. injection Hrun as <- <-. reflexivity.
Defined.

(** C7 as stated fails: on a fresh engine (timestamp 0, timeout 300)
    that received nothing, [protocol_poll] at tick 301 writes the
    timestamp although no frame was dispatched. *)
Lemma C7_poll_writes_timestamp :
  let st := advance 301 (fresh 0) in
  let r := protocol_poll st in
  s_last_ok_rx_ms st = 0 /\
  frames (snd r) = 0%nat /\
  s_last_ok_rx_ms (fst r) = 301.
Proof. vm_compute. repeat split; reflexivity. Qed.

(** C8 (resync progress).  Whatever the receive buffer holds, within
    its 512-byte capacity: a chunk fed to [protocol_feed_bytes] leaves
    the occupancy within the capacity, and one drain
    ([process_rx_buffer]) leaves its loop, after at most 512 discard
    steps, with the occupancy no larger than before; if no offset of the
    buffer starts a valid frame (pure noise), the drain decodes no
    frame. *)
Theorem C8_resync_progress (st : dev) :
  Z.of_nat (length (s_rxbuf st)) <= CFG_PROTO_RX_BUF_CAP ->
  (forall data,
     Z.of_nat (length (s_rxbuf (protocol_feed_bytes data st)))
       <= CFG_PROTO_RX_BUF_CAP) /\
  exists st' ev,
    process_rx_buffer st = Some (st', ev) /\
    Z.of_nat (discards ev) <= CFG_PROTO_RX_BUF_CAP /\
    (length (s_rxbuf st') <= length (s_rxbuf st))%nat /\
    (no_frame_in (s_rxbuf st) = true -> frames ev = 0%nat).
Proof.
  intros Hcap. split.
  - intros data. apply protocol_feed_bytes_cap, Hcap.
  - destruct (process_rx_buffer_loop_spec (S (length (s_rxbuf st))) st)
      as (st' & ev & Hrun & Hbound & Hnoise); [lia|].
    exists st', ev. split; [exact Hrun|].
    split; [lia|]. split; [lia|].
    intros Hn. apply Hnoise, no_frame_in_spec, Hn.
Qed.

(** Sixty bytes of noise fed to a fresh engine and drained. *)
Lemma C8_resync_progress_witness :
  let st := protocol_feed_bytes noise60 (fresh 0) in
  no_frame_in (s_rxbuf st) = true /\
  exists st' ev,
    process_rx_buffer st = Some (st', ev) /\
    Z.of_nat (discards ev) <= CFG_PROTO_RX_BUF_CAP /\
    (length (s_rxbuf st') <= length (s_rxbuf st))%nat /\
    (no_frame_in (s_rxbuf st) = true -> frames ev = 0%nat).
Proof.
  split; [vm_compute; reflexivity|].
  apply (C8_resync_progress (protocol_feed_bytes noise60 (fresh 0))).
  vm_compute. discriminate.
Defined.

(** C9 (heartbeat acknowledgement), as the code has it.  For every
    valid HEARTBEAT frame at the head of the buffer, the pass sends
    exactly one frame on the UART: a valid HEARTBEAT_ACK of length 0
    whose sequence field is the sequence number of the heartbeat and
    whose timestamp field is the device's own [HAL_GetTick] value, not
    the timestamp of the heartbeat. *)
Theorem C9_heartbeat_ack_fields (st : dev) :
  valid_frame_at (s_rxbuf st) = true ->
  byte_at (s_rxbuf st) 3 = MSG_HB ->
  0 <= hal_tick st < 4294967296 ->
  let buf := s_rxbuf st in
  let ack := hb_ack_frame (be16_read buf 4) (hal_tick st) in
  uart_frames (evs (try_parse_one_frame st)) = [ack] /\
  is_frame_bytes ack = true /\
  byte_at ack 3 = MSG_HB_ACK /\
  be16_read ack 10 = 0 /\
  be16_read ack 4 = be16_read buf 4 /\
  be32_read ack 6 = hal_tick st /\
  take 4 (drop 6 ack) = be32_write (hal_tick st).
Proof.
  intros Hv Hmsg Htick buf ack.
  pose proof (try_parse_heartbeat st Hv Hmsg) as Hp. cbv zeta in Hp.
  destruct (hb_ack_fields (be16_read buf 4) (hal_tick st)
              (be16_read_range buf 4) Htick) as (H3 & H4 & H6 & Hb & Hl & Hf).
  split; [rewrite Hp; reflexivity|].
  repeat split; assumption.
Qed.

(** The host's heartbeat (sequence 7, host tick 0x01020304) received
    at device tick 5000. *)
Lemma C9_heartbeat_ack_fields_witness :
  let st := set_rxbuf hb_example (advance 5000 (fresh 0)) in
  let ack := hb_ack_frame (be16_read hb_example 4) 5000 in
  uart_frames (evs (try_parse_one_frame st)) = [ack] /\
  is_frame_bytes ack = true /\
  byte_at ack 3 = MSG_HB_ACK /\
  be16_read ack 10 = 0 /\
  be16_read ack 4 = be16_read hb_example 4 /\
  be32_read ack 6 = 5000 /\
  take 4 (drop 6 ack) = be32_write 5000.
Proof.
  apply (C9_heartbeat_ack_fields (set_rxbuf hb_example (advance 5000 (fresh 0)))).
  - vm_compute. reflexivity.
  - vm_compute. reflexivity.
  - vm_compute. split; [discriminate | reflexivity].
Defined.

(** C9 as stated fails: the host's heartbeat carries timestamp bytes
    01 02 03 04; received at device tick 5000 it is answered by an
    acknowledgement whose timestamp bytes are 00 00 13 88. *)
Lemma C9_ack_timestamp_is_device_tick :
  let st := set_rxbuf hb_example (advance 5000 (fresh 0)) in
  valid_frame_at (s_rxbuf st) = true /\
  byte_at (s_rxbuf st) 3 = MSG_HB /\
  take 4 (drop 6 (s_rxbuf st)) = [1; 2; 3; 4] /\
  map (fun ack => take 4 (drop 6 ack))
      (uart_frames (evs (try_parse_one_frame st))) = [[0; 0; 0x13; 0x88]] /\
  map (fun ack => take 4 (drop 6 ack))
      (uart_frames (evs (try_parse_one_frame st)))
    <> [take 4 (drop 6 (s_rxbuf st))].
Proof. vm_compute. repeat split; try reflexivity. discriminate. Qed.

(* ------------------------------------------------------------------ *)
(** ** Command shaper *)
(* ------------------------------------------------------------------ *)

Import PwmHost PwmCtrl ShaperFacts.
(** C5 (emit failure), at the failing input.  A/B alternation with the
    default groups, toggle at A, channels at 10 % with targets at 5 %;
    [sendto] fails on the first call and succeeds on the retry.  The
    first call returns [PWM_CTRL_ERR_INTERNAL] and leaves the current
    values and the step counter alone, but it has flipped the toggle:
    the frame of the failed attempt moves channels 1-4, the frame of
    the retry moves channels 5-8. *)
Theorem C5_emit_failure_flips_group :
  let c0 := shaper_at cfg_alternate 10 5 in
  let r1 := pwm_ctrl_step 0 (-1) c0 host0 in
  let c1 := snd (fst (fst r1)) in
  let r2 := pwm_ctrl_step 0 30 c1 (snd (fst r1)) in
  fst (fst (fst r1)) = PWM_CTRL_ERR_INTERNAL /\
  s_current_pct c1 = s_current_pct c0 /\
  s_step_count c1 = s_step_count c0 /\
  s_group_toggle c0 = 0 /\ s_group_toggle c1 = 1 /\
  fst (active_mask_for_this_step c0) = PWM_CH_MASK_1_4 /\
  fst (active_mask_for_this_step c1) = PWM_CH_MASK_5_8 /\
  fst (fst (fst r2)) = PWM_CTRL_OK /\
  map Device.pwm_words (snd r1)
    = [[9600; 9600; 9600; 9600; 10000; 10000; 10000; 10000]] /\
  map Device.pwm_words (snd r2)
    = [[10000; 10000; 10000; 10000; 9600; 9600; 9600; 9600]].
Proof. vm_compute. repeat split; reflexivity. Qed.




(* ================================================================== *)
(** * Further properties of the code *)
(* ================================================================== *)

(* ================================================================== *)
(** ** Streams of frames through the device parser *)
(* ================================================================== *)

Module StreamFacts.
Import Bits BitsFacts Crc CrcFacts Device DeviceFacts Scenario.
Import Liveness Reassembly Stream.
Lemma byte_at_app_l (f rest : list Z) (i : nat) :
  (i < length f)%nat -> byte_at (f ++ rest) i = byte_at f i.
Proof. intros H. unfold byte_at. apply app_nth1. exact H. Qed.

Lemma be16_read_app_l (f rest : list Z) (off : nat) :
  (off + 1 < length f)%nat -> be16_read (f ++ rest) off = be16_read f off.
Proof.
  intros H. unfold be16_read. rewrite !byte_at_app_l by lia. reflexivity.
Qed.

Lemma be32_read_app_l (f rest : list Z) (off : nat) :
  (off + 3 < length f)%nat -> be32_read (f ++ rest) off = be32_read f off.
Proof.
  intros H. unfold be32_read. rewrite !byte_at_app_l by lia. reflexivity.
Qed.

Lemma take_drop_app_l (f rest : list Z) (n k : nat) :
  (k + n <= length f)%nat ->
  take n (drop k (f ++ rest)) = take n (drop k f).
Proof.
  intros H. rewrite drop_app_le by lia.
  rewrite take_app_le by (rewrite length_drop; lia). reflexivity.
Qed.

(** A frame followed by anything is still a frame at offset 0, with
    the same header fields. *)
Lemma frame_then_rest (f rest : list Z) :
  is_frame_bytes f = true ->
  valid_frame_at (f ++ rest) = true /\
  declared_frame_len (f ++ rest) = Z.of_nat (length f) /\
  byte_at (f ++ rest) 3 = byte_at f 3 /\
  be16_read (f ++ rest) 4 = be16_read f 4 /\
  be32_read (f ++ rest) 6 = be32_read f 6 /\
  be16_read (f ++ rest) 10 = be16_read f 10 /\
  take (Z.to_nat (be16_read f 10)) (drop 12 (f ++ rest))
    = take (Z.to_nat (be16_read f 10)) (drop 12 f).
Proof.
  intros Hf.
  destruct (is_frame_bytes_facts f Hf) as (Hv & Hd & Hlen & Hsof & Hver).
  assert (H10 : be16_read (f ++ rest) 10 = be16_read f 10)
    by (apply be16_read_app_l; lia).
  assert (Hdl : declared_frame_len (f ++ rest) = Z.of_nat (length f))
    by (unfold declared_frame_len in *; rewrite H10; exact Hd).
  pose proof (be16_read_range f 10) as Hr.
  unfold declared_frame_len, HEADER_TOTAL_LEN, SOF_LEN, HEADER_REST_LEN,
    CRC_LEN in Hd.
  split; [|repeat split].
  - unfold valid_frame_at in *. rewrite Hdl, H10.
    rewrite !byte_at_app_l by lia.
    repeat (apply andb_true_iff in Hv; destruct Hv as [Hv ?]).
    rewrite take_drop_app_l by (rewrite u16_small by lia; lia).
    rewrite (be16_read_app_l f rest) by lia.
    rewrite length_app.
    repeat (apply andb_true_iff; split); try assumption.
    + apply Z.leb_le. unfold MIN_FRAME_LEN, HEADER_TOTAL_LEN, SOF_LEN,
        HEADER_REST_LEN, CRC_LEN. lia.
    + apply Z.leb_le. unfold CFG_PROTO_RX_BUF_CAP. lia.
    + apply Z.leb_le. lia.
  - exact Hdl.
  - apply byte_at_app_l. lia.
  - apply be16_read_app_l. lia.
  - apply be32_read_app_l. lia.
  - exact H10.
  - apply take_drop_app_l. lia.
Qed.

(** The handlers read the payload of the frame at offset 0 only. *)
Lemma dispatch_app_l (f rest : list Z) msg sq ticks (st : dev) :
  (28 <= length f)%nat \/ be16_read f 10 <> 16 ->
  dispatch (f ++ rest) msg sq ticks (be16_read f 10) st
  = dispatch f msg sq ticks (be16_read f 10) st.
Proof.
  intros H. unfold dispatch, handle_msg_pwm.
  destruct (msg =? MSG_PWM); [|reflexivity].
  destruct (be16_read f 10 =? 16) eqn:E; cbn [negb]; [|reflexivity].
  apply Z.eqb_eq in E. destruct H as [H|H]; [|congruence].
  assert (Hm : map (fun i => EvSetDuty (Z.of_nat i + 1)
                               (duty_of (pwm_word (f ++ rest) i))) (seq 0 8)
               = map (fun i => EvSetDuty (Z.of_nat i + 1)
                                 (duty_of (pwm_word f i))) (seq 0 8)).
  { apply map_ext_in. intros i Hi. apply in_seq in Hi.
    unfold pwm_word. rewrite be16_read_app_l by lia. reflexivity. }
  rewrite Hm. reflexivity.
Qed.

(** One pass over a buffer that starts with a whole frame. *)
Lemma try_parse_head (f rest : list Z) (st : dev) :
  is_frame_bytes f = true ->
  s_rxbuf st = f ++ rest ->
  try_parse_one_frame st =
    let d := dispatch f (byte_at f 3) (be16_read f 4) (be32_read f 6)
                      (be16_read f 10) st in
    mk_ret true (Z.of_nat (length f)) (fst d) (frame_event f :: snd d).
Proof.
  intros Hf Hbuf.
  destruct (frame_then_rest f rest Hf) as (Hv & Hd & H3 & H4 & H6 & H10 & Hp).
  destruct (is_frame_bytes_facts f Hf) as (_ & Hdf & Hlen & _ & _).
  rewrite try_parse_valid by (rewrite Hbuf; exact Hv).
  cbv zeta. rewrite Hbuf, Hd, H3, H4, H6, H10, Hp.
  rewrite dispatch_app_l; [reflexivity|].
  unfold declared_frame_len, HEADER_TOTAL_LEN, SOF_LEN, HEADER_REST_LEN,
    CRC_LEN in Hdf.
  destruct (Z.eq_dec (be16_read f 10) 16); [left; lia | right; assumption].
Qed.

(** What [dispatch] does to the counters. *)
Lemma dispatch_stats buf msg seq ticks len st :
  let s := s_stats st in
  s_stats (fst (dispatch buf msg seq ticks len st))
  = if msg =? MSG_PWM then
      if len =? 16 then inc_ok s else inc_ok (inc_len_err s)
    else if msg =? MSG_HB then inc_ok s
    else inc_unsupported s.
Proof.
  unfold dispatch, handle_msg_pwm, handle_msg_hb. cbv zeta.
  destruct (msg =? MSG_PWM).
  - destruct (len =? 16); reflexivity.
  - destruct (msg =? MSG_HB); [reflexivity|].
    destruct (msg =? MSG_HB_ACK); reflexivity.
Qed.

(** The scan over bytes that are not a start marker's first byte. *)
Lemma sof_scan_garbage (g tail : list Z) :
  Forall (fun b => b <> SOF_B0) g ->
  (byte_at tail 0 =? SOF_B0) && (byte_at tail 1 =? SOF_B1) = true ->
  sof_scan (g ++ tail) = length g.
Proof.
  intros Hg Ht. induction Hg as [|b g Hb Hg IH].
  - destruct tail as [|b0 [|b1 tl]]; try discriminate Ht.
    + unfold byte_at in Ht. simpl in Ht.
      apply andb_true_iff in Ht. destruct Ht as [_ Ht]. discriminate.
    + apply (proj2 (sof_scan_zero b0 b1 tl)). exact Ht.
  - assert (Hlen : (2 <= length (g ++ tail))%nat).
    { rewrite length_app. destruct tail as [|b0 [|b1 tl]]; simpl.
      - discriminate.
      - unfold byte_at in Ht. simpl in Ht.
        apply andb_true_iff in Ht. destruct Ht as [_ Ht]. discriminate.
      - lia. }
    cbn [app length].
    destruct (g ++ tail) as [|c rest] eqn:E; [simpl in Hlen; lia|].
    change (sof_scan (b :: c :: rest))
      with (if (b =? SOF_B0) && (c =? SOF_B1) then 0%nat
            else S (sof_scan (c :: rest))).
    assert ((b =? SOF_B0) = false) as -> by (apply Z.eqb_neq; exact Hb).
    cbn [andb]. rewrite IH. reflexivity.
Qed.

(** The calls of [dispatch] depend on the state through the tick only. *)
Lemma dispatch_effects (f : list Z) (st : dev) :
  snd (dispatch f (byte_at f 3) (be16_read f 4) (be32_read f 6)
                (be16_read f 10) st)
  = frame_effects (hal_tick st) f.
Proof.
  unfold dispatch, handle_msg_pwm, handle_msg_hb, frame_effects.
  destruct (byte_at f 3 =? MSG_PWM).
  - destruct (be16_read f 10 =? 16); reflexivity.
  - destruct (byte_at f 3 =? MSG_HB); [reflexivity|].
    destruct (byte_at f 3 =? MSG_HB_ACK); reflexivity.
Qed.

Lemma frame_trace_markers tick f :
  frame_events (frame_trace tick f) = [frame_event f] /\
  discards (frame_trace tick f) = 0%nat.
Proof.
  unfold frame_trace, frame_events, discards, frame_effects.
  cbn [List.filter is_frame is_discard frame_event].
  destruct (byte_at f 3 =? MSG_PWM).
  - destruct (be16_read f 10 =? 16); split; reflexivity.
  - destruct (byte_at f 3 =? MSG_HB); split; reflexivity.
Qed.

Lemma u32_succ_add (x n : Z) : u32 (u32 (x + 1) + n) = u32 (x + (1 + n)).
Proof.
  unfold u32. rewrite Zplus_mod_idemp_l. f_equal. lia.
Qed.

(** The drain over a buffer that is a run of whole frames. *)
Lemma drain_frames (fs : list (list Z)) : forall (st : dev) (fuel : nat),
  Forall (fun f => is_frame_bytes f = true) fs ->
  s_rxbuf st = concat fs ->
  (length (concat fs) < fuel)%nat ->
  0 <= rx_ok (s_stats st) < 4294967296 ->
  exists st' ev,
    process_rx_buffer_loop fuel st = Some (st', ev) /\
    ev = flat_map (frame_trace (hal_tick st)) fs /\
    s_rxbuf st' = [] /\
    rx_ok (s_stats st') = u32 (rx_ok (s_stats st) + live_count fs).
Proof.
  induction fs as [|f fs IH]; intros st fuel Hfs Hbuf Hfuel Hok.
  - destruct fuel as [|fuel]; [simpl in Hfuel; lia|].
    simpl in Hbuf. cbn [process_rx_buffer_loop].
    unfold try_parse_one_frame, s_rxlen. rewrite Hbuf. cbn.
    exists st, []. repeat split; try assumption.
    unfold live_count. cbn. rewrite Z.add_0_r, u32_small by lia. reflexivity.
  - destruct fuel as [|fuel]; [lia|].
    inversion Hfs as [|? ? Hf Hrest]; subst.
    destruct (is_frame_bytes_facts f Hf) as (_ & _ & Hlen & _ & _).
    cbn [concat] in Hbuf, Hfuel. rewrite length_app in Hfuel.
    cbn [process_rx_buffer_loop].
    rewrite (try_parse_head f (concat fs) st Hf Hbuf). cbv zeta.
    cbn [ret consumed st_after evs negb].
    assert ((0 <? Z.of_nat (length f)) = true) as -> by (apply Z.ltb_lt; lia).
    set (d := dispatch f (byte_at f 3) (be16_read f 4) (be32_read f 6)
                       (be16_read f 10) st).
    pose proof (dispatch_rxbuf f (byte_at f 3) (be16_read f 4) (be32_read f 6)
                  (be16_read f 10) st) as Hdb. fold d in Hdb.
    pose proof (dispatch_last_ok f (byte_at f 3) (be16_read f 4)
                  (be32_read f 6) (be16_read f 10) st) as Hdl.
    cbv zeta in Hdl. fold d in Hdl. destruct Hdl as (_ & _ & Htick & _ & _).
    pose proof (dispatch_stats f (byte_at f 3) (be16_read f 4) (be32_read f 6)
                  (be16_read f 10) st) as Hds. cbv zeta in Hds. fold d in Hds.
    pose proof (dispatch_effects f st) as Hde. fold d in Hde.
    rewrite Hdb, Hbuf, Nat2Z.id, drop_app_length.
    set (st2 := set_rxbuf (concat fs) (fst d)).
    assert (Hok2 : rx_ok (s_stats st2)
                   = if is_live f then u32 (rx_ok (s_stats st) + 1)
                     else rx_ok (s_stats st)).
    { unfold st2. cbn [set_rxbuf s_stats]. rewrite Hds. unfold is_live.
      destruct (byte_at f 3 =? MSG_PWM).
      - destruct (be16_read f 10 =? 16); reflexivity.
      - destruct (byte_at f 3 =? MSG_HB); reflexivity. }
    destruct (IH st2 fuel Hrest) as (st' & ev & Hrun & Hev & Hempty & Hcount).
    + reflexivity.
    + lia.
    + rewrite Hok2. destruct (is_live f); [apply u32_range | exact Hok].
    + rewrite Hrun. exists st', (frame_event f :: snd d ++ ev).
      split; [reflexivity|]. split; [|split; [exact Hempty|]].
      * cbn [flat_map]. unfold frame_trace at 1. cbn [app].
        rewrite Hde, Hev. unfold st2. cbn [set_rxbuf hal_tick].
        rewrite Htick. reflexivity.
      * rewrite Hcount, Hok2. unfold live_count. cbn [List.filter].
        destruct (is_live f); cbn [length].
        -- rewrite u32_succ_add. f_equal. lia.
        -- reflexivity.
Qed.

(** One pass and [rx_ok]: it grows by one exactly when the pass
    dispatched a COMMAND or HEARTBEAT frame. *)
Lemma try_parse_rx_ok st :
  let r := try_parse_one_frame st in
  (live_markers (evs r) <= 1)%nat /\
  rx_ok (s_stats (st_after r))
  = if Nat.eqb (live_markers (evs r)) 0 then rx_ok (s_stats st)
    else u32 (rx_ok (s_stats st) + 1).
Proof.
  unfold try_parse_one_frame. cbv zeta.
  destruct (s_rxlen st <? 1); [split; [cbn; lia | reflexivity]|].
  destruct (0 <? Z.of_nat (sof_scan (s_rxbuf st)));
    [split; [cbn; lia | reflexivity]|].
  destruct (s_rxlen st <? MIN_FRAME_LEN); [split; [cbn; lia | reflexivity]|].
  destruct (negb (byte_at (s_rxbuf st) 2 =? PROTO_VER_1));
    [split; [cbn; lia | reflexivity]|].
  destruct (CFG_PROTO_RX_BUF_CAP <? _); [split; [cbn; lia | reflexivity]|].
  destruct (s_rxlen st <? _); [split; [cbn; lia | reflexivity]|].
  destruct (negb (_ =? _)); [split; [cbn; lia | reflexivity]|].
  match goal with
  | |- context [dispatch ?b ?m ?s ?t ?l ?st0] =>
      pose proof (dispatch_last_ok b m s t l st0) as Hd;
      pose proof (dispatch_stats b m s t l st0) as Hs;
      destruct (dispatch b m s t l st0) as [st1 ev]
  end.
  cbv zeta in Hd, Hs. cbn [fst snd] in Hd, Hs.
  destruct Hd as (_ & Hno & _).
  cbn [evs st_after]. unfold live_markers. cbn [List.filter is_live_frame].
  unfold has_live_frame in Hno.
  assert (Hnil : List.filter is_live_frame ev = []).
  { clear -Hno. induction ev as [|e ev IH]; [reflexivity|].
    cbn [existsb] in Hno. apply orb_false_iff in Hno. destruct Hno as [He Hr].
    cbn [List.filter]. rewrite He. apply IH. exact Hr. }
  rewrite Hs, Hnil.
  destruct (byte_at (s_rxbuf st) 3 =? MSG_PWM); cbn [orb length Nat.eqb].
  - split; [lia|]. destruct (_ =? 16); reflexivity.
  - destruct (byte_at (s_rxbuf st) 3 =? MSG_HB); cbn [length Nat.eqb];
      split; try lia; reflexivity.
Qed.

Lemma live_markers_app e1 e2 :
  live_markers (e1 ++ e2) = (live_markers e1 + live_markers e2)%nat.
Proof. unfold live_markers. rewrite List.filter_app, length_app. reflexivity. Qed.

(** The drain and [rx_ok]. *)
Lemma process_rx_buffer_loop_rx_ok fuel : forall st st' ev,
  process_rx_buffer_loop fuel st = Some (st', ev) ->
  0 <= rx_ok (s_stats st) < 4294967296 ->
  rx_ok (s_stats st') = u32 (rx_ok (s_stats st) + Z.of_nat (live_markers ev)).
Proof.
  induction fuel as [|fuel IH]; intros st st' ev Hrun Hok; [discriminate|].
  simpl in Hrun.
  pose proof (try_parse_rx_ok st) as Hp. cbv zeta in Hp.
  destruct Hp as (Hle & Hp).
  set (r := try_parse_one_frame st) in *.
  assert (Hok1 : 0 <= rx_ok (s_stats (st_after r)) < 4294967296).
  { rewrite Hp. destruct (Nat.eqb _ 0); [exact Hok | apply u32_range]. }
  assert (Hstep : rx_ok (s_stats (st_after r))
                  = u32 (rx_ok (s_stats st) + Z.of_nat (live_markers (evs r)))).
  { rewrite Hp. destruct (live_markers (evs r)) as [|[|n]]; [| |lia].
    - cbn [Nat.eqb]. rewrite Z.add_0_r, u32_small by lia. reflexivity.
    - reflexivity. }
  destruct (ret r); simpl in Hrun.
  - match type of Hrun with
    | match process_rx_buffer_loop fuel ?s with _ => _ end = _ =>
        destruct (process_rx_buffer_loop fuel s) as [[st3 ev3]|] eqn:Hrec;
          [|discriminate];
        assert (Hs : s_stats s = s_stats (st_after r))
          by (destruct (0 <? consumed r); reflexivity)
    end.
    injection Hrun as <- <-.
    apply IH in Hrec; [|rewrite Hs; exact Hok1].
    rewrite Hrec, Hs, Hstep, live_markers_app.
    unfold u32. rewrite Zplus_mod_idemp_l. f_equal. lia.
  - injection Hrun as <- <-. exact Hstep.
Qed.

Lemma frame_trace_live tick f :
  has_live_frame (frame_trace tick f) = is_live f.
Proof.
  unfold frame_trace, has_live_frame, frame_effects, is_live.
  cbn [existsb is_live_frame frame_event].
  destruct (byte_at f 3 =? MSG_PWM); cbn [orb].
  - destruct (be16_read f 10 =? 16); reflexivity.
  - destruct (byte_at f 3 =? MSG_HB); reflexivity.
Qed.

(** One whole frame fed to an idle engine with an empty buffer, then
    drained. *)
Lemma feed_drain_one (f : list Z) (st : dev) :
  is_frame_bytes f = true ->
  s_rxbuf st = [] -> protocol_flag st = 0 ->
  exists st',
    protocol_process (protocol_feed_bytes f st)
    = Some (st', frame_trace (hal_tick st) f) /\
    s_rxbuf st' = [] /\ protocol_flag st' = 0 /\
    hal_tick st' = hal_tick st /\
    s_last_ok_rx_ms st'
    = (if is_live f then hal_tick st else s_last_ok_rx_ms st).
Proof.
  intros Hf Hempty Hflag.
  destruct (is_frame_bytes_facts f Hf) as (_ & _ & Hlen & _ & _).
  rewrite protocol_feed_bytes_fits; try assumption.
  2:{ destruct f; [simpl in Hlen; lia | discriminate]. }
  2:{ rewrite Hempty. change (length (@nil Z)) with 0%nat. lia. }
  rewrite Hempty. cbn [app].
  set (st0 := set_flag 1 (set_rxbuf f st)).
  unfold protocol_process.
  change (protocol_flag st0 =? 1) with true. cbv iota.
  unfold process_rx_buffer.
  destruct (process_rx_buffer_loop_total st0) as (st1 & ev & Hrun).
  unfold process_rx_buffer in Hrun. rewrite Hrun.
  change (s_rxbuf st0) with f in Hrun.
  pose proof (try_parse_head f [] st0 Hf (eq_sym (app_nil_r f))) as Hpass.
  cbv zeta in Hpass.
  replace (S (length f)) with (S (S (length f - 1))) in Hrun by lia.
  cbn [process_rx_buffer_loop] in Hrun. rewrite Hpass in Hrun.
  cbn [ret negb consumed st_after evs] in Hrun.
  assert ((0 <? Z.of_nat (length f)) = true) as E by (apply Z.ltb_lt; lia).
  rewrite E in Hrun.
  rewrite dispatch_rxbuf in Hrun. change (s_rxbuf st0) with f in Hrun.
  rewrite Nat2Z.id, drop_all in Hrun.
  match type of Hrun with
  | context [try_parse_one_frame ?s] =>
      assert (Hstop : try_parse_one_frame s = mk_ret false 0 s [])
        by reflexivity
  end.
  rewrite Hstop in Hrun. cbn [ret negb st_after evs] in Hrun.
  injection Hrun as <- <-.
  rewrite app_nil_r in *.
  rewrite dispatch_effects. change (hal_tick st0) with (hal_tick st).
  eexists. split; [reflexivity|].
  cbn [set_flag s_rxbuf protocol_flag hal_tick s_last_ok_rx_ms set_rxbuf].
  pose proof (dispatch_last_ok f (byte_at f 3) (be16_read f 4) (be32_read f 6)
                (be16_read f 10) st0) as Hd.
  cbv zeta in Hd. destruct Hd as (Hlast & _ & Htick & _ & _).
  repeat split.
  - exact Htick.
  - rewrite Hlast. reflexivity.
Qed.

End StreamFacts.

(* ================================================================== *)
(** ** Frames on the wire *)
(* ================================================================== *)

Module WireFacts.
Import Bits BitsFacts Crc CrcFacts Device DeviceFacts.
Import Reassembly Stream StreamFacts Wire.
Section Fields.
Variables (msg seq ticks : Z) (payload : list Z).
Hypothesis Hseq : 0 <= seq < 65536.
Hypothesis Hticks : 0 <= ticks < 4294967296.
Hypothesis Hlen : (length payload <= 498)%nat.

Let len := Z.of_nat (length payload).
Let body := [PROTO_VER_1; msg] ++ be16_write seq ++ be32_write ticks
            ++ be16_write len ++ payload.
Let f := wire_frame msg seq ticks payload.

Lemma wire_frame_length : length f = (14 + length payload)%nat.
Proof.
  clear Hseq Hticks Hlen. unfold f, wire_frame. rewrite !length_app. cbn [length be16_write be32_write].
  lia.
Qed.

Lemma wire_frame_msg : byte_at f 3 = msg.
Proof. reflexivity. Qed.

Lemma wire_frame_seq : be16_read f 4 = seq.
Proof.
  apply (be16_read_write seq [SOF_B0; SOF_B1; PROTO_VER_1; msg]). exact Hseq.
Qed.

Lemma wire_frame_ticks : be32_read f 6 = ticks.
Proof.
  apply (be32_read_write ticks
           ([SOF_B0; SOF_B1; PROTO_VER_1; msg] ++ be16_write seq)).
  exact Hticks.
Qed.

Lemma wire_frame_len : be16_read f 10 = len.
Proof.
  apply (be16_read_write len
           ([SOF_B0; SOF_B1; PROTO_VER_1; msg] ++ be16_write seq
            ++ be32_write ticks)).
  unfold len. lia.
Qed.

Lemma wire_frame_body : take (10 + length payload) (drop 2 f) = body.
Proof.
  clear Hseq Hticks Hlen. unfold f, wire_frame. fold len. fold body.
  change (drop 2 ([SOF_B0; SOF_B1] ++ body ++ be16_write (crc16_ccitt body)))
    with (body ++ be16_write (crc16_ccitt body)).
  rewrite take_app_length'; [reflexivity|].
  unfold body. rewrite !length_app. cbn [length be16_write be32_write]. lia.
Qed.

Lemma wire_frame_payload : take (length payload) (drop 12 f) = payload.
Proof.
  unfold f, wire_frame. fold len.
  change (drop 12 _) with (payload ++ be16_write (crc16_ccitt body)).
  apply take_app_length.
Qed.

Lemma wire_frame_crc : be16_read f (12 + length payload) = crc16_ccitt body.
Proof.
  unfold f, wire_frame. fold len. fold body.
  replace (12 + length payload)%nat with (length ([SOF_B0; SOF_B1] ++ body)).
  - rewrite app_assoc.
    rewrite <- (app_nil_r (be16_write (crc16_ccitt body))).
    apply be16_read_write. apply crc16_ccitt_range.
  - unfold body. rewrite !length_app. cbn [length be16_write be32_write]. lia.
Qed.

(** A frame laid out this way passes every test of the device. *)
Lemma wire_frame_is_frame : is_frame_bytes f = true.
Proof.
  unfold is_frame_bytes, valid_frame_at, declared_frame_len.
  rewrite wire_frame_len, wire_frame_length.
  unfold MIN_FRAME_LEN, HEADER_TOTAL_LEN, SOF_LEN, HEADER_REST_LEN, CRC_LEN,
    CFG_PROTO_RX_BUF_CAP.
  rewrite u16_small by (unfold len; lia).
  replace (Z.to_nat (10 + len)) with (10 + length payload)%nat
    by (unfold len; lia).
  replace (Z.to_nat (12 + len)) with (12 + length payload)%nat
    by (unfold len; lia).
  rewrite wire_frame_body, wire_frame_crc, (Z.eqb_refl (crc16_ccitt body)).
  change (byte_at f 0 =? SOF_B0) with true.
  change (byte_at f 1 =? SOF_B1) with true.
  change (byte_at f 2 =? PROTO_VER_1) with true.
  cbn [andb].
  repeat (apply andb_true_iff; split);
    try reflexivity;
    try (apply Z.leb_le; unfold len; lia);
    apply Z.eqb_eq; unfold len; lia.
Qed.

Lemma wire_frame_event : frame_event f = EvFrame msg seq ticks payload.
Proof.
  unfold frame_event.
  rewrite wire_frame_seq, wire_frame_ticks, wire_frame_len.
  unfold len. rewrite Nat2Z.id, wire_frame_payload. reflexivity.
Qed.

End Fields.

(** The acknowledgement of [handle_msg_hb] has this layout. *)
Lemma hb_ack_frame_wire (seq now : Z) :
  hb_ack_frame seq now = wire_frame MSG_HB_ACK seq now [].
Proof. reflexivity. Qed.

(** *** The encoders *)

Lemma crc_false_fold (data : list Z) : forall crc,
  fold_left (fun c b =>
               Nat.iter 8 PwmHost.crc_step
                 (u16 (Z.lxor c (u16 (Z.shiftl (u16 b) 8))))) data crc
  = host_crc_loop crc data.
Proof.
  induction data as [|b data IH]; intros crc; [reflexivity|].
  cbn [fold_left host_crc_loop]. rewrite IH. reflexivity.
Qed.

(** The library's CRC is the device's. *)
Lemma crc16_ccitt_false_eq (data : list Z) :
  PwmHost.crc16_ccitt_false data = crc16_ccitt data.
Proof.
  unfold PwmHost.crc16_ccitt_false. rewrite crc_false_fold.
  apply host_crc16_eq.
Qed.

Lemma u8_land_255 v : u8 (Z.land v 255) = u8 v.
Proof.
  unfold u8. change 255 with (Z.ones 8). rewrite Z.land_ones by lia.
  change (2 ^ 8) with 256. apply Z.mod_mod. lia.
Qed.

Lemma host_be16_eq v : PwmHost.be16 v = be16_write v.
Proof. unfold PwmHost.be16, be16_write. rewrite u8_land_255. reflexivity. Qed.

Lemma host_be32_eq v : PwmHost.be32 v = be32_write v.
Proof. unfold PwmHost.be32, be32_write. rewrite u8_land_255. reflexivity. Qed.

Lemma flat_map_be16_words (ws : list Z) :
  flat_map PwmHost.be16 ws = words_payload ws.
Proof.
  unfold words_payload. induction ws as [|w ws IH]; [reflexivity|].
  cbn [flat_map]. rewrite IH, host_be16_eq. reflexivity.
Qed.

Lemma words_payload_length (ws : list Z) :
  length (words_payload ws) = (2 * length ws)%nat.
Proof.
  unfold words_payload. induction ws as [|w ws IH]; [reflexivity|].
  cbn [flat_map]. rewrite length_app, IH. simpl. lia.
Qed.

(** [v1_pack] with room for the frame. *)
Lemma v1_pack_wire (msg : Z) (payload : list Z) (out_cap now : Z)
  (h : PwmHost.host) :
  0 <= msg < 256 -> (length payload <= 498)%nat ->
  14 + Z.of_nat (length payload) <= out_cap ->
  PwmHost.v1_pack msg payload out_cap now h
  = (PwmHost.PWMH_OK,
     wire_frame msg (u16 (PwmHost.s_seq h + 1)) now payload,
     PwmHost.set_seq (u16 (PwmHost.s_seq h + 1)) h).
Proof.
  intros Hmsg Hlen Hcap. unfold PwmHost.v1_pack.
  unfold PwmHost.V1_HEADER_TOTAL_LEN, PwmHost.V1_FIXED_HEADER_LEN,
    PwmHost.V1_CRC_LEN.
  rewrite (u16_small (2 + 10 + Z.of_nat (length payload) + 2)) by lia.
  rewrite (u16_small (10 + Z.of_nat (length payload))) by lia.
  assert ((out_cap <? 2 + 10 + Z.of_nat (length payload) + 2) = false) as ->
    by (apply Z.ltb_ge; lia).
  rewrite !host_be16_eq, host_be32_eq.
  change (u8 (Z.shiftr PwmHost.PWM_HOST_SOF_BE 8)) with SOF_B0.
  change (u8 (Z.land PwmHost.PWM_HOST_SOF_BE 255)) with SOF_B1.
  change (u8 PwmHost.PWM_HOST_PROTO_VER) with PROTO_VER_1.
  change (u8 msg) with (msg mod 256). rewrite (Z.mod_small msg) by lia.
  set (body := [PROTO_VER_1; msg] ++ be16_write (u16 (PwmHost.s_seq h + 1))
               ++ be32_write now
               ++ be16_write (Z.of_nat (length payload)) ++ payload).
  change (drop 2 _) with body.
  assert (Hb : length body = Z.to_nat (10 + Z.of_nat (length payload))).
  { unfold body. rewrite !length_app. cbn [length be16_write be32_write]. lia. }
  rewrite <- Hb, firstn_all, crc16_ccitt_false_eq.
  unfold wire_frame. fold body. rewrite <- !app_assoc. reflexivity.
Qed.

(** [protocol_pack_pwm] and [protocol_pack_heartbeat] with room for
    the frame. *)
Lemma protocol_pack_pwm_wire (s_seq now : Z) (pwm8 : list Z) (out_cap : Z) :
  30 <= out_cap ->
  HostPack.protocol_pack_pwm s_seq now pwm8 out_cap
  = (Some (wire_frame MSG_PWM s_seq now
             (words_payload (map (fun i => HostPack.clip (nth i pwm8 0))
                                 (seq 0 8)))),
     u16 (s_seq + 1)).
Proof.
  intros Hcap. unfold HostPack.protocol_pack_pwm.
  assert ((out_cap <? u16 (HostPack.HEADER_FIXED_LEN + 16 + HostPack.CRC_LEN))
          = false) as -> by (apply Z.ltb_ge; change (u16 _) with 30; lia).
  rewrite host_crc16_eq, RoundTrip.host_be32_write_eq.
  reflexivity.
Qed.

Lemma protocol_pack_heartbeat_wire (s_seq now out_cap : Z) :
  14 <= out_cap ->
  HostPack.protocol_pack_heartbeat s_seq now out_cap
  = (Some (wire_frame MSG_HB s_seq now []), u16 (s_seq + 1)).
Proof.
  intros Hcap. unfold HostPack.protocol_pack_heartbeat.
  assert ((out_cap <? u16 (HostPack.HEADER_FIXED_LEN + HostPack.CRC_LEN))
          = false) as -> by (apply Z.ltb_ge; change (u16 _) with 14; lia).
  rewrite host_crc16_eq, RoundTrip.host_be32_write_eq.
  reflexivity.
Qed.

(** *** The device on a COMMAND payload of eight words *)

Lemma wire_pwm_word (seq ticks : Z) (ws : list Z) (i : nat) :
  length ws = 8%nat -> Forall (fun w => 0 <= w < 65536) ws ->
  (i < 8)%nat ->
  pwm_word (wire_frame MSG_PWM seq ticks (words_payload ws)) i
  = clamp_10000 (nth i ws 0).
Proof.
  intros Hlen Hws Hi.
  do 8 (destruct ws as [|? ws]; [discriminate Hlen|]).
  destruct ws; [|discriminate Hlen].
  repeat match goal with
         | H : Forall _ (_ :: _) |- _ => inversion H; clear H; subst
         end.
  unfold pwm_word. f_equal.
  do 8 (destruct i as [|i];
        [apply RoundTrip.be16_read_at;
         [reflexivity | simpl; lia | assumption]|]).
  lia.
Qed.

Lemma wire_pwm_effects (sq ticks tick : Z) (ws : list Z) :
  0 <= sq < 65536 -> 0 <= ticks < 4294967296 ->
  length ws = 8%nat -> Forall (fun w => 0 <= w < 65536) ws ->
  frame_effects tick (wire_frame MSG_PWM sq ticks (words_payload ws))
  = map (fun i => EvSetDuty (Z.of_nat i + 1)
                            (duty_of (clamp_10000 (nth i ws 0))))
        (seq 0 8).
Proof.
  intros Hseq Hticks Hlen Hws. unfold frame_effects.
  rewrite wire_frame_msg.
  rewrite wire_frame_len by (rewrite ?words_payload_length, ?Hlen; lia).
  rewrite words_payload_length, Hlen.
  change (MSG_PWM =? MSG_PWM) with true.
  change (Z.of_nat (2 * 8) =? 16) with true. cbv iota.
  apply map_ext_in. intros i Hi. apply in_seq in Hi.
  rewrite wire_pwm_word by (assumption || lia). reflexivity.
Qed.

End WireFacts.

(* ================================================================== *)
(** ** The host's acknowledgement parsers *)
(* ================================================================== *)

Module HostRxFacts.
Import Bits BitsFacts Crc CrcFacts Device DeviceFacts.
Import Stream StreamFacts Wire WireFacts PwmHost PwmHostRx.
Section Ack.
Variables (sq ticks : Z) (trail : list Z).
Hypothesis Hseq : 0 <= sq < 65536.
Hypothesis Hticks : 0 <= ticks < 4294967296.

Let f := wire_frame MSG_HB_ACK sq ticks [].

Lemma ack_length : length f = 14%nat.
Proof. reflexivity. Qed.

Lemma ack_crc_field :
  be16_read f 12
  = crc16_ccitt ([PROTO_VER_1; MSG_HB_ACK] ++ be16_write sq
                 ++ be32_write ticks ++ be16_write 0).
Proof.
  exact (wire_frame_crc MSG_HB_ACK sq ticks [] ltac:(simpl; lia)).
Qed.

Lemma ack_len_field : be16_read f 10 = 0.
Proof. exact (wire_frame_len MSG_HB_ACK sq ticks [] ltac:(simpl; lia)). Qed.

Lemma ack_seq_field : be16_read f 4 = sq.
Proof. exact (wire_frame_seq MSG_HB_ACK sq ticks [] Hseq). Qed.

Lemma ack_ticks_field : be32_read f 6 = ticks.
Proof. exact (wire_frame_ticks MSG_HB_ACK sq ticks [] Hticks). Qed.

Lemma ack_body :
  take 10 (drop 2 f)
  = [PROTO_VER_1; MSG_HB_ACK] ++ be16_write sq ++ be32_write ticks
    ++ be16_write 0.
Proof. reflexivity. Qed.

(** The library's parser accepts the acknowledgement, whatever follows
    it in the datagram. *)
Lemma v1_try_parse_hb_ack_wire :
  v1_try_parse_hb_ack (f ++ trail) = Some (14, sq, ticks).
Proof.
  unfold v1_try_parse_hb_ack.
  rewrite length_app, ack_length.
  unfold V1_HEADER_TOTAL_LEN, V1_FIXED_HEADER_LEN, V1_CRC_LEN.
  assert ((Z.of_nat (14 + length trail) <? 2 + 10 + 2) = false) as ->
    by (apply Z.ltb_ge; lia).
  rewrite !byte_at_app_l by (rewrite ack_length; lia).
  change (byte_at f 0 =? u8 (Z.shiftr PWM_HOST_SOF_BE 8)) with true.
  change (byte_at f 1 =? u8 (Z.land PWM_HOST_SOF_BE 255)) with true.
  change (byte_at f 2 =? PWM_HOST_PROTO_VER) with true.
  change (byte_at f 3 =? PWM_HOST_MSG_HB_ACK) with true.
  cbn [negb orb].
  rewrite (be16_read_app_l f trail 10) by (rewrite ack_length; lia).
  rewrite (be16_read_app_l f trail 4) by (rewrite ack_length; lia).
  rewrite (be32_read_app_l f trail 6) by (rewrite ack_length; lia).
  rewrite ack_len_field.
  change (2 + 10 + 0 + 2) with 14.
  assert ((Z.of_nat (14 + length trail) <? 14) = false) as ->
    by (apply Z.ltb_ge; lia).
  change (Z.to_nat (14 - 2)) with 12%nat.
  change (Z.to_nat (u16 (10 + 0))) with 10%nat.
  rewrite (be16_read_app_l f trail 12) by (rewrite ack_length; lia).
  rewrite take_drop_app_l by (rewrite ack_length; lia).
  rewrite ack_crc_field, ack_body, crc16_ccitt_false_eq.
  rewrite Z.eqb_refl. cbn [negb].
  rewrite ack_seq_field, ack_ticks_field. reflexivity.
Qed.

(** The test sender's parser accepts it when it is the whole
    datagram, and nothing longer. *)
Lemma try_parse_hb_ack_wire :
  HostMain.try_parse_hb_ack f = Some (sq, ticks).
Proof.
  unfold HostMain.try_parse_hb_ack.
  rewrite ack_length. change (negb (Z.of_nat 14 =? 14)) with false.
  change (byte_at f 0 =? 170) with true.
  change (byte_at f 1 =? 85) with true.
  change (byte_at f 2 =? 1) with true.
  change (byte_at f 3 =? 17) with true.
  cbn [negb orb].
  rewrite ack_len_field.
  change (negb (0 =? 0)) with false. cbv iota.
  rewrite ack_crc_field, ack_body, host_crc16_eq, Z.eqb_refl.
  rewrite ack_seq_field, ack_ticks_field. reflexivity.
Qed.

Lemma try_parse_hb_ack_long :
  trail <> [] -> HostMain.try_parse_hb_ack (f ++ trail) = None.
Proof.
  intros Hne. unfold HostMain.try_parse_hb_ack.
  rewrite length_app, ack_length.
  assert ((Z.of_nat (14 + length trail) =? 14) = false) as ->.
  { apply Z.eqb_neq. destruct trail; [congruence | simpl; lia]. }
  reflexivity.
Qed.

End Ack.

(** *** The send calls, by outcome of [sendto] *)

Lemma pwm_host_set_all_u16_spec (v : list Z) (now sent : Z) (h : host) :
  0 <= s_sock h ->
  let ws := map (fun i => clamp_10000 (nth i v 0)) (seq 0 8) in
  let frame := wire_frame MSG_PWM (u16 (s_seq h + 1)) now (words_payload ws) in
  pwm_host_set_all_u16 v now sent h
  = if sent =? 30
    then (PWMH_OK,
          mk_host (s_sock h) (u16 (s_seq h + 1)) ws (inc_tx_pwm (s_stats h)),
          [frame])
    else (PWMH_ESYS,
          mk_host (s_sock h) (u16 (s_seq h + 1)) ws
                  (inc_tx_err (inc_tx_err (s_stats h))),
          [frame]).
Proof.
  intros Hsock ws frame. unfold pwm_host_set_all_u16.
  assert ((s_sock h <? 0) = false) as -> by (apply Z.ltb_ge; lia).
  change (map _ (seq 0 PWM_HOST_CH_NUM)) with ws.
  unfold v1_send_frame. cbn [set_shadow s_sock].
  assert ((s_sock h <? 0) = false) as -> by (apply Z.ltb_ge; lia).
  assert (Hws : length ws = 8%nat)
    by (unfold ws; rewrite length_map, length_seq; reflexivity).
  rewrite flat_map_be16_words.
  rewrite v1_pack_wire;
    [| unfold PWM_HOST_MSG_PWM; lia
     | rewrite words_payload_length, Hws; lia
     | rewrite words_payload_length, Hws; unfold V1_MAX_FRAME,
         V1_HEADER_TOTAL_LEN, V1_FIXED_HEADER_LEN, V1_MAX_PAYLOAD, V1_CRC_LEN;
       lia].
  change (wire_frame PWM_HOST_MSG_PWM) with (wire_frame MSG_PWM).
  cbn [set_shadow s_seq]. fold frame.
  assert (Hfl : length frame = 30%nat).
  { unfold frame. rewrite wire_frame_length, words_payload_length, Hws.
    reflexivity. }
  rewrite Hfl. change (Z.of_nat 30) with 30.
  destruct (sent =? 30) eqn:E.
  - apply Z.eqb_eq in E. subst sent. reflexivity.
  - cbn [negb]. rewrite orb_true_r. reflexivity.
Qed.

Lemma pwm_host_send_heartbeat_spec (now_ms now sent : Z) (h : host)
  (b : hb_state) :
  0 <= s_sock h ->
  let frame := wire_frame MSG_HB (u16 (s_seq h + 1)) now [] in
  pwm_host_send_heartbeat now_ms now sent h b
  = if sent =? 14
    then (PWMH_OK,
          mk_host (s_sock h) (u16 (s_seq h + 1)) (s_shadow h)
                  (inc_tx_hb (s_stats h)),
          mk_hb (s_last_rtt_ms b) (u16 (s_seq h + 1)) now_ms,
          [frame])
    else (PWMH_ESYS,
          mk_host (s_sock h) (u16 (s_seq h + 1)) (s_shadow h)
                  (inc_tx_err (inc_tx_err (s_stats h))),
          b, [frame]).
Proof.
  intros Hsock frame. unfold pwm_host_send_heartbeat, v1_send_frame.
  assert ((s_sock h <? 0) = false) as -> by (apply Z.ltb_ge; lia).
  rewrite v1_pack_wire;
    [| unfold PWM_HOST_MSG_HB; lia | simpl; lia
     | unfold V1_MAX_FRAME, V1_HEADER_TOTAL_LEN, V1_FIXED_HEADER_LEN,
         V1_MAX_PAYLOAD, V1_CRC_LEN; simpl; lia].
  change (wire_frame PWM_HOST_MSG_HB) with (wire_frame MSG_HB). fold frame.
  change (Z.of_nat (length frame)) with 14.
  destruct (sent =? 14) eqn:E.
  - apply Z.eqb_eq in E. subst sent. reflexivity.
  - cbn [negb]. rewrite orb_true_r. reflexivity.
Qed.

(** *** Arrays of eight words *)

Lemma map_nth_seq8 {A} (g : Z -> A) (l : list Z) :
  length l = 8%nat ->
  map (fun i => g (nth i l 0)) (seq 0 8) = map g l.
Proof.
  intros Hlen.
  do 8 (destruct l as [|? l]; [discriminate Hlen|]).
  destruct l; [reflexivity | discriminate Hlen].
Qed.

Lemma clamp_10000_id w : w <= 10000 -> clamp_10000 w = w.
Proof.
  intros H. unfold clamp_10000.
  destruct (10000 <? w) eqn:E; [apply Z.ltb_lt in E; lia | reflexivity].
Qed.

Lemma clamp_10000_range w : 0 <= w -> 0 <= clamp_10000 w <= 10000.
Proof.
  intros H. unfold clamp_10000.
  destruct (10000 <? w) eqn:E; [lia | apply Z.ltb_ge in E; lia].
Qed.

Lemma map_clamp_id (l : list Z) :
  Forall (fun w => 0 <= w <= 10000) l -> map clamp_10000 l = l.
Proof.
  induction 1 as [|w l Hw _ IH]; [reflexivity|].
  cbn [map]. rewrite IH, clamp_10000_id by lia. reflexivity.
Qed.

Lemma pwm_host_percent_to_u16_range (p : Q) :
  0 <= pwm_host_percent_to_u16 p <= 10000.
Proof.
  unfold pwm_host_percent_to_u16. cbv zeta.
  unfold PWM_HOST_VAL_MIN, PWM_HOST_VAL_MAX.
  match goal with
  | |- context [float_to_int ?x] => generalize (float_to_int x); intros v
  end.
  destruct (v <? 0) eqn:E1.
  - change (10000 <? 0) with false. cbv iota. rewrite u16_small by lia. lia.
  - apply Z.ltb_ge in E1. destruct (10000 <? v) eqn:E2.
    + rewrite u16_small by lia. lia.
    + apply Z.ltb_ge in E2. rewrite u16_small by lia. lia.
Qed.

(** *** The receive loop *)

Lemma u64_succ_add (x n : Z) : u64 (u64 (x + 1) + n) = u64 (x + (1 + n)).
Proof. unfold u64. rewrite Zplus_mod_idemp_l. f_equal. lia. Qed.

Lemma u64_range x : 0 <= u64 x < 18446744073709551616.
Proof. apply Z.mod_pos_bound. lia. Qed.

Lemma u64_small x : 0 <= x < 18446744073709551616 -> u64 x = x.
Proof. intros H. apply Z.mod_small. exact H. Qed.

(** The loop over a queue of non-empty datagrams: each one is counted,
    the acknowledgements are counted in [rx_hb_ack], and nothing but
    an acknowledgement for the last heartbeat touches the heartbeat
    record. *)
Lemma poll_loop_datagrams (q : list (list Z * Z)) :
  forall (handled : Z) (h : host) (b : hb_state),
  Forall (fun d => fst d <> []) q ->
  0 <= rx_hb_ack (s_stats h) < 18446744073709551616 ->
  exists h' b',
    poll_loop (datagrams q) handled h b
    = (handled + Z.of_nat (length q), h', b', []) /\
    s_sock h' = s_sock h /\ s_seq h' = s_seq h /\ s_shadow h' = s_shadow h /\
    s_stats h'
    = mk_hstats (tx_pwm (s_stats h)) (tx_hb (s_stats h))
        (u64 (rx_hb_ack (s_stats h)
              + Z.of_nat (length (List.filter (fun d => is_ack (fst d)) q))))
        (tx_err (s_stats h)) (rx_err (s_stats h)) /\
    (Forall (fun d => ack_seq (fst d) <> Some (s_last_hb_seq b)) q -> b' = b).
Proof.
  induction q as [|[d now] q IH]; intros handled h b Hne Hr.
  - exists h, b. cbn [datagrams map poll_loop length List.filter].
    change (Z.of_nat 0) with 0. rewrite !Z.add_0_r, u64_small by exact Hr.
    destruct h as [? ? ? []]; repeat split; reflexivity.
  - inversion Hne as [|? ? Hd Hq]; subst. cbn [fst] in Hd.
    cbn [datagrams map fst snd poll_loop].
    fold (datagrams q).
    assert ((Z.of_nat (length (take (Z.to_nat RX_BUF_SIZE) d)) =? 0) = false)
      as ->.
    { apply Z.eqb_neq. destruct d; [congruence|]. simpl. lia. }
    cbn [List.filter fst length]. unfold is_ack at 1, ack_seq at 1.
    destruct (v1_try_parse_hb_ack (take (Z.to_nat RX_BUF_SIZE) d))
      as [[[used sq] tk]|] eqn:Hp.
    + match goal with
      | |- context [poll_loop (datagrams q) ?n ?h1 ?b1] =>
          destruct (IH n h1 b1 Hq) as (h' & b' & Hrun & H1 & H2 & H3 & H4 & H5);
            [cbn; apply u64_range|]
      end.
      rewrite Hrun. exists h', b'.
      split; [f_equal; f_equal; f_equal; simpl length; lia|].
      cbn [set_hstats s_sock s_seq s_shadow s_stats inc_rx_hb_ack
             tx_pwm tx_hb rx_hb_ack tx_err rx_err] in *.
      repeat split; try assumption.
      * rewrite H4. f_equal. cbn [length]. rewrite u64_succ_add. f_equal. lia.
      * intros Hall. inversion Hall as [|? ? Hx Hrest]; subst.
        cbn [fst] in Hx. unfold ack_seq in Hx. rewrite Hp in Hx.
        assert ((sq =? s_last_hb_seq b) = false) as E
          by (apply Z.eqb_neq; congruence).
        rewrite E in H5. cbn [andb] in H5. apply H5. exact Hrest.
    + destruct (IH (handled + 1) h b Hq Hr)
        as (h' & b' & Hrun & H1 & H2 & H3 & H4 & H5).
      rewrite Hrun. exists h', b'.
      split; [f_equal; f_equal; f_equal; simpl length; lia|].
      repeat split; try assumption.
      intros Hall. inversion Hall; subst. apply H5. assumption.
Qed.

End HostRxFacts.

(* ================================================================== *)
(** ** Link engine: ingestion, drain and timer *)
(* ================================================================== *)

Module LinkExtras.
Import Bits BitsFacts Crc CrcFacts Device DeviceFacts Scenario.
Import Liveness Failsafe Reassembly Stream StreamFacts.
(** X1 (several frames in one chunk).  A chunk made of bytes other
    than 0xAA followed by one or more whole frames, fed to an idle
    engine with an empty buffer and drained: the leading bytes go in a
    single discard step, every frame is dispatched exactly once and in
    arrival order with its handler's calls, the buffer is empty
    afterwards, the flag is clear and [rx_ok] has grown by the number
    of COMMAND and HEARTBEAT frames. *)
Theorem X1_frames_in_one_chunk (g : list Z) (fs : list (list Z)) (st : dev) :
  s_rxbuf st = [] -> protocol_flag st = 0 ->
  0 <= rx_ok (s_stats st) < 4294967296 ->
  Forall (fun b => b <> SOF_B0) g ->
  Forall (fun f => is_frame_bytes f = true) fs -> fs <> [] ->
  (length (g ++ concat fs) <= 512)%nat ->
  exists st',
    protocol_process (protocol_feed_bytes (g ++ concat fs) st)
    = Some (st',
            (match g with [] => [] | _ => [EvDiscard (Z.of_nat (length g))] end)
            ++ flat_map (frame_trace (hal_tick st)) fs) /\
    s_rxbuf st' = [] /\ protocol_flag st' = 0 /\
    rx_ok (s_stats st') = u32 (rx_ok (s_stats st) + live_count fs).
Proof.
  intros Hempty Hflag Hok Hg Hfs Hne Hfit.
  destruct fs as [|f fs]; [congruence|]. clear Hne.
  pose proof Hfs as Hfs'. inversion Hfs' as [|? ? Hf _]; subst.
  destruct (is_frame_bytes_facts f Hf) as (_ & _ & Hlen & Hsof & _).
  rewrite protocol_feed_bytes_fits; try assumption.
  2:{ destruct g; cbn; [|discriminate].
      destruct f; [simpl in Hlen; lia | discriminate]. }
  2:{ rewrite Hempty. change (length (@nil Z)) with 0%nat. lia. }
  rewrite Hempty. cbn [app].
  set (st0 := set_flag 1 (set_rxbuf (g ++ concat (f :: fs)) st)).
  assert (Hb0 : s_rxbuf st0 = g ++ concat (f :: fs)) by reflexivity.
  assert (Ht0 : hal_tick st0 = hal_tick st) by reflexivity.
  assert (Hs0 : s_stats st0 = s_stats st) by reflexivity.
  unfold protocol_process.
  change (protocol_flag st0 =? 1) with true. cbv iota.
  unfold process_rx_buffer. rewrite Hb0.
  destruct g as [|b g].
  - cbn [app] in *.
    destruct (drain_frames (f :: fs) st0 (S (length (concat (f :: fs)))))
      as (st' & ev & Hrun & Hev & Hbuf & Hcount);
      [assumption | exact Hb0 | lia | rewrite Hs0; exact Hok |].
    rewrite Hrun. exists (set_flag 0 st').
    split; [rewrite Hev, Ht0; reflexivity|].
    rewrite Hs0 in Hcount. repeat split; assumption.
  - set (gb := b :: g) in *.
    assert (Hgb : (0 < length gb)%nat) by (unfold gb; simpl; lia).
    assert (Hscan : sof_scan (gb ++ concat (f :: fs)) = length gb).
    { apply sof_scan_garbage; [exact Hg|].
      cbn [concat]. rewrite !byte_at_app_l by lia. exact Hsof. }
    cbn [process_rx_buffer_loop].
    assert (Hpass : try_parse_one_frame st0
                    = mk_ret true (Z.of_nat (length gb)) st0
                             [EvDiscard (Z.of_nat (length gb))]).
    { unfold try_parse_one_frame, s_rxlen. rewrite Hb0, Hscan.
      assert ((Z.of_nat (length (gb ++ concat (f :: fs))) <? 1) = false) as ->
        by (apply Z.ltb_ge; rewrite length_app; lia).
      assert ((0 <? Z.of_nat (length gb)) = true) as ->
        by (apply Z.ltb_lt; lia).
      reflexivity. }
    rewrite Hpass. cbn [ret negb consumed st_after evs].
    assert ((0 <? Z.of_nat (length gb)) = true) as ->
      by (apply Z.ltb_lt; lia).
    rewrite Hb0, Nat2Z.id, drop_app_length.
    set (st1 := set_rxbuf (concat (f :: fs)) st0).
    destruct (drain_frames (f :: fs) st1 (length (gb ++ concat (f :: fs))))
      as (st' & ev & Hrun & Hev & Hbuf & Hcount);
      [assumption | reflexivity | | exact Hok |].
    { rewrite length_app. lia. }
    rewrite Hrun. exists (set_flag 0 st').
    split; [rewrite Hev; reflexivity|]. repeat split; assumption.
Qed.

Lemma X1_frames_in_one_chunk_witness :
  exists st',
    protocol_process
      (protocol_feed_bytes ([0x00; 0x13; 0x55] ++ concat [hb_example; pwm_example])
                           (fresh 1000))
    = Some (st',
            [EvDiscard 3]
            ++ flat_map (frame_trace 1000) [hb_example; pwm_example]) /\
    s_rxbuf st' = [] /\ protocol_flag st' = 0 /\
    rx_ok (s_stats st') = u32 (0 + live_count [hb_example; pwm_example]).
Proof.
  apply (X1_frames_in_one_chunk [0x00; 0x13; 0x55] [hb_example; pwm_example]
           (fresh 1000)).
  - reflexivity.
  - reflexivity.
  - vm_compute. split; [discriminate | reflexivity].
  - repeat constructor; vm_compute; discriminate.
  - repeat constructor; vm_compute; reflexivity.
  - discriminate.
  - vm_compute. lia.
Defined.

(** X2 (sliding window).  A non-empty chunk fed while the flag is clear
    leaves in the buffer the newest bytes of the old content followed
    by the chunk: all of them when they fit in 512, otherwise the last
    512, the oldest bytes being the ones dropped. *)
Theorem X2_feed_keeps_newest (data : list Z) (st : dev) :
  protocol_flag st = 0 -> data <> [] ->
  (length (s_rxbuf st) <= 512)%nat ->
  let all := s_rxbuf st ++ data in
  protocol_feed_bytes data st
  = set_flag 1 (set_rxbuf (drop (length all - 512) all) st).
Proof.
  intros Hflag Hne Hcap all. unfold all.
  unfold protocol_feed_bytes, CFG_PROTO_RX_BUF_CAP.
  rewrite Hflag. change (0 =? 0) with true. cbv iota.
  assert ((Z.of_nat (length data) =? 0) = false) as ->
    by (apply Z.eqb_neq; destruct data; [congruence | simpl; lia]).
  rewrite length_app.
  destruct (512 <? Z.of_nat (length data)) eqn:Hbig.
  - apply Z.ltb_lt in Hbig.
    rewrite length_drop. change (length (@nil Z)) with 0%nat.
    assert ((512 <? Z.of_nat 0
                    + Z.of_nat (length data
                                - Z.to_nat (Z.of_nat (length data) - 512)))
            = false) as -> by (apply Z.ltb_ge; lia).
    cbn [app]. do 2 f_equal.
    rewrite drop_app_ge by lia. f_equal. lia.
  - apply Z.ltb_ge in Hbig.
    destruct (512 <? Z.of_nat (length (s_rxbuf st)) + Z.of_nat (length data))
      eqn:Hover.
    + apply Z.ltb_lt in Hover. do 2 f_equal.
      rewrite u16_small by lia.
      rewrite drop_app_le by lia. do 2 f_equal. lia.
    + apply Z.ltb_ge in Hover. do 2 f_equal.
      replace (length (s_rxbuf st) + length data - 512)%nat with 0%nat by lia.
      reflexivity.
Qed.

Lemma X2_feed_keeps_newest_witness :
  let st := set_rxbuf (repeat 7 500) (fresh 0) in
  let all := s_rxbuf st ++ repeat 9 20 in
  protocol_feed_bytes (repeat 9 20) st
  = set_flag 1 (set_rxbuf (drop (length all - 512) all) st).
Proof.
  apply (X2_feed_keeps_newest (repeat 9 20) (set_rxbuf (repeat 7 500) (fresh 0))).
  - reflexivity.
  - discriminate.
  - vm_compute. lia.
Defined.

(** X3 (timer across tick wrap-around, with the 50 ms floor).  After
    [protocol_set_failsafe_timeout_ms ms] on an engine whose timestamp
    is the current tick, the poll made [dt] milliseconds later runs
    the neutral output exactly when [dt] exceeds the larger of [ms]
    and 50, also when the 32-bit tick counter wraps in between. *)
Theorem X3_poll_across_wrap (ms dt : Z) (st : dev) :
  0 <= hal_tick st < 4294967296 ->
  s_last_ok_rx_ms st = hal_tick st ->
  0 <= dt < 4294967296 ->
  let st1 := advance dt (protocol_set_failsafe_timeout_ms ms st) in
  protocol_poll st1
  = if Z.max ms 50 <? dt
    then (set_last_ok (hal_tick st1) st1, enter_failsafe_mid_all)
    else (st1, []).
Proof.
  intros Htick Hlast Hdt st1.
  assert (Hexp : poll_expired st1 = (Z.max ms 50 <? dt)).
  { unfold poll_expired, st1, advance, protocol_set_failsafe_timeout_ms,
      HAL_GetTick.
    cbn [set_timeout s_failsafe_timeout_ms hal_tick s_last_ok_rx_ms].
    rewrite Hlast.
    assert (Hwrap : u32 (u32 (hal_tick st + dt) - hal_tick st) = dt).
    { unfold u32. rewrite Zminus_mod_idemp_l.
      replace (hal_tick st + dt - hal_tick st) with dt by lia.
      apply Z.mod_small. lia. }
    rewrite Hwrap.
    destruct (ms <? 50) eqn:E.
    - apply Z.ltb_lt in E. rewrite Z.max_r by lia. reflexivity.
    - apply Z.ltb_ge in E. rewrite Z.max_l by lia. reflexivity. }
  unfold protocol_poll. rewrite Hexp. reflexivity.
Qed.

Lemma X3_poll_across_wrap_witness :
  let st1 := advance 51 (protocol_set_failsafe_timeout_ms 10 (fresh 4294967290)) in
  protocol_poll st1
  = if Z.max 10 50 <? 51
    then (set_last_ok (hal_tick st1) st1, enter_failsafe_mid_all)
    else (st1, []).
Proof.
  apply (X3_poll_across_wrap 10 51 (fresh 4294967290)).
  - vm_compute. split; [discriminate | reflexivity].
  - reflexivity.
  - lia.
Defined.

(** X4 (COMMAND with a wrong payload length).  A CRC-valid COMMAND
    frame whose LEN field is not 16 is consumed whole and drives no
    output, yet it refreshes the link timer and is counted both in
    [rx_ok] and in [rx_len_err]. *)
Theorem X4_command_wrong_length (f rest : list Z) (st : dev) :
  is_frame_bytes f = true ->
  byte_at f 3 = MSG_PWM -> be16_read f 10 <> 16 ->
  s_rxbuf st = f ++ rest ->
  let r := try_parse_one_frame st in
  ret r = true /\ consumed r = Z.of_nat (length f) /\
  evs r = [frame_event f] /\
  s_last_ok_rx_ms (st_after r) = hal_tick st /\
  s_stats (st_after r) = inc_ok (inc_len_err (s_stats st)).
Proof.
  intros Hf Hmsg Hlen Hbuf r. unfold r.
  rewrite (try_parse_head f rest st Hf Hbuf). cbv zeta.
  cbn [ret consumed evs st_after].
  pose proof (dispatch_effects f st) as He.
  pose proof (dispatch_stats f (byte_at f 3) (be16_read f 4) (be32_read f 6)
                (be16_read f 10) st) as Hs.
  pose proof (dispatch_last_ok f (byte_at f 3) (be16_read f 4) (be32_read f 6)
                (be16_read f 10) st) as Hl.
  cbv zeta in Hs, Hl. destruct Hl as (Hl & _).
  apply Z.eqb_neq in Hlen.
  rewrite He, Hs, Hl. unfold frame_effects. rewrite Hmsg.
  change (MSG_PWM =? MSG_PWM) with true. rewrite Hlen. cbn [orb].
  repeat split; reflexivity.
Qed.

Lemma X4_command_wrong_length_witness :
  let r := try_parse_one_frame (set_rxbuf (short_command ++ [0xAA]) (fresh 5)) in
  ret r = true /\ consumed r = Z.of_nat (length short_command) /\
  evs r = [frame_event short_command] /\
  s_last_ok_rx_ms (st_after r) = 5 /\
  s_stats (st_after r) = inc_ok (inc_len_err stats_zero).
Proof.
  apply (X4_command_wrong_length short_command [0xAA]
           (set_rxbuf (short_command ++ [0xAA]) (fresh 5))).
  - vm_compute. reflexivity.
  - reflexivity.
  - vm_compute. discriminate.
  - reflexivity.
Defined.

(** X5 (meaning of [rx_ok]).  Whatever the buffer holds, a drain adds
    to [rx_ok], modulo 2^32, the number of COMMAND and HEARTBEAT
    frames it dispatched: discarded bytes, acknowledgements and
    unknown kinds do not count. *)
Theorem X5_rx_ok_counts_live_frames (st st' : dev) (ev : list event) :
  protocol_process st = Some (st', ev) ->
  0 <= rx_ok (s_stats st) < 4294967296 ->
  rx_ok (s_stats st') = u32 (rx_ok (s_stats st) + Z.of_nat (live_markers ev)).
Proof.
  unfold protocol_process, process_rx_buffer. intros Hrun Hok.
  destruct (protocol_flag st =? 1).
  - destruct (process_rx_buffer_loop _ st) as [[st1 ev1]|] eqn:Hloop;
      [|discriminate].
    injection Hrun as <- <-.
    apply (process_rx_buffer_loop_rx_ok _ _ _ _ Hloop Hok).
  - injection Hrun as <- <-. cbn. rewrite Z.add_0_r, u32_small by lia.
    reflexivity.
Qed.

Lemma X5_rx_ok_counts_live_frames_witness :
  exists st' ev,
    protocol_process (protocol_feed_bytes (noise60 ++ hb_example) (fresh 0))
    = Some (st', ev) /\
    live_markers ev = 1%nat /\
    rx_ok (s_stats st') = u32 (0 + Z.of_nat (live_markers ev)).
Proof.
  eexists _, _. split; [vm_compute; reflexivity|].
  split; [vm_compute; reflexivity|].
  apply (X5_rx_ok_counts_live_frames
           (protocol_feed_bytes (noise60 ++ hb_example) (fresh 0))).
  - vm_compute. reflexivity.
  - vm_compute. split; [discriminate | reflexivity].
Defined.

End LinkExtras.

(* ================================================================== *)
(** ** Percentages and channel words *)
(* ================================================================== *)

Module PercentFacts.
Import Bits BitsFacts PwmHost PwmHostRx HostRxFacts.
Local Open Scope Q_scope.

Lemma float_to_int_bounds (x : Q) :
  0 <= x ->
  (0 <= float_to_int x)%Z /\
  inject_Z (float_to_int x) <= x /\ x < inject_Z (float_to_int x) + 1.
Proof.
  intros Hx. destruct x as [n d].
  unfold Qle, Qlt, Qplus, inject_Z, float_to_int in *. cbn [Qnum Qden] in *.
  assert (Hn : (0 <= n)%Z) by lia.
  rewrite Z.quot_div_nonneg by lia.
  pose proof (Z.div_mod n (Z.pos d) ltac:(lia)) as Hdm.
  pose proof (Z.mod_pos_bound n (Z.pos d) ltac:(lia)) as Hm.
  pose proof (Z.div_pos n (Z.pos d) Hn ltac:(lia)) as Hq.
  repeat split; nia.
Qed.

Lemma float_to_int_mono (x y : Q) :
  0 <= x -> x <= y -> (float_to_int x <= float_to_int y)%Z.
Proof.
  intros Hx Hxy.
  destruct (float_to_int_bounds x Hx) as (_ & H1 & _).
  destruct (float_to_int_bounds y) as (_ & _ & H2); [lra|].
  assert (H : inject_Z (float_to_int x) < inject_Z (float_to_int y) + 1) by lra.
  change (inject_Z (float_to_int y) + 1)
    with (inject_Z (float_to_int y) + inject_Z 1) in H.
  rewrite <- inject_Z_plus in H. rewrite <- Zlt_Qlt in H. lia.
Qed.

Lemma scaled_eq (pct : Q) :
  scaled pct ==
  2000 * (if Qlt_le_dec pct 5 then 5
          else if Qlt_le_dec 10 pct then 10 else pct) - 10000 + (1 # 2).
Proof.
  unfold scaled, PWM_HOST_PCT_MIN, PWM_HOST_PCT_MAX, PWM_HOST_VAL_MAX.
  destruct (Qlt_le_dec pct 5) as [H|H].
  - destruct (Qlt_le_dec 10 5) as [H'|H']; [lra|]. field.
  - destruct (Qlt_le_dec 10 pct) as [H'|H']; field.
Qed.

Lemma scaled_range (pct : Q) : (1 # 2) <= scaled pct <= 10000 + (1 # 2).
Proof.
  rewrite scaled_eq.
  destruct (Qlt_le_dec pct 5); [lra|].
  destruct (Qlt_le_dec 10 pct); lra.
Qed.

Lemma pwm_host_percent_to_u16_scaled (pct : Q) :
  pwm_host_percent_to_u16 pct = float_to_int (scaled pct) /\
  (0 <= float_to_int (scaled pct) <= 10000)%Z.
Proof.
  pose proof (scaled_range pct) as Hr.
  destruct (float_to_int_bounds (scaled pct)) as (H0 & Hlo & Hhi); [lra|].
  assert (Hle : (float_to_int (scaled pct) <= 10000)%Z).
  { assert (H : inject_Z (float_to_int (scaled pct)) < inject_Z 10001).
    { change (inject_Z 10001) with 10001. lra. }
    rewrite <- Zlt_Qlt in H. lia. }
  split; [|lia].
  unfold pwm_host_percent_to_u16. cbv zeta.
  change (float_to_int _) with (float_to_int (scaled pct)).
  unfold PWM_HOST_VAL_MIN, PWM_HOST_VAL_MAX.
  assert ((float_to_int (scaled pct) <? 0)%Z = false) as ->
    by (apply Z.ltb_ge; lia).
  assert ((10000 <? float_to_int (scaled pct))%Z = false) as ->
    by (apply Z.ltb_ge; lia).
  apply u16_small. lia.
Qed.

End PercentFacts.

(* ================================================================== *)
(** ** Host library and device together *)
(* ================================================================== *)

Module HostExtras.
Import Bits BitsFacts Crc CrcFacts Device DeviceFacts Scenario.
Import Stream StreamFacts Wire WireFacts PwmHost PwmHostRx HostRxFacts.
(** X6 (the host encoders agree).  With an open socket, the datagram
    [pwm_host_set_all_u16] hands to [sendto] is byte for byte the
    frame [protocol_pack_pwm] builds from the same words, clock value
    and sequence number, and the datagram of
    [pwm_host_send_heartbeat] is the frame of
    [protocol_pack_heartbeat]; the library numbers a frame with its
    counter plus one, the light packer with its counter. *)
Theorem X6_host_encoders_agree (v : list Z) (now_ms now sent : Z) (h : host)
  (b : hb_state) :
  0 <= s_sock h ->
  (exists frame,
     snd (pwm_host_set_all_u16 v now sent h) = [frame] /\
     fst (HostPack.protocol_pack_pwm (u16 (s_seq h + 1)) now v 30)
     = Some frame) /\
  (exists frame,
     snd (pwm_host_send_heartbeat now_ms now sent h b) = [frame] /\
     fst (HostPack.protocol_pack_heartbeat (u16 (s_seq h + 1)) now 14)
     = Some frame).
Proof.
  intros Hsock. split.
  - rewrite pwm_host_set_all_u16_spec by exact Hsock.
    rewrite protocol_pack_pwm_wire by lia. cbv zeta.
    eexists. split; [destruct (sent =? 30); reflexivity | reflexivity].
  - rewrite pwm_host_send_heartbeat_spec by exact Hsock.
    rewrite protocol_pack_heartbeat_wire by lia. cbv zeta.
    eexists. split; [destruct (sent =? 14); reflexivity | reflexivity].
Qed.

Lemma X6_host_encoders_agree_witness :
  (exists frame,
     snd (pwm_host_set_all_u16 [0; 1; 2; 3; 4; 5; 6; 70000] 9 30 PwmCtrl.host0)
     = [frame] /\
     fst (HostPack.protocol_pack_pwm (u16 (0 + 1)) 9
            [0; 1; 2; 3; 4; 5; 6; 70000] 30) = Some frame) /\
  (exists frame,
     snd (pwm_host_send_heartbeat 8 9 14 PwmCtrl.host0 (mk_hb (-1) 0 0))
     = [frame] /\
     fst (HostPack.protocol_pack_heartbeat (u16 (0 + 1)) 9 14) = Some frame).
Proof.
  apply (X6_host_encoders_agree [0; 1; 2; 3; 4; 5; 6; 70000] 8 9 30
           PwmCtrl.host0 (mk_hb (-1) 0 0)).
  vm_compute. discriminate.
Defined.

(** X7 (a command, end to end).  Eight 16-bit words sent with
    [pwm_host_set_all_u16] over an open socket, the datagram delivered
    whole to an idle device with an empty buffer and drained: the
    device sees one COMMAND frame with the library's sequence number
    and clock value, sets channel i to the duty of the word the host
    now holds in its shadow for channel i (the request clamped to
    10000), and refreshes its link timer. *)
Theorem X7_command_reaches_outputs (v : list Z) (now : Z) (h : host)
  (st : dev) :
  0 <= s_sock h -> length v = 8%nat ->
  Forall (fun w => 0 <= w < 65536) v ->
  0 <= now < 4294967296 ->
  s_rxbuf st = [] -> protocol_flag st = 0 ->
  exists h' frame st',
    pwm_host_set_all_u16 v now 30 h = (PWMH_OK, h', [frame]) /\
    s_shadow h' = map clamp_10000 v /\
    protocol_process (protocol_feed_bytes frame st)
    = Some (st',
            EvFrame MSG_PWM (u16 (s_seq h + 1)) now
                    (words_payload (s_shadow h'))
            :: map (fun i => EvSetDuty (Z.of_nat i + 1)
                                       (duty_of (nth i (s_shadow h') 0)))
                   (seq 0 8)) /\
    s_last_ok_rx_ms st' = hal_tick st.
Proof.
  intros Hsock Hlen Hv Hnow Hempty Hflag.
  rewrite pwm_host_set_all_u16_spec by exact Hsock. cbv zeta.
  change (30 =? 30) with true. cbv iota.
  rewrite (map_nth_seq8 clamp_10000 v Hlen).
  set (ws := map clamp_10000 v).
  assert (Hwl : length ws = 8%nat) by (unfold ws; rewrite length_map; exact Hlen).
  assert (Hwr : Forall (fun w => 0 <= w < 65536) ws).
  { unfold ws. apply List.Forall_map. eapply List.Forall_impl; [|exact Hv].
    intros w Hw. cbn beta in *.
    assert (0 <= clamp_10000 w <= 10000) by (apply clamp_10000_range; lia).
    lia. }
  assert (Hwc : Forall (fun w => 0 <= w <= 10000) ws).
  { unfold ws. apply List.Forall_map.
    eapply List.Forall_impl; [|exact Hv].
    intros w Hw. cbn beta in *. apply clamp_10000_range. lia. }
  set (frame := wire_frame MSG_PWM (u16 (s_seq h + 1)) now (words_payload ws)).
  assert (Hpl : (length (words_payload ws) <= 498)%nat)
    by (rewrite words_payload_length, Hwl; lia).
  destruct (feed_drain_one frame st) as (st' & Hrun & _ & _ & _ & Hlast);
    [apply wire_frame_is_frame; exact Hpl | exact Hempty | exact Hflag |].
  eexists _, frame, st'. split; [reflexivity|].
  cbn [s_shadow]. split; [reflexivity|]. split.
  - rewrite Hrun. unfold frame_trace, frame.
    rewrite wire_frame_event by (try apply u16_range; assumption).
    rewrite wire_pwm_effects by (try apply u16_range; assumption).
    do 3 f_equal.
    apply map_ext_in. intros i Hi. apply in_seq in Hi.
    rewrite clamp_10000_id; [reflexivity|].
    apply (proj1 (List.Forall_nth _ ws) Hwc i 0). lia.
  - rewrite Hlast. unfold is_live, frame. rewrite wire_frame_msg. reflexivity.
Qed.

Lemma X7_command_reaches_outputs_witness :
  exists h' frame st',
    pwm_host_set_all_u16 [0; 2500; 5000; 7500; 10000; 12000; 1; 65535] 77 30
                         PwmCtrl.host0
    = (PWMH_OK, h', [frame]) /\
    s_shadow h' = map clamp_10000 [0; 2500; 5000; 7500; 10000; 12000; 1; 65535] /\
    protocol_process (protocol_feed_bytes frame (fresh 40))
    = Some (st',
            EvFrame MSG_PWM (u16 (s_seq PwmCtrl.host0 + 1)) 77
                    (words_payload (s_shadow h'))
            :: map (fun i => EvSetDuty (Z.of_nat i + 1)
                                       (duty_of (nth i (s_shadow h') 0)))
                   (seq 0 8)) /\
    s_last_ok_rx_ms st' = hal_tick (fresh 40).
Proof.
  apply (X7_command_reaches_outputs
           [0; 2500; 5000; 7500; 10000; 12000; 1; 65535] 77 PwmCtrl.host0
           (fresh 40)).
  - vm_compute. discriminate.
  - reflexivity.
  - repeat constructor; vm_compute; congruence.
  - lia.
  - reflexivity.
  - reflexivity.
Defined.

(** X8 (a send that fails).  When [sendto] does not take the whole
    30-byte datagram, [pwm_host_set_all_u16] returns [PWMH_ESYS] and
    leaves [tx_pwm] alone, but the failure is counted twice in
    [tx_err] (once by [v1_send_frame], once by the caller), the
    sequence number is used up, and the shadow already holds the
    clamped request. *)
Theorem X8_failed_send_accounting (v : list Z) (now sent : Z) (h : host) :
  0 <= s_sock h -> sent <> 30 ->
  exists h' frame,
    pwm_host_set_all_u16 v now sent h = (PWMH_ESYS, h', [frame]) /\
    tx_err (s_stats h') = u64 (u64 (tx_err (s_stats h) + 1) + 1) /\
    tx_pwm (s_stats h') = tx_pwm (s_stats h) /\
    s_seq h' = u16 (s_seq h + 1) /\
    s_shadow h' = map (fun i => clamp_10000 (nth i v 0)) (seq 0 8).
Proof.
  intros Hsock Hsent.
  rewrite pwm_host_set_all_u16_spec by exact Hsock. cbv zeta.
  apply Z.eqb_neq in Hsent. rewrite Hsent.
  eexists _, _. split; [reflexivity|]. repeat split; reflexivity.
Qed.

Lemma X8_failed_send_accounting_witness :
  exists h' frame,
    pwm_host_set_all_u16 [1; 2; 3; 4; 5; 6; 7; 8] 5 (-1) PwmCtrl.host0
    = (PWMH_ESYS, h', [frame]) /\
    tx_err (s_stats h') = u64 (u64 (tx_err (s_stats PwmCtrl.host0) + 1) + 1) /\
    tx_pwm (s_stats h') = tx_pwm (s_stats PwmCtrl.host0) /\
    s_seq h' = u16 (s_seq PwmCtrl.host0 + 1) /\
    s_shadow h'
    = map (fun i => clamp_10000 (nth i [1; 2; 3; 4; 5; 6; 7; 8] 0)) (seq 0 8).
Proof.
  apply (X8_failed_send_accounting [1; 2; 3; 4; 5; 6; 7; 8] 5 (-1)
           PwmCtrl.host0).
  - vm_compute. discriminate.
  - lia.
Defined.

(** X10 (the acknowledgement, device to host).  The 14-byte frame
    [handle_msg_hb] builds for sequence number [sq] at tick [tick] is
    accepted by the library's [v1_try_parse_hb_ack], with or without
    bytes after it, and by the test sender's [try_parse_hb_ack] when
    it is the whole datagram; both return [sq] and [tick].  With any
    byte after it the test sender's parser rejects the datagram. *)
Theorem X10_ack_accepted_by_host_parsers (sq tick : Z) (trail : list Z) :
  0 <= sq < 65536 -> 0 <= tick < 4294967296 ->
  v1_try_parse_hb_ack (hb_ack_frame sq tick ++ trail) = Some (14, sq, tick) /\
  HostMain.try_parse_hb_ack (hb_ack_frame sq tick) = Some (sq, tick) /\
  (trail <> [] ->
   HostMain.try_parse_hb_ack (hb_ack_frame sq tick ++ trail) = None).
Proof.
  intros Hsq Htick. rewrite hb_ack_frame_wire. split; [|split].
  - apply v1_try_parse_hb_ack_wire; assumption.
  - apply try_parse_hb_ack_wire; assumption.
  - apply try_parse_hb_ack_long.
Qed.

Lemma X10_ack_accepted_by_host_parsers_witness :
  v1_try_parse_hb_ack (hb_ack_frame 7 123456 ++ [0xAA; 0x55])
  = Some (14, 7, 123456) /\
  HostMain.try_parse_hb_ack (hb_ack_frame 7 123456) = Some (7, 123456) /\
  HostMain.try_parse_hb_ack (hb_ack_frame 7 123456 ++ [0xAA; 0x55]) = None.
Proof.
  destruct (X10_ack_accepted_by_host_parsers 7 123456 [0xAA; 0x55])
    as (H1 & H2 & H3); [lia | lia |].
  split; [exact H1|]. split; [exact H2|]. apply H3. discriminate.
Defined.

(** X11 (heartbeat round trip and RTT).  A heartbeat sent with
    [pwm_host_send_heartbeat] over an open socket and delivered whole
    to an idle device with an empty buffer is dispatched as one
    HEARTBEAT frame and answered with one acknowledgement; when that
    acknowledgement is the datagram [pwm_host_poll] then finds, the
    poll returns 1, counts it in [rx_hb_ack] and sets the RTT to the
    32-bit difference between the clock read while handling it and
    the clock read when the heartbeat was sent -- unless that send
    clock read 0, in which case the RTT is left as it was. *)
Theorem X11_heartbeat_round_trip (now_ms now t_ack : Z) (h : host)
  (b : hb_state) (st : dev) :
  0 <= s_sock h -> 0 <= now < 4294967296 ->
  0 <= hal_tick st < 4294967296 ->
  s_rxbuf st = [] -> protocol_flag st = 0 ->
  exists h1 b1 hb_frame st' ack h2 b2,
    pwm_host_send_heartbeat now_ms now 14 h b
    = (PWMH_OK, h1, b1, [hb_frame]) /\
    protocol_process (protocol_feed_bytes hb_frame st)
    = Some (st', [EvFrame MSG_HB (u16 (s_seq h + 1)) now [];
                  EvUartTx ack]) /\
    pwm_host_poll 1 true [RxDatagram ack t_ack] h1 b1 = (1, h2, b2, []) /\
    rx_hb_ack (s_stats h2) = u64 (rx_hb_ack (s_stats h) + 1) /\
    s_last_rtt_ms b2
    = (if now_ms =? 0 then s_last_rtt_ms b else u32 (t_ack - now_ms)).
Proof.
  intros Hsock Hnow Htick Hempty Hflag.
  rewrite pwm_host_send_heartbeat_spec by exact Hsock. cbv zeta.
  change (14 =? 14) with true. cbv iota.
  set (sq := u16 (s_seq h + 1)).
  assert (Hsq : 0 <= sq < 65536) by apply u16_range.
  set (frame := wire_frame MSG_HB sq now []).
  destruct (feed_drain_one frame st) as (st' & Hrun & _);
    [apply wire_frame_is_frame; simpl; lia | exact Hempty | exact Hflag |].
  set (ack := hb_ack_frame sq (hal_tick st)).
  assert (Htrace : frame_trace (hal_tick st) frame
                   = [EvFrame MSG_HB sq now []; EvUartTx ack]).
  { unfold frame_trace, frame.
    rewrite wire_frame_event by (try assumption; simpl; lia).
    unfold frame_effects. rewrite wire_frame_msg, wire_frame_seq by assumption.
    reflexivity. }
  assert (Hparse : v1_try_parse_hb_ack (take (Z.to_nat RX_BUF_SIZE) ack)
                   = Some (14, sq, hal_tick st)).
  { change (take (Z.to_nat RX_BUF_SIZE) ack) with ack.
    pose proof (v1_try_parse_hb_ack_wire sq (hal_tick st) [] Hsq Htick) as H.
    rewrite app_nil_r in H. exact H. }
  eexists _, _, frame, st', ack, _, _.
  split; [reflexivity|]. split; [rewrite Hrun, Htrace; reflexivity|].
  unfold pwm_host_poll. cbn [s_sock].
  assert ((s_sock h <? 0) = false) as -> by (apply Z.ltb_ge; lia).
  change (1 <? 0) with false. change (1 =? 0) with false. cbn [negb].
  cbv iota. cbn [poll_loop].
  change (Z.of_nat (length (take (Z.to_nat RX_BUF_SIZE) ack)) =? 0) with false.
  cbv iota. rewrite Hparse.
  cbn [s_last_hb_seq s_last_hb_send_ticks s_last_rtt_ms].
  rewrite Z.eqb_refl. cbn [andb].
  split; [reflexivity|]. split; [reflexivity|].
  destruct (now_ms =? 0); reflexivity.
Qed.

Lemma X11_heartbeat_round_trip_witness :
  exists h1 b1 hb_frame st' ack h2 b2,
    pwm_host_send_heartbeat 1000 1001 14 PwmCtrl.host0 (mk_hb (-1) 0 0)
    = (PWMH_OK, h1, b1, [hb_frame]) /\
    protocol_process (protocol_feed_bytes hb_frame (fresh 40))
    = Some (st', [EvFrame MSG_HB (u16 (s_seq PwmCtrl.host0 + 1)) 1001 [];
                  EvUartTx ack]) /\
    pwm_host_poll 1 true [RxDatagram ack 1007] h1 b1 = (1, h2, b2, []) /\
    rx_hb_ack (s_stats h2) = u64 (rx_hb_ack (s_stats PwmCtrl.host0) + 1) /\
    s_last_rtt_ms b2
    = (if 1000 =? 0 then s_last_rtt_ms (mk_hb (-1) 0 0) else u32 (1007 - 1000)).
Proof.
  apply (X11_heartbeat_round_trip 1000 1001 1007 PwmCtrl.host0 (mk_hb (-1) 0 0)
           (fresh 40)).
  - vm_compute. discriminate.
  - lia.
  - vm_compute. split; [discriminate | reflexivity].
  - reflexivity.
  - reflexivity.
Defined.

(** X12 (what a poll counts).  With an open socket and a readable
    descriptor, [pwm_host_poll] over a queue of non-empty datagrams
    empties the queue and returns their number, whether or not they
    parse; [rx_hb_ack] grows by the number of them that parse as an
    acknowledgement and [rx_err] is unchanged; and unless one of them
    is an acknowledgement carrying the sequence number of the last
    heartbeat, the heartbeat record and the RTT are left alone. *)
Theorem X12_poll_counts_every_datagram (nsel : Z) (q : list (list Z * Z))
  (h : host) (b : hb_state) :
  0 <= s_sock h -> 0 < nsel ->
  Forall (fun d => fst d <> []) q ->
  0 <= rx_hb_ack (s_stats h) < 18446744073709551616 ->
  exists h' b',
    pwm_host_poll nsel true (datagrams q) h b
    = (Z.of_nat (length q), h', b', []) /\
    rx_hb_ack (s_stats h')
    = u64 (rx_hb_ack (s_stats h)
           + Z.of_nat (length (List.filter (fun d => is_ack (fst d)) q))) /\
    rx_err (s_stats h') = rx_err (s_stats h) /\
    (Forall (fun d => ack_seq (fst d) <> Some (s_last_hb_seq b)) q -> b' = b).
Proof.
  intros Hsock Hsel Hq Hr. unfold pwm_host_poll.
  assert ((s_sock h <? 0) = false) as -> by (apply Z.ltb_ge; lia).
  assert ((nsel <? 0) = false) as -> by (apply Z.ltb_ge; lia).
  assert ((nsel =? 0) = false) as -> by (apply Z.eqb_neq; lia).
  cbn [negb]. cbv iota.
  destruct (poll_loop_datagrams q 0 h b Hq Hr)
    as (h' & b' & Hrun & _ & _ & _ & Hst & Hb).
  exists h', b'. split; [rewrite Hrun; reflexivity|].
  rewrite Hst. cbn [rx_hb_ack rx_err]. repeat split. exact Hb.
Qed.

Lemma X12_poll_counts_every_datagram_witness :
  exists h' b',
    pwm_host_poll 1 true
      (datagrams [(hb_ack_frame 3 50, 10); ([0x01; 0x02], 11);
                  (hb_ack_frame 9 60, 12)])
      PwmCtrl.host0 (mk_hb (-1) 4 900)
    = (Z.of_nat 3, h', b', []) /\
    rx_hb_ack (s_stats h')
    = u64 (rx_hb_ack (s_stats PwmCtrl.host0)
           + Z.of_nat (length (List.filter (fun d => is_ack (fst d))
                                 [(hb_ack_frame 3 50, 10); ([0x01; 0x02], 11);
                                  (hb_ack_frame 9 60, 12)]))) /\
    rx_err (s_stats h') = rx_err (s_stats PwmCtrl.host0) /\
    b' = mk_hb (-1) 4 900.
Proof.
  destruct (X12_poll_counts_every_datagram 1
              [(hb_ack_frame 3 50, 10); ([0x01; 0x02], 11);
               (hb_ack_frame 9 60, 12)]
              PwmCtrl.host0 (mk_hb (-1) 4 900))
    as (h' & b' & H1 & H2 & H3 & H4).
  - vm_compute. discriminate.
  - lia.
  - repeat constructor; discriminate.
  - vm_compute. split; [discriminate | reflexivity].
  - exists h', b'. repeat split; try assumption.
    apply H4. repeat constructor; vm_compute; discriminate.
Defined.

End HostExtras.

Module PercentExtras.
Import Bits BitsFacts PwmHost PwmHostRx HostRxFacts PercentFacts.
Local Open Scope Q_scope.

(** X14 (the percentage map is monotone and bounded).  For any two
    percentages in order, of any size or sign, the words
    [pwm_host_percent_to_u16] gives are in the same order and within
    0..10000. *)
Theorem X14_percent_to_u16_monotone (p q : Q) :
  p <= q ->
  (0 <= pwm_host_percent_to_u16 p)%Z /\
  (pwm_host_percent_to_u16 p <= pwm_host_percent_to_u16 q)%Z /\
  (pwm_host_percent_to_u16 q <= 10000)%Z.
Proof.
  intros Hpq.
  destruct (pwm_host_percent_to_u16_scaled p) as (-> & Hrp).
  destruct (pwm_host_percent_to_u16_scaled q) as (-> & Hrq).
  split; [lia|]. split; [|lia].
  apply float_to_int_mono.
  - pose proof (scaled_range p). lra.
  - rewrite !scaled_eq.
    destruct (Qlt_le_dec p 5), (Qlt_le_dec q 5); try lra;
      destruct (Qlt_le_dec 10 p), (Qlt_le_dec 10 q); lra.
Qed.

Lemma X14_percent_to_u16_monotone_witness :
  (0 <= pwm_host_percent_to_u16 (-3))%Z /\
  (pwm_host_percent_to_u16 (-3) <= pwm_host_percent_to_u16 (15 # 2))%Z /\
  (pwm_host_percent_to_u16 (15 # 2) <= 10000)%Z.
Proof.
  apply (X14_percent_to_u16_monotone (-3) (15 # 2)).
  apply Qle_bool_imp_le. reflexivity.
Defined.

End PercentExtras.

(* ================================================================== *)
(** ** The shaper between two initialisations *)
(* ================================================================== *)

Module ShaperStopFacts.
Import Bits PwmHost PwmHostRx PwmCtrl.
Import ShaperFacts.
Import PercentFacts.
Local Open Scope Q_scope.

(** A step of any kind leaves a channel outside the mask of this call
    where it was. *)
Lemma pwm_ctrl_step_inactive now sent c h i :
  (i < 8)%nat ->
  ch_in_mask (Z.of_nat i + 1) (fst (active_mask_for_this_step c)) = false ->
  cur_at (snd (fst (fst (pwm_ctrl_step now sent c h)))) i = cur_at c i.
Proof.
  intros Hi Hout.
  pose proof (pwm_ctrl_step_kind now sent c h) as Hk. cbv zeta in Hk.
  destruct (pwm_ctrl_step now sent c h) as [[[rc c'] h'] out].
  cbn [fst snd] in *.
  pose proof (active_mask_fields c) as Hf. cbv zeta in Hf.
  destruct Hf as (_ & _ & F3 & _ & _).
  destruct Hk as [_ _ ->|_ _ ->|_ _ _ _ _ Hcur _ _].
  - reflexivity.
  - unfold cur_at. rewrite F3. reflexivity.
  - unfold cur_at at 1. rewrite Hcur.
    rewrite nth_map_seq by (unfold PWM_HOST_CH_NUM; lia).
    apply next_pct_at_inactive, Hout.
Qed.

(** With alternating groups, the masks of two calls in a row are the
    two group masks, in one order or the other. *)
Lemma alternate_masks c :
  group_mode (s_cfg c) <> PWM_CTRL_GROUP_MODE_ALL ->
  let m := fst (active_mask_for_this_step c) in
  let g := s_group_toggle (snd (active_mask_for_this_step c)) in
  (m = groupA_mask (s_cfg c) \/ m = groupB_mask (s_cfg c)) /\
  (forall c', s_cfg c' = s_cfg c -> s_group_toggle c' = g ->
     (m = groupA_mask (s_cfg c) /\
      fst (active_mask_for_this_step c') = groupB_mask (s_cfg c)) \/
     (m = groupB_mask (s_cfg c) /\
      fst (active_mask_for_this_step c') = groupA_mask (s_cfg c))).
Proof.
  intros Hmode. cbv zeta. unfold active_mask_for_this_step.
  assert ((group_mode (s_cfg c) =? PWM_CTRL_GROUP_MODE_ALL)%Z = false) as E
    by (apply Z.eqb_neq, Hmode).
  rewrite E.
  destruct (s_group_toggle c =? 0)%Z; cbn [fst snd set_toggle s_group_toggle].
  - split; [left; reflexivity|]. intros c' Hc Hg. left.
    split; [reflexivity|]. rewrite Hc, E, Hg. reflexivity.
  - split; [right; reflexivity|]. intros c' Hc Hg. right.
    split; [reflexivity|]. rewrite Hc, E, Hg. reflexivity.
Qed.

End ShaperStopFacts.

(* ================================================================== *)
(** ** The shaper over whole runs *)
(* ================================================================== *)

Module ShaperExtras.
Import Bits BitsFacts Device DeviceFacts PwmHost PwmHostRx PwmCtrl.
Import Stream StreamFacts Wire WireFacts HostRxFacts PercentFacts.
Import ShaperFacts.
Import ShaperStopFacts.
Local Open Scope Q_scope.

(** X19 (a channel of neither group is never driven).  With
    alternating groups, a channel whose bit is in neither group mask
    keeps its current value over any run of [pwm_ctrl_step] calls,
    whatever its target and whatever each send returns. *)
Theorem X19_ungrouped_channel_never_moves (env : list (Z * Z)) (c : ctrl)
  (h : host) (i : nat) :
  (i < 8)%nat ->
  group_mode (s_cfg c) <> PWM_CTRL_GROUP_MODE_ALL ->
  ch_in_mask (Z.of_nat i + 1) (groupA_mask (s_cfg c)) = false ->
  ch_in_mask (Z.of_nat i + 1) (groupB_mask (s_cfg c)) = false ->
  cur_after env c h i = cur_at c i.
Proof.
  intros Hi. revert c h.
  induction env as [|[now sent] rest IH]; intros c h Hmode Ha Hb;
    [reflexivity|].
  unfold cur_after. cbn [run_steps].
  assert (Hout : ch_in_mask (Z.of_nat i + 1)
                            (fst (active_mask_for_this_step c)) = false).
  { destruct (alternate_masks c Hmode) as [[E|E] _]; rewrite E; assumption. }
  pose proof (pwm_ctrl_step_inactive now sent c h i Hi Hout) as Hkeep.
  pose proof (pwm_ctrl_step_kind now sent c h) as Hk. cbv zeta in Hk.
  destruct (pwm_ctrl_step now sent c h) as [[[rc c1] h1] out].
  cbn [fst snd] in *.
  assert (Hc1 : s_cfg c1 = s_cfg c).
  { pose proof (active_mask_fields c) as Hf. cbv zeta in Hf.
    destruct Hf as (_ & F2 & _).
    destruct Hk as [_ _ ->|_ _ ->|_ _ _ Hcfg _ _ _ _];
      [reflexivity | exact F2 | exact Hcfg]. }
  rewrite <- Hkeep. apply IH; rewrite Hc1; assumption.
Qed.

Lemma X19_ungrouped_channel_never_moves_witness :
  let k := mk_cfg 50 (1 # 5) 5 (15 # 2) 10 1 0x03 0x0C
                  PWM_CTRL_GROUP_MODE_AB_ALTERNATE in
  cur_after [(0, 30); (20, 30); (40, 7)]%Z (shaper_at k 6 9) host0 5
  = cur_at (shaper_at k 6 9) 5.
Proof.
  apply (X19_ungrouped_channel_never_moves [(0, 30); (20, 30); (40, 7)]%Z
           (shaper_at (mk_cfg 50 (1 # 5) 5 (15 # 2) 10 1 0x03 0x0C
                              PWM_CTRL_GROUP_MODE_AB_ALTERNATE) 6 9)
           host0 5).
  - lia.
  - vm_compute. discriminate.
  - reflexivity.
  - reflexivity.
Defined.

End ShaperExtras.

(* ================================================================== *)
(** ** The blocking ramp *)
(* ================================================================== *)

(* ================================================================== *)
(** ** Rounding: order, exact cases *)
(* ================================================================== *)

Module FltFacts.
Import Flt.
Local Open Scope Z_scope.

Lemma rne_div_spec (a b : Z) : 0 < b -> rne_spec a b (rne_div a b).
Proof.
  intros Hb. unfold rne_div, rne_spec.
  pose proof (Z.div_mod a b ltac:(lia)) as Hdm.
  pose proof (Z.mod_pos_bound a b Hb) as Hr.
  set (q := a / b) in *. set (r := a mod b) in *.
  clearbody q r. subst a.
  destruct (Z.compare_spec (2 * r) b) as [E|E|E].
  - destruct (Z.even q) eqn:Ev.
    + split; [nia|]. intros _. exact Ev.
    + split; [nia|]. intros _. rewrite Z.even_add, Ev. reflexivity.
  - split; [nia|]. intros [H|H]; nia.
  - split; [nia|]. intros [H|H]; nia.
Qed.

Lemma rne_spec_mono (a1 b1 m1 a2 b2 m2 : Z) :
  0 < b1 -> 0 < b2 -> a1 * b2 <= a2 * b1 ->
  rne_spec a1 b1 m1 -> rne_spec a2 b2 m2 -> m1 <= m2.
Proof.
  intros Hb1 Hb2 Hle [[L1 U1] T1] [[L2 U2] T2].
  destruct (Z_le_gt_dec m1 m2) as [H|H]; [exact H|exfalso].
  assert (Hk : (2 * m1 - 1) * (b1 * b2) <= (2 * m2 + 1) * (b1 * b2)) by nia.
  assert (Hm : m1 = m2 + 1) by nia.
  subst m1.
  assert (E1 : 2 * a1 = (2 * (m2 + 1) - 1) * b1) by nia.
  assert (E2 : 2 * a2 = (2 * m2 + 1) * b2) by nia.
  specialize (T1 (or_intror E1)). specialize (T2 (or_introl E2)).
  rewrite Z.even_add, T2 in T1. discriminate.
Qed.

Lemma rne_div_mono (a1 b1 a2 b2 : Z) :
  0 < b1 -> 0 < b2 -> a1 * b2 <= a2 * b1 ->
  rne_div a1 b1 <= rne_div a2 b2.
Proof.
  intros Hb1 Hb2 Hle.
  apply (rne_spec_mono a1 b1 _ a2 b2 _ Hb1 Hb2 Hle);
    apply rne_div_spec; assumption.
Qed.

Lemma rne_spec_unique (a b m m' : Z) :
  0 < b -> rne_spec a b m -> rne_spec a b m' -> m = m'.
Proof.
  intros Hb H1 H2.
  pose proof (rne_spec_mono a b m a b m' Hb Hb ltac:(lia) H1 H2).
  pose proof (rne_spec_mono a b m' a b m Hb Hb ltac:(lia) H2 H1).
  lia.
Qed.

Lemma rne_div_exact (k b : Z) : 0 < b -> rne_div (k * b) b = k.
Proof.
  intros Hb. apply (rne_spec_unique (k * b) b); [exact Hb | |].
  - apply rne_div_spec, Hb.
  - split; [nia|]. intros [H|H]; nia.
Qed.

Lemma rne_div_opp (a b : Z) : 0 < b -> rne_div (- a) b = - rne_div a b.
Proof.
  intros Hb. apply (rne_spec_unique (- a) b); [exact Hb | |].
  - apply rne_div_spec, Hb.
  - destruct (rne_div_spec a b Hb) as [[L U] T].
    split; [nia|]. rewrite Z.even_opp.
    intros [H|H]; apply T; [right | left]; nia.
Qed.

Lemma div_le_cross (a1 b1 a2 b2 : Z) :
  0 < b1 -> 0 < b2 -> a1 * b2 <= a2 * b1 -> a1 / b1 <= a2 / b2.
Proof.
  intros Hb1 Hb2 Hle.
  apply Z.div_le_lower_bound; [exact Hb2|].
  pose proof (Z.mul_div_le a1 b1 Hb1). nia.
Qed.

Lemma pow2_pos (k : Z) : 0 <= k -> 0 < 2 ^ k.
Proof. intros H. apply Z.pow_pos_nonneg; lia. Qed.

Lemma pow2_le (j k : Z) : 0 <= j <= k -> 2 ^ j <= 2 ^ k.
Proof. intros H. apply Z.pow_le_mono_r; lia. Qed.

Lemma pow2_split (j k : Z) : 0 <= j <= k -> 2 ^ k = 2 ^ (k - j) * 2 ^ j.
Proof.
  intros H. rewrite <- Z.pow_add_r by lia. f_equal. lia.
Qed.

Section Rounding.
Variable fmt : format.
Hypothesis Hfmt : format_ok fmt.

Lemma one_pos : 0 < one fmt.
Proof. destruct Hfmt as (_ & H & _). apply pow2_pos. lia. Qed.

Lemma huge_pos : 0 < huge fmt.
Proof. destruct Hfmt as (H1 & H2 & H3). apply pow2_pos. lia. Qed.

Lemma ulp_shift_nonneg (a b : Z) : 0 <= ulp_shift fmt a b.
Proof. unfold ulp_shift. lia. Qed.

Lemma ulp_shift_opp (a b : Z) : ulp_shift fmt (- a) b = ulp_shift fmt a b.
Proof. unfold ulp_shift. rewrite Z.abs_opp. reflexivity. Qed.

Lemma ulp_shift_mono (a1 b1 a2 b2 : Z) :
  0 < b1 -> 0 < b2 -> 0 <= a1 -> a1 * b2 <= a2 * b1 ->
  ulp_shift fmt a1 b1 <= ulp_shift fmt a2 b2.
Proof.
  intros Hb1 Hb2 Ha Hle. unfold ulp_shift.
  assert (Ha2 : 0 <= a2) by nia.
  rewrite !Z.abs_eq by assumption.
  pose proof (div_le_cross a1 b1 a2 b2 Hb1 Hb2 Hle) as Hd.
  pose proof (Z.log2_le_mono _ _ Hd). lia.
Qed.

(** Below the top of its binade. *)
Lemma ulp_shift_hi (a b : Z) :
  0 < b -> Z.abs a < 2 ^ (ulp_shift fmt a b + f_prec fmt) * b.
Proof.
  intros Hb. destruct Hfmt as (Hp & _ & _).
  set (s := ulp_shift fmt a b).
  assert (Hs : Z.log2 (Z.abs a / b) + 1 - f_prec fmt <= s /\ 0 <= s)
    by (unfold s, ulp_shift; lia).
  set (F := Z.abs a / b) in *.
  assert (HF : 0 <= F) by (apply Z.div_pos; lia).
  assert (HF2 : F < 2 ^ (s + f_prec fmt)).
  { destruct (Z.eq_dec F 0) as [E|E].
    - rewrite E. apply pow2_pos. lia.
    - apply Z.log2_lt_pow2; lia. }
  pose proof (Z.div_mod (Z.abs a) b ltac:(lia)) as Hdm.
  pose proof (Z.mod_pos_bound (Z.abs a) b Hb) as Hr.
  fold F in Hdm. nia.
Qed.

(** At or above the bottom of its binade, once above the smallest. *)
Lemma ulp_shift_lo (a b : Z) :
  0 < b -> 0 < ulp_shift fmt a b ->
  2 ^ (ulp_shift fmt a b + f_prec fmt - 1) * b <= Z.abs a.
Proof.
  intros Hb Hs. destruct Hfmt as (Hp & _ & _).
  unfold ulp_shift in *.
  set (F := Z.abs a / b) in *.
  assert (HF : 0 <= F) by (apply Z.div_pos; lia).
  assert (E : Z.max 0 (Z.log2 F + 1 - f_prec fmt) = Z.log2 F + 1 - f_prec fmt)
    by lia.
  rewrite E in *.
  replace (Z.log2 F + 1 - f_prec fmt + f_prec fmt - 1) with (Z.log2 F) by lia.
  assert (HFpos : 0 < F).
  { destruct (Z.eq_dec F 0) as [E0|E0]; [|lia].
    rewrite E0 in Hs. cbn in Hs. lia. }
  pose proof (Z.log2_spec F HFpos) as [Hlo _].
  pose proof (Z.mul_div_le (Z.abs a) b Hb). fold F in H. nia.
Qed.

Lemma round_units_opp (a b : Z) :
  0 < b -> round_units fmt (- a) b = - round_units fmt a b.
Proof.
  intros Hb. unfold round_units. rewrite ulp_shift_opp.
  rewrite rne_div_opp; [lia|].
  pose proof (pow2_pos (ulp_shift fmt a b) (ulp_shift_nonneg a b)). nia.
Qed.

Lemma round_units_nonneg (a b : Z) :
  0 < b -> 0 <= a -> 0 <= round_units fmt a b.
Proof.
  intros Hb Ha. unfold round_units.
  pose proof (pow2_pos (ulp_shift fmt a b) (ulp_shift_nonneg a b)) as Hp.
  assert (0 <= rne_div a (b * 2 ^ ulp_shift fmt a b)).
  { rewrite <- (rne_div_exact 0 (b * 2 ^ ulp_shift fmt a b)) at 1 by nia.
    apply rne_div_mono; nia. }
  nia.
Qed.

(** A multiple of the spacing at [a / b] is its own rounding on that
    grid. *)
Lemma rne_on_grid (k s b : Z) :
  0 < b -> 0 <= s -> rne_div (k * 2 ^ s * b) (b * 2 ^ s) = k.
Proof.
  intros Hb Hs. pose proof (pow2_pos s Hs).
  replace (k * 2 ^ s * b) with (k * (b * 2 ^ s)) by ring.
  apply rne_div_exact. nia.
Qed.

Lemma round_units_mono_nonneg (a1 b1 a2 b2 : Z) :
  0 < b1 -> 0 < b2 -> 0 <= a1 -> a1 * b2 <= a2 * b1 ->
  round_units fmt a1 b1 <= round_units fmt a2 b2.
Proof.
  intros Hb1 Hb2 Ha1 Hle. destruct Hfmt as (Hp & _ & _).
  assert (Ha2 : 0 <= a2) by nia.
  pose proof (ulp_shift_mono a1 b1 a2 b2 Hb1 Hb2 Ha1 Hle) as Hs.
  pose proof (ulp_shift_nonneg a1 b1) as Hs1.
  pose proof (ulp_shift_hi a1 b1 Hb1) as Hhi1.
  unfold round_units.
  set (s1 := ulp_shift fmt a1 b1) in *. set (s2 := ulp_shift fmt a2 b2) in *.
  pose proof (pow2_pos s1 Hs1) as P1.
  pose proof (pow2_pos s2 ltac:(lia)) as P2.
  destruct (Z.eq_dec s1 s2) as [E|E].
  - rewrite <- E.
    assert (rne_div a1 (b1 * 2 ^ s1) <= rne_div a2 (b2 * 2 ^ s1))
      by (apply rne_div_mono; nia).
    nia.
  - assert (Hlt : s1 < s2) by lia.
    pose proof (ulp_shift_lo a2 b2 Hb2 ltac:(fold s2; lia)) as Hlo2.
    fold s2 in Hlo2. rewrite Z.abs_eq in Hlo2, Hhi1 by assumption.
    set (B := 2 ^ (s2 + f_prec fmt - 1)) in *.
    assert (HB1 : B = 2 ^ (s2 + f_prec fmt - 1 - s1) * 2 ^ s1)
      by (unfold B; apply pow2_split; lia).
    assert (HB2 : B = 2 ^ (f_prec fmt - 1) * 2 ^ s2).
    { unfold B. rewrite (pow2_split s2) by lia. f_equal. f_equal. lia. }
    assert (Hle1 : 2 ^ (s1 + f_prec fmt) <= B)
      by (unfold B; apply pow2_le; lia).
    assert (H1 : rne_div a1 (b1 * 2 ^ s1) * 2 ^ s1 <= B).
    { assert (Hg : rne_div (B * b1) (b1 * 2 ^ s1)
                   = 2 ^ (s2 + f_prec fmt - 1 - s1))
        by (rewrite HB1; apply rne_on_grid; lia).
      assert (Hab : a1 <= B * b1).
      { assert (2 ^ (s1 + f_prec fmt) * b1 <= B * b1)
          by (apply Z.mul_le_mono_nonneg_r; lia).
        lia. }
      assert (rne_div a1 (b1 * 2 ^ s1) <= rne_div (B * b1) (b1 * 2 ^ s1)).
      { apply rne_div_mono; [nia | nia |].
        apply Z.mul_le_mono_nonneg_r; [nia | exact Hab]. }
      rewrite Hg in H. rewrite HB1.
      apply Z.mul_le_mono_nonneg_r; [lia | exact H]. }
    assert (H2 : B <= rne_div a2 (b2 * 2 ^ s2) * 2 ^ s2).
    { assert (Hg : rne_div (B * b2) (b2 * 2 ^ s2) = 2 ^ (f_prec fmt - 1))
        by (rewrite HB2; apply rne_on_grid; lia).
      assert (rne_div (B * b2) (b2 * 2 ^ s2) <= rne_div a2 (b2 * 2 ^ s2)).
      { apply rne_div_mono; [nia | nia |].
        apply Z.mul_le_mono_nonneg_r; [nia | exact Hlo2]. }
      rewrite Hg in H. rewrite HB2 at 1.
      apply Z.mul_le_mono_nonneg_r; [lia | exact H]. }
    lia.
Qed.

Lemma round_units_mono (a1 b1 a2 b2 : Z) :
  0 < b1 -> 0 < b2 -> a1 * b2 <= a2 * b1 ->
  round_units fmt a1 b1 <= round_units fmt a2 b2.
Proof.
  intros Hb1 Hb2 Hle.
  destruct (Z_le_gt_dec 0 a1) as [Ha1|Ha1].
  - apply round_units_mono_nonneg; assumption.
  - destruct (Z_le_gt_dec 0 a2) as [Ha2|Ha2].
    + pose proof (round_units_nonneg a2 b2 Hb2 Ha2).
      pose proof (round_units_nonneg (- a1) b1 Hb1 ltac:(lia)) as H1.
      rewrite round_units_opp in H1 by exact Hb1. lia.
    + pose proof (round_units_mono_nonneg (- a2) b2 (- a1) b1 Hb2 Hb1
                    ltac:(lia) ltac:(nia)) as H.
      rewrite !round_units_opp in H by assumption. lia.
Qed.

Lemma rank_overflow (n : Z) :
  rank fmt (overflow fmt n) = Z.max (- huge fmt) (Z.min (huge fmt) n).
Proof.
  pose proof huge_pos as Hh. unfold overflow.
  destruct (huge fmt <=? Z.abs n) eqn:E;
    [apply Z.leb_le in E | apply Z.leb_gt in E].
  - destruct (n <? 0) eqn:En;
      [apply Z.ltb_lt in En | apply Z.ltb_ge in En]; cbn [rank]; lia.
  - cbn [rank]. lia.
Qed.

(** Rounding keeps the order. *)
Lemma round_mono (a1 b1 a2 b2 : Z) :
  0 < b1 -> 0 < b2 -> a1 * b2 <= a2 * b1 ->
  rank fmt (round fmt a1 b1) <= rank fmt (round fmt a2 b2).
Proof.
  intros Hb1 Hb2 Hle. unfold round. rewrite !rank_overflow.
  pose proof (round_units_mono a1 b1 a2 b2 Hb1 Hb2 Hle). lia.
Qed.

Lemma rank_round_bounds (a b : Z) :
  - huge fmt <= rank fmt (round fmt a b) <= huge fmt.
Proof.
  pose proof huge_pos. unfold round. rewrite rank_overflow. lia.
Qed.

Lemma representable_spec (n : Z) :
  representable fmt n = true <->
  (2 ^ ulp_shift fmt n 1 | n) /\ Z.abs n < huge fmt.
Proof.
  unfold representable. rewrite andb_true_iff, Z.eqb_eq, Z.ltb_lt.
  pose proof (pow2_pos _ (ulp_shift_nonneg n 1)) as Hp.
  rewrite Z.mod_divide by lia. reflexivity.
Qed.

Lemma ulp_shift_units (n b : Z) :
  0 < b -> ulp_shift fmt (n * b) b = ulp_shift fmt n 1.
Proof.
  intros Hb. unfold ulp_shift.
  rewrite Z.abs_mul, (Z.abs_eq b) by lia.
  rewrite Z.div_mul by lia. rewrite Z.div_1_r. reflexivity.
Qed.

(** A number of the format is its own rounding. *)
Lemma round_exact (n b : Z) :
  0 < b -> representable fmt n = true -> round fmt (n * b) b = Fin n.
Proof.
  intros Hb Hr. apply representable_spec in Hr. destruct Hr as [[k Hk] Hh].
  unfold round, round_units. rewrite ulp_shift_units by exact Hb.
  set (s := ulp_shift fmt n 1) in *.
  assert (Hs : 0 <= s) by apply ulp_shift_nonneg.
  rewrite Hk at 1.
  rewrite rne_on_grid by assumption. rewrite <- Hk.
  unfold overflow.
  assert ((huge fmt <=? Z.abs n) = false) as -> by (apply Z.leb_gt; exact Hh).
  reflexivity.
Qed.

Lemma rne_div_abs_le (a b K : Z) :
  0 < b -> Z.abs a <= K * b -> Z.abs (rne_div a b) <= K.
Proof.
  intros Hb Ha.
  assert (H1 : rne_div a b <= K).
  { rewrite <- (rne_div_exact K b Hb). apply rne_div_mono; nia. }
  assert (H2 : - K <= rne_div a b).
  { rewrite <- (rne_div_exact (- K) b Hb). apply rne_div_mono; nia. }
  lia.
Qed.

(** What rounding gives, short of overflow, is a number of the
    format. *)
Lemma round_units_representable (a b : Z) :
  0 < b -> Z.abs (round_units fmt a b) < huge fmt ->
  representable fmt (round_units fmt a b) = true.
Proof.
  intros Hb Hh. destruct Hfmt as (Hp & _ & _).
  apply representable_spec. split; [|exact Hh].
  unfold round_units in *.
  set (s := ulp_shift fmt a b) in *.
  assert (Hs : 0 <= s) by apply ulp_shift_nonneg.
  pose proof (pow2_pos s Hs) as Ps.
  pose proof (pow2_pos (f_prec fmt) ltac:(lia)) as Pp.
  set (m := rne_div a (b * 2 ^ s)) in *.
  assert (Hm : Z.abs m <= 2 ^ f_prec fmt).
  { apply rne_div_abs_le; [nia|].
    pose proof (ulp_shift_hi a b Hb) as Hhi. fold s in Hhi.
    rewrite Z.pow_add_r in Hhi by lia. nia. }
  set (n := m * 2 ^ s).
  assert (Hn : Z.abs n = Z.abs m * 2 ^ s)
    by (unfold n; rewrite Z.abs_mul, (Z.abs_eq (2 ^ s)) by lia; reflexivity).
  destruct (Z.eq_dec (Z.abs m) (2 ^ f_prec fmt)) as [E|E].
  - (* carried into the next binade *)
    assert (Habs : Z.abs n = 2 ^ (f_prec fmt + s))
      by (rewrite Hn, E, Z.pow_add_r by lia; reflexivity).
    assert (Hu : ulp_shift fmt n 1 = s + 1).
    { unfold ulp_shift. rewrite Z.div_1_r, Habs, Z.log2_pow2 by lia. lia. }
    rewrite Hu.
    assert (Hd : (2 ^ (s + 1) | Z.abs n)).
    { rewrite Habs. exists (2 ^ (f_prec fmt - 1)).
      rewrite <- Z.pow_add_r by lia. f_equal. lia. }
    apply (proj1 (Z.divide_abs_r (2 ^ (s + 1)) n)). exact Hd.
  - assert (Hlt : Z.abs n < 2 ^ (f_prec fmt + s)).
    { rewrite Hn, Z.pow_add_r by lia. nia. }
    assert (Hu : ulp_shift fmt n 1 <= s).
    { unfold ulp_shift. rewrite Z.div_1_r.
      destruct (Z.eq_dec (Z.abs n) 0) as [E0|E0].
      - rewrite E0. cbn. lia.
      - assert (Z.log2 (Z.abs n) < f_prec fmt + s)
          by (apply Z.log2_lt_pow2; lia).
        lia. }
    pose proof (ulp_shift_nonneg n 1) as Hu0.
    apply Z.divide_trans with (2 ^ s).
    + exists (2 ^ (s - ulp_shift fmt n 1)).
      apply pow2_split. lia.
    + exists m. reflexivity.
Qed.

Lemma round_is_num (a b : Z) : 0 < b -> is_num fmt (round fmt a b) = true.
Proof.
  intros Hb. unfold round, overflow.
  destruct (huge fmt <=? Z.abs (round_units fmt a b)) eqn:E.
  - destruct (round_units fmt a b <? 0); reflexivity.
  - apply Z.leb_gt in E. cbn [is_num].
    apply round_units_representable; assumption.
Qed.

Lemma representable_opp (n : Z) :
  representable fmt (- n) = representable fmt n.
Proof.
  apply eq_iff_eq_true. rewrite !representable_spec.
  rewrite ulp_shift_opp, Z.abs_opp, Z.divide_opp_r. reflexivity.
Qed.

(** The comparisons of two numbers, read on their ranks. *)
Lemma leb_rank (x y : fl) :
  is_num fmt x = true -> is_num fmt y = true ->
  (leb x y = true <-> rank fmt x <= rank fmt y).
Proof.
  pose proof huge_pos as Hh.
  destruct x as [a| | |], y as [b| | |]; cbn [is_num leb rank];
    intros Hx Hy; try discriminate;
    try (apply representable_spec in Hx; destruct Hx as [_ Hx]);
    try (apply representable_spec in Hy; destruct Hy as [_ Hy]);
    rewrite ?Z.leb_le; split; intros H; try reflexivity; try lia;
    try discriminate.
Qed.

Lemma ltb_rank (x y : fl) :
  is_num fmt x = true -> is_num fmt y = true ->
  (ltb x y = true <-> rank fmt x < rank fmt y).
Proof.
  pose proof huge_pos as Hh.
  destruct x as [a| | |], y as [b| | |]; cbn [is_num ltb rank];
    intros Hx Hy; try discriminate;
    try (apply representable_spec in Hx; destruct Hx as [_ Hx]);
    try (apply representable_spec in Hy; destruct Hy as [_ Hy]);
    rewrite ?Z.ltb_lt; split; intros H; try reflexivity; try lia;
    try discriminate.
Qed.

Lemma ltb_false_rank (x y : fl) :
  is_num fmt x = true -> is_num fmt y = true ->
  (ltb x y = false <-> rank fmt y <= rank fmt x).
Proof.
  intros Hx Hy. pose proof (ltb_rank x y Hx Hy) as H.
  destruct (ltb x y); split; intros; try discriminate; try reflexivity.
  - assert (rank fmt x < rank fmt y) by (apply H; reflexivity). lia.
  - destruct (Z_lt_le_dec (rank fmt x) (rank fmt y)) as [L|L]; [|exact L].
    apply H in L. discriminate.
Qed.

Lemma representable_abs_lt (n : Z) :
  representable fmt n = true -> Z.abs n < huge fmt.
Proof. intros H. apply representable_spec in H. tauto. Qed.

Lemma rank_neg (x : fl) : rank fmt (neg x) = - rank fmt x.
Proof. destruct x; cbn [neg rank]; lia. Qed.

Lemma is_num_neg (x : fl) : is_num fmt (neg x) = is_num fmt x.
Proof. destruct x; cbn [neg is_num]; auto using representable_opp. Qed.

Lemma rank_abs (x : fl) : rank fmt (abs x) = Z.abs (rank fmt x).
Proof.
  pose proof huge_pos. destruct x; cbn [abs rank]; lia.
Qed.

Lemma is_num_abs (x : fl) : is_num fmt (abs x) = is_num fmt x.
Proof.
  destruct x as [n| | |]; cbn [abs is_num]; try reflexivity.
  destruct (Z.abs_spec n) as [[_ ->]|[_ ->]];
    [reflexivity | apply representable_opp].
Qed.

(** A sum or difference that is a number of the format is not
    rounded. *)
Lemma add_exact (a b : Z) :
  representable fmt (a + b) = true -> add fmt (Fin a) (Fin b) = Fin (a + b).
Proof.
  intros H. cbn [add].
  rewrite <- (Z.mul_1_r (a + b)) at 1. apply round_exact; [lia | exact H].
Qed.

Lemma sub_exact (a b : Z) :
  representable fmt (a - b) = true -> sub fmt (Fin a) (Fin b) = Fin (a - b).
Proof.
  intros H. unfold sub. cbn [neg]. apply (add_exact a (- b)). exact H.
Qed.

Lemma add_0_r (a : Z) :
  representable fmt a = true -> add fmt (Fin a) (Fin 0) = Fin a.
Proof.
  intros H. rewrite add_exact; rewrite Z.add_0_r; [reflexivity | exact H].
Qed.

Lemma add_fin_is_num (a : Z) (y : fl) :
  is_num fmt y = true -> is_num fmt (add fmt (Fin a) y) = true.
Proof.
  destruct y as [b| | |]; cbn [add is_num]; intros H;
    try reflexivity; try discriminate.
  apply round_is_num. lia.
Qed.

Lemma add_fin_fin_is_num (a b : Z) :
  is_num fmt (add fmt (Fin a) (Fin b)) = true.
Proof. cbn [add]. apply round_is_num. lia. Qed.

Lemma sub_fin_fin_is_num (a b : Z) :
  is_num fmt (sub fmt (Fin a) (Fin b)) = true.
Proof. unfold sub. cbn [neg]. apply add_fin_fin_is_num. Qed.

(** Adding to a finite number keeps the order of what is added. *)
Lemma add_fin_mono (a : Z) (y1 y2 : fl) :
  is_num fmt y1 = true -> is_num fmt y2 = true ->
  rank fmt y1 <= rank fmt y2 ->
  rank fmt (add fmt (Fin a) y1) <= rank fmt (add fmt (Fin a) y2).
Proof.
  pose proof huge_pos as Hh.
  destruct y1 as [b1| | |], y2 as [b2| | |]; cbn [is_num add rank];
    intros H1 H2 Hle; try discriminate;
    try (apply representable_abs_lt in H1);
    try (apply representable_abs_lt in H2);
    try lia;
    try (pose proof (rank_round_bounds (a + b1) 1));
    try (pose proof (rank_round_bounds (a + b2) 1));
    try lia.
  apply round_mono; lia.
Qed.

(** Sterbenz: the difference of two numbers of the format within a
    factor two of each other is a number of the format. *)
Lemma representable_diff (a b : Z) :
  representable fmt a = true -> representable fmt b = true ->
  0 <= b <= a -> a <= 2 * b ->
  representable fmt (a - b) = true.
Proof.
  intros Ha Hb Hba H2.
  apply representable_spec in Ha. apply representable_spec in Hb.
  destruct Ha as [Da La], Hb as [Db Lb].
  apply representable_spec. split; [|lia].
  assert (Hsab : ulp_shift fmt b 1 <= ulp_shift fmt a 1)
    by (apply ulp_shift_mono; lia).
  assert (Hsd : ulp_shift fmt (a - b) 1 <= ulp_shift fmt b 1)
    by (apply ulp_shift_mono; lia).
  pose proof (ulp_shift_nonneg (a - b) 1) as H0.
  assert (Hdiv : forall j k, 0 <= j <= k -> (2 ^ j | 2 ^ k)).
  { intros j k Hjk. exists (2 ^ (k - j)). apply pow2_split. exact Hjk. }
  apply Z.divide_sub_r.
  - eapply Z.divide_trans; [|exact Da]. apply Hdiv. lia.
  - eapply Z.divide_trans; [|exact Db]. apply Hdiv. lia.
Qed.

(** A finite number whose rank is below the threshold is that
    number. *)
Lemma fin_of_rank (x : fl) :
  is_num fmt x = true -> Z.abs (rank fmt x) < huge fmt ->
  x = Fin (rank fmt x) /\ representable fmt (rank fmt x) = true.
Proof.
  destruct x as [n| | |]; cbn [is_num rank]; intros H Hr;
    try discriminate; try lia.
  split; [reflexivity | exact H].
Qed.

(** Rounding stays between two numbers of the format that enclose
    the exact value. *)
Lemma round_between (a b lo hi : Z) :
  0 < b ->
  representable fmt lo = true -> representable fmt hi = true ->
  lo * b <= a <= hi * b ->
  exists m, round fmt a b = Fin m /\ representable fmt m = true /\
            lo <= m <= hi.
Proof.
  intros Hb Hlo Hhi [H1 H2].
  pose proof (round_mono (lo * b) b a b Hb Hb ltac:(nia)) as M1.
  pose proof (round_mono a b (hi * b) b Hb Hb ltac:(nia)) as M2.
  rewrite round_exact in M1, M2 by assumption. cbn [rank] in M1, M2.
  pose proof (representable_abs_lt lo Hlo).
  pose proof (representable_abs_lt hi Hhi).
  destruct (fin_of_rank (round fmt a b)) as [E R];
    [apply round_is_num, Hb | lia |].
  exists (rank fmt (round fmt a b)). repeat split; try assumption; lia.
Qed.

End Rounding.

Lemma binary32_ok : format_ok binary32.
Proof. unfold format_ok. cbn. lia. Qed.

End FltFacts.

(* ================================================================== *)
(** ** The percentage map in binary32 *)
(* ================================================================== *)

Module Host32Facts.
Import Bits BitsFacts Flt FltFacts PwmHost PwmHost32.
Local Open Scope Z_scope.

Lemma one_pos32 : 0 < F32.one.
Proof. apply (one_pos F32.fmt), binary32_ok. Qed.

(** Evaluates the closed constants of a goal. *)
Ltac eval_consts :=
  repeat match goal with
         | |- context [F32.lit ?a ?b] =>
             let v := eval vm_compute in (F32.lit a b) in
             change (F32.lit a b) with v
         | |- context [F32.of_int ?a] =>
             let v := eval vm_compute in (F32.of_int a) in
             change (F32.of_int a) with v
         end.

Lemma is_num_fin (x : fl) :
  F32.is_num x = true -> Z.abs (F32.rank x) < huge F32.fmt ->
  exists n, x = Fin n /\ representable F32.fmt n = true /\ n = F32.rank x.
Proof.
  intros H Hr. destruct (fin_of_rank F32.fmt x H Hr) as [E R].
  exists (F32.rank x). repeat split; assumption.
Qed.

(** [pwm_host_percent_to_u16] is defined on every number and gives a
    word within 0..10000. *)
Lemma pwm_host_percent_to_u16_defined (p : fl) :
  F32.is_num p = true ->
  exists w, pwm_host_percent_to_u16 p = Some w /\ 0 <= w <= 10000.
Proof.
  intros Hp. unfold pwm_host_percent_to_u16, PWM_HOST_PCT_MIN, PWM_HOST_PCT_MAX,
    PWM_HOST_VAL_MAX, PWM_HOST_VAL_MIN, gtb.
  eval_consts.
  match goal with
  | |- context [ltb p (Fin ?n5)] => set (N5 := n5) in *
  end.
  match goal with
  | |- context [ltb (Fin ?n10) _] => set (N10 := n10) in *
  end.
  assert (R5 : representable F32.fmt N5 = true) by reflexivity.
  assert (R10 : representable F32.fmt N10 = true) by reflexivity.
  assert (Hh : huge F32.fmt = 2 ^ 277) by reflexivity.
  (* the two clamps *)
  set (p1 := if ltb p (Fin N5) then Fin N5 else p).
  assert (H1 : F32.is_num p1 = true /\ N5 <= F32.rank p1).
  { unfold p1. destruct (ltb p (Fin N5)) eqn:E.
    - split; [exact R5 | cbn; lia].
    - split; [exact Hp|].
      apply (ltb_false_rank F32.fmt binary32_ok) in E; [exact E | exact Hp | exact R5]. }
  destruct H1 as [Hn1 Hr1].
  set (p2 := if ltb (Fin N10) p1 then Fin N10 else p1).
  assert (H2 : exists n, p2 = Fin n /\ representable F32.fmt n = true /\
                         N5 <= n <= N10).
  { unfold p2. destruct (ltb (Fin N10) p1) eqn:E.
    - exists N10. repeat split; try assumption; unfold N5, N10; lia.
    - apply (ltb_false_rank F32.fmt binary32_ok) in E; [|exact R10 | exact Hn1].
      cbn [rank] in E.
      destruct (is_num_fin p1 Hn1) as (n & En & Rn & Hn).
      { rewrite Hh. unfold F32.rank in *. unfold N5, N10 in *. lia. }
      exists n. unfold F32.rank in *. repeat split; try assumption; lia. }
  destruct H2 as (n & -> & Rn & Hn).
  (* pct - MIN *)
  assert (H3 : exists m, F32.sub (Fin n) (Fin N5) = Fin m /\
                         representable F32.fmt m = true /\ 0 <= m <= N5).
  { unfold F32.sub, sub. cbn [neg add].
    apply (round_between F32.fmt binary32_ok);
      [lia | reflexivity | exact R5 | unfold N5, N10 in *; lia]. }
  destruct H3 as (m1 & -> & Rm1 & Hm1).
  assert (ED : F32.sub (Fin N10) (Fin N5) = Fin N5) by (vm_compute; reflexivity).
  rewrite ED.
  (* / (MAX - MIN) *)
  assert (H4 : exists m, F32.div (Fin m1) (Fin N5) = Fin m /\
                         representable F32.fmt m = true /\ 0 <= m <= F32.one).
  { unfold F32.div, div.
    change (N5 =? 0) with false. cbv iota.
    change (Z.sgn N5) with 1. change (Z.abs N5) with N5.
    rewrite Z.mul_1_l.
    apply (round_between F32.fmt binary32_ok);
      [reflexivity | reflexivity | reflexivity |].
    change (one F32.fmt) with F32.one.
    unfold N5, F32.one, one in *. cbn [f_emin F32.fmt binary32 Z.opp] in *.
    set (U := 2 ^ 149) in *.
    assert (0 < U) by (unfold U; apply pow2_pos; lia).
    assert (EN : 3568119231764899702645714923623737840956866560 = 5 * U)
      by reflexivity.
    rewrite EN in *. nia. }
  destruct H4 as (m2 & -> & Rm2 & Hm2).
  (* * 10000 *)
  assert (H5 : exists m, F32.mul (Fin m2) (Fin (10000 * F32.one)) = Fin m /\
                         representable F32.fmt m = true /\
                         0 <= m <= 10000 * F32.one).
  { unfold F32.mul, mul.
    apply (round_between F32.fmt binary32_ok);
      [apply one_pos32 | reflexivity | reflexivity |].
    change (one F32.fmt) with F32.one.
    pose proof one_pos32. nia. }
  change (Fin 7136238463529799405291429847247475681913733120000)
    with (Fin (10000 * F32.one)).
  destruct H5 as (m3 & -> & Rm3 & Hm3).
  (* + 0.5 *)
  assert (H6 : exists m, F32.add (Fin m3) (Fin (2 ^ 148)) = Fin m /\
                         representable F32.fmt m = true /\
                         2 ^ 148 <= m <= 20001 * 2 ^ 148).
  { unfold F32.add, add.
    apply (round_between F32.fmt binary32_ok);
      [lia | reflexivity | reflexivity |].
    change F32.one with (2 * 2 ^ 148) in Hm3. lia. }
  change (Fin 356811923176489970264571492362373784095686656)
    with (Fin (2 ^ 148)).
  destruct H6 as (m4 & -> & Rm4 & Hm4).
  unfold F32.to_int, to_int.
  change (one F32.fmt) with (2 * 2 ^ 148).
  set (V := 2 ^ 148) in *.
  assert (HV : 0 < V) by (unfold V; apply pow2_pos; lia).
  rewrite Z.quot_div_nonneg by lia.
  assert (Hq : 0 <= m4 / (2 * V) <= 10000).
  { split.
    - apply Z.div_pos; lia.
    - assert (m4 / (2 * V) < 10001)
        by (apply Z.div_lt_upper_bound; lia).
      lia. }
  set (z := m4 / (2 * V)) in *.
  assert ((-2147483648 <=? z) && (z <=? 2147483647) = true) as ->.
  { apply andb_true_iff. split; apply Z.leb_le; lia. }
  assert ((z <? 0) = false) as -> by (apply Z.ltb_ge; lia).
  assert ((10000 <? z) = false) as -> by (apply Z.ltb_ge; lia).
  exists (u16 z). split; [reflexivity|].
  rewrite u16_small by lia. lia.
Qed.

End Host32Facts.

(* ================================================================== *)
(** ** The shaper in binary32 *)
(* ================================================================== *)

Module Shaper32Facts.
Import Bits BitsFacts Flt FltFacts PwmHost PwmHost32 Host32Facts PwmCtrl32.
Local Open Scope Z_scope.

Lemma pct_word_defined (p : fl) :
  F32.is_num p = true ->
  exists w, pct_word p = Some w /\ 0 <= w <= 10000.
Proof.
  intros Hp. unfold pct_word.
  destruct (ltb p F32.zero).
  - apply pwm_host_percent_to_u16_defined. reflexivity.
  - apply pwm_host_percent_to_u16_defined, Hp.
Qed.

Lemma all_some_defined (f : nat -> option Z) (l : list nat) :
  (forall i, In i l -> exists w, f i = Some w /\ 0 <= w <= 10000) ->
  exists ws, all_some (map f l) = Some ws /\ length ws = length l /\
             Forall (fun w => 0 <= w <= 10000) ws.
Proof.
  induction l as [|a l IH]; intros H.
  - exists []. repeat split. constructor.
  - destruct (H a (or_introl eq_refl)) as (w & Ew & Hw).
    destruct IH as (ws & Ews & Hl & Hf).
    { intros i Hi. apply H. right. exact Hi. }
    exists (w :: ws). cbn [map all_some]. rewrite Ew, Ews.
    repeat split; [cbn; lia | constructor; assumption].
Qed.

(** [pwm_host_set_all_pct] on eight numbers is defined, and is
    [pwm_host_set_all_u16] on their words. *)
Lemma pwm_host_set_all_pct_defined (pct : list fl) (now sent : Z) (h : host) :
  (forall i, (i < 8)%nat -> F32.is_num (nth i pct F32.zero) = true) ->
  exists ws,
    all_some (map (fun i => pct_word (nth i pct F32.zero)) (seq 0 8)) = Some ws /\
    length ws = 8%nat /\ Forall (fun w => 0 <= w <= 10000) ws /\
    pwm_host_set_all_pct pct now sent h
    = Some (if s_sock h <? 0 then (PWMH_ENOTINIT, h, [])
            else pwm_host_set_all_u16 ws now sent h).
Proof.
  intros Hn.
  destruct (all_some_defined (fun i => pct_word (nth i pct F32.zero)) (seq 0 8))
    as (ws & Ews & Hl & Hf).
  { intros i Hi. apply in_seq in Hi. apply pct_word_defined, Hn. lia. }
  exists ws. split; [exact Ews|]. split; [exact Hl|]. split; [exact Hf|].
  unfold pwm_host_set_all_pct. destruct (s_sock h <? 0); [reflexivity|].
  change PWM_HOST_CH_NUM with 8%nat. rewrite Ews. reflexivity.
Qed.

(** What [in_limits] says, field by field. *)
Lemma cfg_ok_spec (k : pwm_ctrl_config_t) :
  cfg_ok k = true ->
  exists mn md mx,
    min_pct k = Fin mn /\ mid_pct k = Fin md /\ max_pct k = Fin mx /\
    representable F32.fmt mn = true /\ representable F32.fmt md = true /\
    representable F32.fmt mx = true /\
    0 < mn /\ mn < md /\ md < mx /\
    is_float F32.fmt (max_step_pct k) = true.
Proof.
  unfold cfg_ok, F32.is_fin, F32.zero. rewrite !andb_true_iff.
  intros ((((((H1 & H2) & H3) & H4) & H5) & H6) & H7).
  destruct (min_pct k) as [mn| | |]; try discriminate.
  destruct (mid_pct k) as [md| | |]; try discriminate.
  destruct (max_pct k) as [mx| | |]; try discriminate.
  cbn [ltb] in *. apply Z.ltb_lt in H4, H5, H6.
  exists mn, md, mx. repeat split; assumption.
Qed.

Lemma fin_between_spec (lo hi : Z) (x : fl) :
  F32.fin_between (Fin lo) (Fin hi) x = true ->
  exists a, x = Fin a /\ representable F32.fmt a = true /\ lo <= a <= hi.
Proof.
  unfold F32.fin_between, F32.is_fin. rewrite !andb_true_iff.
  intros ((H1 & H2) & H3).
  destruct x as [a| | |]; try discriminate.
  cbn [leb] in *. apply Z.leb_le in H2, H3.
  exists a. repeat split; try assumption; lia.
Qed.

Lemma forallb_nth {A} (f : A -> bool) (l : list A) (d : A) (i : nat) :
  forallb f l = true -> (i < length l)%nat -> f (nth i l d) = true.
Proof.
  intros H Hi. rewrite forallb_forall in H. apply H, nth_In, Hi.
Qed.

Lemma in_limits_spec (c : ctrl) :
  in_limits c = true ->
  cfg_ok (s_cfg c) = true /\
  length (s_current_pct c) = 8%nat /\ length (s_target_pct c) = 8%nat /\
  forall i, (i < 8)%nat ->
    F32.fin_between (min_pct (s_cfg c)) (max_pct (s_cfg c)) (cur_at c i) = true /\
    F32.fin_between (min_pct (s_cfg c)) (max_pct (s_cfg c)) (tgt_at c i) = true.
Proof.
  unfold in_limits. rewrite !andb_true_iff.
  intros ((((H1 & H2) & H3) & H4) & H5).
  apply Nat.eqb_eq in H2, H3.
  repeat split; try assumption.
  - apply forallb_nth; [exact H4 | lia].
  - apply forallb_nth; [exact H5 | lia].
Qed.

(** One channel of a state within the limits. *)
Lemma chan_view (c : ctrl) (i : nat) :
  in_limits c = true -> (i < 8)%nat ->
  exists mn md mx a t,
    min_pct (s_cfg c) = Fin mn /\ mid_pct (s_cfg c) = Fin md /\
    max_pct (s_cfg c) = Fin mx /\
    cur_at c i = Fin a /\ tgt_at c i = Fin t /\
    representable F32.fmt mn = true /\ representable F32.fmt md = true /\
    representable F32.fmt mx = true /\ representable F32.fmt a = true /\
    representable F32.fmt t = true /\
    0 < mn /\ mn < md /\ md < mx /\ mn <= a <= mx /\ mn <= t <= mx /\
    is_float F32.fmt (max_step_pct (s_cfg c)) = true.
Proof.
  intros Hin Hi. destruct (in_limits_spec c Hin) as (Hk & _ & _ & Hall).
  destruct (cfg_ok_spec _ Hk)
    as (mn & md & mx & E1 & E2 & E3 & R1 & R2 & R3 & O1 & O2 & O3 & Hms).
  destruct (Hall i Hi) as [Hc Ht]. rewrite E1, E3 in Hc, Ht.
  destruct (fin_between_spec _ _ _ Hc) as (a & Ea & Ra & Ha).
  destruct (fin_between_spec _ _ _ Ht) as (t & Et & Rt & Htt).
  exists mn, md, mx, a, t. repeat split; try assumption; lia.
Qed.

(** [clamp_pct] with finite positive limits, on a number. *)
Lemma clamp_pct_rank (c : ctrl) (mn mx : Z) (x : fl) :
  min_pct (s_cfg c) = Fin mn -> max_pct (s_cfg c) = Fin mx ->
  representable F32.fmt mn = true -> representable F32.fmt mx = true ->
  0 < mn -> mn <= mx ->
  F32.is_num x = true ->
  exists y, clamp_pct c x = Fin y /\ representable F32.fmt y = true /\
            y = Z.max mn (Z.min mx (F32.rank x)).
Proof.
  intros E1 E3 R1 R3 H0 Hle Hx.
  unfold clamp_pct, clamp_min, clamp_max, gtb, F32.zero. rewrite E1, E3.
  cbn [ltb].
  assert ((0 <? mn) = true) as -> by (apply Z.ltb_lt; lia).
  assert ((0 <? mx) = true) as -> by (apply Z.ltb_lt; lia).
  destruct (ltb x (Fin mn)) eqn:L1.
  - apply (ltb_rank F32.fmt binary32_ok) in L1; [|exact Hx | exact R1].
    cbn [rank] in L1. cbn [ltb].
    assert ((mx <? mn) = false) as -> by (apply Z.ltb_ge; lia).
    exists mn. unfold F32.rank. repeat split; [exact R1 | lia].
  - apply (ltb_false_rank F32.fmt binary32_ok) in L1; [|exact Hx | exact R1].
    cbn [rank] in L1.
    destruct (ltb (Fin mx) x) eqn:L2.
    + apply (ltb_rank F32.fmt binary32_ok) in L2; [|exact R3 | exact Hx].
      cbn [rank] in L2.
      exists mx. unfold F32.rank. repeat split; [exact R3 | lia].
    + apply (ltb_false_rank F32.fmt binary32_ok) in L2; [|exact R3 | exact Hx].
      cbn [rank] in L2.
      pose proof (representable_abs_lt F32.fmt mx R3).
      destruct (fin_of_rank F32.fmt x Hx) as [E R]; [lia|].
      exists (rank F32.fmt x). unfold F32.rank.
      repeat split; [exact E | exact R | lia].
Qed.

(** The increment after the slope limit is a number, and no larger
    than a step that is a positive number. *)
Lemma step_delta_is_num (c : ctrl) (i : nat) :
  in_limits c = true -> (i < 8)%nat ->
  F32.is_num (step_delta c i) = true.
Proof.
  intros Hin Hi.
  destruct (chan_view c i Hin Hi)
    as (mn & md & mx & a & t & E1 & E2 & E3 & Ea & Et & _ & _ & _ & _ & _
        & _ & _ & _ & _ & _ & Hms).
  unfold step_delta. fold (cur_at c i) (tgt_at c i). rewrite Ea, Et, E2.
  match goal with
  | |- context [F32.sub ?e (Fin a)] => set (eff := e)
  end.
  assert (He : exists e, eff = Fin e).
  { unfold eff. destruct (enable_reverse_protection (s_cfg c) =? 0);
      [eexists; reflexivity|].
    match goal with |- context [if ?b then _ else _] => destruct b end;
      eexists; reflexivity. }
  destruct He as [e ->].
  assert (Hd : F32.is_num (F32.sub (Fin e) (Fin a)) = true).
  { apply (sub_fin_fin_is_num F32.fmt binary32_ok). }
  set (d0 := F32.sub (Fin e) (Fin a)) in *.
  unfold gtb.
  destruct (ltb (max_step_pct_effective c) (abs d0)) eqn:L; [|exact Hd].
  assert (Hm : F32.is_num (max_step_pct_effective c) = true).
  { unfold max_step_pct_effective in *.
    destruct (leb (max_step_pct (s_cfg c)) F32.zero); [reflexivity|].
    destruct (max_step_pct (s_cfg c)); try reflexivity; try exact Hms.
    discriminate L. }
  destruct (ltb F32.zero d0); [exact Hm|].
  unfold F32.is_num. rewrite is_num_neg. exact Hm.
Qed.

Lemma step_delta_bound (c : ctrl) (i : nat) :
  in_limits c = true -> (i < 8)%nat ->
  F32.is_num (max_step_pct_effective c) = true ->
  0 <= F32.rank (max_step_pct_effective c) ->
  - F32.rank (max_step_pct_effective c) <= F32.rank (step_delta c i)
    <= F32.rank (max_step_pct_effective c).
Proof.
  intros Hin Hi Hm Hpos.
  pose proof (step_delta_is_num c i Hin Hi) as Hnum.
  unfold step_delta in *.
  match goal with
  | |- context [gtb (abs ?d) _] => set (d0 := d) in *
  end.
  set (ms := max_step_pct_effective c) in *.
  assert (Hd0 : F32.is_num d0 = true).
  { destruct (chan_view c i Hin Hi)
      as (mn & md & mx & a & t & E1 & E2 & E3 & Ea & Et & _).
    unfold d0. fold (cur_at c i) (tgt_at c i). rewrite Ea, Et, E2.
    match goal with
    | |- context [F32.sub ?e (Fin a)] => set (eff := e)
    end.
    assert (He : exists e, eff = Fin e).
    { unfold eff. destruct (enable_reverse_protection (s_cfg c) =? 0);
        [eexists; reflexivity|].
      match goal with |- context [if ?b then _ else _] => destruct b end;
        eexists; reflexivity. }
    destruct He as [e ->].
    apply (sub_fin_fin_is_num F32.fmt binary32_ok). }
  unfold gtb in *.
  destruct (ltb ms (abs d0)) eqn:L.
  - destruct (ltb F32.zero d0).
    + lia.
    + unfold F32.rank. rewrite rank_neg. fold (F32.rank ms). lia.
  - apply (ltb_false_rank F32.fmt binary32_ok) in L;
      [| exact Hm | unfold F32.is_num in *; rewrite is_num_abs; exact Hd0].
    rewrite (rank_abs F32.fmt binary32_ok) in L. unfold F32.rank. lia.
Qed.

(** The value computed for a channel lies within the limits. *)
Lemma next_pct_at_limits (c : ctrl) (mask : Z) (i : nat) :
  in_limits c = true -> (i < 8)%nat ->
  F32.fin_between (min_pct (s_cfg c)) (max_pct (s_cfg c))
                  (next_pct_at c mask i) = true.
Proof.
  intros Hin Hi.
  pose proof (step_delta_is_num c i Hin Hi) as Hd.
  destruct (in_limits_spec c Hin) as (_ & _ & _ & Hall).
  destruct (chan_view c i Hin Hi)
    as (mn & md & mx & a & t & E1 & E2 & E3 & Ea & Et & R1 & R2 & R3 & Ra & Rt
        & O1 & O2 & O3 & Ha & Ht & Hms).
  unfold next_pct_at. fold (cur_at c i).
  destruct (negb (ch_in_mask (Z.of_nat i + 1) mask)); [apply Hall, Hi|].
  rewrite Ea.
  destruct (clamp_pct_rank c mn mx (F32.add (Fin a) (step_delta c i))
              E1 E3 R1 R3 O1 ltac:(lia)) as (y & Ey & Ry & Hy).
  { apply (add_fin_is_num F32.fmt binary32_ok), Hd. }
  rewrite Ey, E1, E3. unfold F32.fin_between, F32.is_fin. cbn [leb].
  rewrite Ry. cbn [andb].
  apply andb_true_iff. split; apply Z.leb_le; lia.
Qed.

Lemma forallb_of_nth {A} (f : A -> bool) (l : list A) (d : A) :
  (forall i, (i < length l)%nat -> f (nth i l d) = true) -> forallb f l = true.
Proof.
  intros H. apply forallb_forall. intros x Hx.
  destruct (In_nth l x d Hx) as (i & Hi & <-). apply H, Hi.
Qed.

Lemma in_limits_intro (c : ctrl) :
  cfg_ok (s_cfg c) = true ->
  length (s_current_pct c) = 8%nat -> length (s_target_pct c) = 8%nat ->
  (forall i, (i < 8)%nat ->
     F32.fin_between (min_pct (s_cfg c)) (max_pct (s_cfg c)) (cur_at c i) = true) ->
  (forall i, (i < 8)%nat ->
     F32.fin_between (min_pct (s_cfg c)) (max_pct (s_cfg c)) (tgt_at c i) = true) ->
  in_limits c = true.
Proof.
  intros Hk Hl1 Hl2 Hc Ht. unfold in_limits.
  rewrite Hk, Hl1, Hl2. cbn [Nat.eqb andb].
  apply andb_true_iff. split.
  - apply (forallb_of_nth _ _ F32.zero). rewrite Hl1. exact Hc.
  - apply (forallb_of_nth _ _ F32.zero). rewrite Hl2. exact Ht.
Qed.

(** A state that differs from one within the limits only in its
    current values, themselves within the limits. *)
Lemma in_limits_new_cur (c c' : ctrl) :
  in_limits c = true ->
  s_cfg c' = s_cfg c -> s_target_pct c' = s_target_pct c ->
  length (s_current_pct c') = 8%nat ->
  (forall i, (i < 8)%nat ->
     F32.fin_between (min_pct (s_cfg c)) (max_pct (s_cfg c)) (cur_at c' i) = true) ->
  in_limits c' = true.
Proof.
  intros Hin Ek Et Hl Hc.
  destruct (in_limits_spec c Hin) as (Hk & _ & Hl2 & Hall).
  apply in_limits_intro; rewrite ?Ek; try assumption.
  - rewrite Et. exact Hl2.
  - intros i Hi. unfold tgt_at. rewrite Et. apply (Hall i Hi).
Qed.

(** The state handed on by [active_mask_for_this_step] differs in the
    toggle only. *)
Lemma active_mask_same (c : ctrl) :
  let c1 := snd (active_mask_for_this_step c) in
  s_inited c1 = s_inited c /\ s_cfg c1 = s_cfg c /\
  s_current_pct c1 = s_current_pct c /\ s_target_pct c1 = s_target_pct c /\
  s_step_count c1 = s_step_count c.
Proof.
  unfold active_mask_for_this_step.
  destruct (group_mode (s_cfg c) =? PWM_CTRL_GROUP_MODE_ALL);
    [|destruct (s_group_toggle c =? 0)]; cbn; repeat split.
Qed.

Lemma next_pct_at_ext32 (c c' : ctrl) (mask : Z) (i : nat) :
  s_cfg c' = s_cfg c -> s_current_pct c' = s_current_pct c ->
  s_target_pct c' = s_target_pct c ->
  next_pct_at c' mask i = next_pct_at c mask i.
Proof.
  intros E1 E2 E3.
  unfold next_pct_at, step_delta, clamp_pct, clamp_min, clamp_max,
    max_step_pct_effective.
  rewrite E1, E2, E3. reflexivity.
Qed.

Lemma nth_map_seq0 {A} (f : nat -> A) (n i : nat) (d : A) :
  (i < n)%nat -> nth i (map f (seq 0 n)) d = f i.
Proof.
  intros Hi. rewrite (nth_indep _ d (f 0%nat)) by (rewrite length_map, length_seq; exact Hi).
  rewrite (map_nth f (seq 0 n) 0%nat i), seq_nth by exact Hi. reflexivity.
Qed.


Lemma pwm_ctrl_step_defined (now sent : Z) (c : ctrl) (h : host) :
  in_limits c = true ->
  exists rc c' h' out,
    pwm_ctrl_step now sent c h = Some (rc, c', h', out) /\
    in_limits c' = true /\ step_result c rc c'.
Proof.
  intros Hin. unfold pwm_ctrl_step.
  destruct (s_inited c =? 0).
  { exists PWM_CTRL_ERR_NOT_INIT, c, h, []. split; [reflexivity|].
    split; [exact Hin|]. unfold step_result. repeat split.
    left. split; [discriminate | reflexivity]. }
  pose proof (active_mask_same c) as (Ei & Ek & Ec & Et & _).
  destruct (active_mask_for_this_step c) as [mask c1] eqn:Em.
  cbn [snd fst] in *.
  assert (Hnext : map (next_pct_at c1 mask) (seq 0 PWM_HOST_CH_NUM)
                  = map (next_pct_at c mask) (seq 0 PWM_HOST_CH_NUM)).
  { apply map_ext. intros i. apply next_pct_at_ext32; assumption. }
  rewrite Hnext.
  set (nx := map (next_pct_at c mask) (seq 0 PWM_HOST_CH_NUM)).
  assert (Hnx : forall i, (i < 8)%nat ->
            F32.fin_between (min_pct (s_cfg c)) (max_pct (s_cfg c))
                            (nth i nx F32.zero) = true).
  { intros i Hi. unfold nx. rewrite nth_map_seq0 by exact Hi.
    apply next_pct_at_limits; assumption. }
  destruct (pwm_host_set_all_pct_defined nx now sent h)
    as (ws & _ & _ & _ & ->).
  { intros i Hi. specialize (Hnx i Hi).
    unfold F32.fin_between, F32.is_fin in Hnx.
    destruct (nth i nx F32.zero); try discriminate Hnx.
    apply andb_true_iff in Hnx. destruct Hnx as [Hnx _].
    apply andb_true_iff in Hnx. destruct Hnx as [Hnx _]. exact Hnx. }
  assert (Hin1 : in_limits c1 = true).
  { apply (in_limits_new_cur c); try assumption.
    - rewrite Ec. apply in_limits_spec, Hin.
    - intros i Hi. unfold cur_at. rewrite Ec.
      apply (in_limits_spec c Hin), Hi. }
  destruct (if s_sock h <? 0 then _ else _) as [[rc h1] out].
  destruct (negb (is_ok rc)).
  - exists PWM_CTRL_ERR_INTERNAL, c1, h1, out. split; [reflexivity|].
    split; [exact Hin1|]. unfold step_result. repeat split; try assumption.
    left. split; [discriminate | exact Ec].
  - eexists PWM_CTRL_OK, _, h1, out. split; [reflexivity|].
    split.
    + apply (in_limits_new_cur c); try assumption.
      unfold nx. cbn [s_current_pct]. rewrite length_map, length_seq.
      reflexivity.
    + unfold step_result. cbn [s_inited s_cfg s_target_pct s_current_pct].
      repeat split; try assumption. right. rewrite Em.
      split; reflexivity.
Qed.

(** A configured step above zero is the one in force. *)
Lemma max_step_pct_effective_pos32 (c : ctrl) :
  gtb (max_step_pct (s_cfg c)) F32.zero = true ->
  max_step_pct_effective c = max_step_pct (s_cfg c).
Proof.
  unfold max_step_pct_effective, gtb, F32.zero. intros H.
  destruct (max_step_pct (s_cfg c)) as [m| | |]; cbn [ltb leb] in *;
    try discriminate; try reflexivity.
  apply Z.ltb_lt in H.
  assert ((m <=? 0) = false) as -> by (apply Z.leb_gt; exact H). reflexivity.
Qed.

Lemma gtb_zero_rank (x : fl) :
  is_float F32.fmt x = true -> gtb x F32.zero = true ->
  F32.is_num x = true /\ 0 < F32.rank x.
Proof.
  unfold gtb, F32.zero, F32.is_num, F32.rank.
  destruct x as [m| | |]; cbn [ltb is_float is_num rank]; intros Hf H;
    try discriminate.
  - split; [exact Hf | apply Z.ltb_lt, H].
  - split; [reflexivity | apply (huge_pos F32.fmt binary32_ok)].
Qed.

(** The value computed for a channel lies between the binary32
    difference and the binary32 sum of the current value and the
    step in force. *)
Lemma next_pct_at_slew32 (c : ctrl) (mask : Z) (i : nat) :
  in_limits c = true -> (i < 8)%nat ->
  F32.is_num (max_step_pct_effective c) = true ->
  0 <= F32.rank (max_step_pct_effective c) ->
  F32.rank (F32.sub (cur_at c i) (max_step_pct_effective c))
    <= F32.rank (next_pct_at c mask i)
    <= F32.rank (F32.add (cur_at c i) (max_step_pct_effective c)).
Proof.
  intros Hin Hi Hm Hpos.
  pose proof (step_delta_is_num c i Hin Hi) as Hd.
  pose proof (step_delta_bound c i Hin Hi Hm Hpos) as Hb.
  destruct (chan_view c i Hin Hi)
    as (mn & md & mx & a & t & E1 & E2 & E3 & Ea & Et & R1 & R2 & R3 & Ra & Rt
        & O1 & O2 & O3 & Ha & Ht & Hms).
  set (ms := max_step_pct_effective c) in *.
  assert (Hlo : F32.rank (F32.sub (Fin a) ms) <= a).
  { pose proof (add_fin_mono F32.fmt binary32_ok a (neg ms) (Fin 0)) as M.
    rewrite (add_0_r F32.fmt a Ra), is_num_neg, rank_neg in M.
    cbn [rank] in M. unfold F32.rank in *.
    apply M; [exact Hm | reflexivity | lia]. }
  assert (Hhi : a <= F32.rank (F32.add (Fin a) ms)).
  { pose proof (add_fin_mono F32.fmt binary32_ok a (Fin 0) ms) as M.
    rewrite (add_0_r F32.fmt a Ra) in M.
    cbn [rank] in M. unfold F32.rank in *.
    apply M; [reflexivity | exact Hm | lia]. }
  unfold next_pct_at. fold (cur_at c i). rewrite Ea.
  destruct (negb (ch_in_mask (Z.of_nat i + 1) mask)).
  { cbn [F32.rank rank]. unfold F32.rank in *. cbn [rank]. lia. }
  destruct (clamp_pct_rank c mn mx (F32.add (Fin a) (step_delta c i))
              E1 E3 R1 R3 O1 ltac:(lia)) as (y & Ey & Ry & Hy).
  { apply (add_fin_is_num F32.fmt binary32_ok), Hd. }
  rewrite Ey.
  assert (H1 : F32.rank (F32.sub (Fin a) ms)
               <= F32.rank (F32.add (Fin a) (step_delta c i))).
  { unfold F32.sub, sub, F32.rank, F32.add.
    apply (add_fin_mono F32.fmt binary32_ok).
    - rewrite is_num_neg. exact Hm.
    - exact Hd.
    - rewrite rank_neg. apply Hb. }
  assert (H2 : F32.rank (F32.add (Fin a) (step_delta c i))
               <= F32.rank (F32.add (Fin a) ms)).
  { unfold F32.rank, F32.add.
    apply (add_fin_mono F32.fmt binary32_ok); [exact Hd | exact Hm | apply Hb]. }
  unfold F32.rank in *. cbn [rank]. lia.
Qed.

(** *** Reverse protection *)

Lemma eps_pos :
  exists e, eps = Fin e /\ 0 < e /\ representable F32.fmt e = true.
Proof.
  eexists. split; [vm_compute; reflexivity|].
  split; [reflexivity | vm_compute; reflexivity].
Qed.

(** The step in force is a positive number, infinite or a NaN. *)
Lemma max_step_pct_effective_shape (c : ctrl) :
  is_float F32.fmt (max_step_pct (s_cfg c)) = true ->
  (exists m, max_step_pct_effective c = Fin m /\ 0 < m /\
             representable F32.fmt m = true)
  \/ max_step_pct_effective c = PInf \/ max_step_pct_effective c = NaN.
Proof.
  unfold max_step_pct_effective, F32.zero. intros Hf.
  destruct (max_step_pct (s_cfg c)) as [m| | |]; cbn [leb is_float] in *.
  - destruct (m <=? 0) eqn:E.
    + left. eexists. split; [vm_compute; reflexivity|].
      split; [reflexivity | vm_compute; reflexivity].
    + left. exists m. apply Z.leb_gt in E. repeat split; assumption.
  - right. left. reflexivity.
  - left. eexists. split; [vm_compute; reflexivity|].
    split; [reflexivity | vm_compute; reflexivity].
  - right. right. reflexivity.
Qed.




(** The value of a channel after a step is the one before or the one
    computed for it. *)
Lemma step_result_cur (c c' : ctrl) (rc : Z) (i : nat) :
  (i < 8)%nat -> step_result c rc c' ->
  (cur_at c' i = cur_at c i) \/
  (rc = PWM_CTRL_OK /\
   cur_at c' i = next_pct_at c (fst (active_mask_for_this_step c)) i).
Proof.
  intros Hi (_ & _ & _ & [[_ E]|[Erc E]]).
  - left. unfold cur_at. rewrite E. reflexivity.
  - right. split; [exact Erc|]. unfold cur_at at 1. rewrite E.
    apply nth_map_seq0. exact Hi.
Qed.

(** Any run of steps from a state within the limits is defined, and
    its trace starts with that state. *)
Lemma run_steps_defined (env : list (Z * Z)) :
  forall c h, in_limits c = true ->
  exists tr, run_steps env c h = Some tr /\
             length tr = S (length env) /\ nth_error tr 0 = Some c.
Proof.
  induction env as [|[now sent] rest IH]; intros c h Hin.
  - exists [c]. repeat split.
  - destruct (pwm_ctrl_step_defined now sent c h Hin)
      as (rc & c1 & h1 & out & E & Hin1 & _).
    destruct (IH c1 h1 Hin1) as (tr & Er & Hl & _).
    exists (c :: tr). cbn [run_steps]. rewrite E, Er.
    repeat split. cbn [length]. rewrite Hl. reflexivity.
Qed.



End Shaper32Facts.
Module ShaperOps32Facts.
Import Bits BitsFacts Flt FltFacts PwmHost PwmHost32 PwmCtrl32 Host32Facts.
Import Shaper32Facts.
Local Open Scope Z_scope.

(** *** What [pwm_ctrl_init] stores *)

Lemma default_limits_ok :
  F32.is_fin PWM_HOST_PCT_MIN = true /\ F32.is_fin PWM_HOST_PCT_MID = true /\
  F32.is_fin PWM_HOST_PCT_MAX = true /\
  ltb F32.zero PWM_HOST_PCT_MIN = true /\
  ltb F32.zero PWM_HOST_PCT_MID = true /\
  ltb F32.zero PWM_HOST_PCT_MAX = true /\
  ltb PWM_HOST_PCT_MIN PWM_HOST_PCT_MID = true /\
  ltb PWM_HOST_PCT_MID PWM_HOST_PCT_MAX = true.
Proof. repeat split; vm_compute; reflexivity. Qed.

(** A limit that is finite or a NaN, after the test [x <= 0.0f] of
    [pwm_ctrl_init]: finite and positive, or still a NaN. *)
Lemma sanitize_pos (x d : fl) :
  F32.no_inf x = true -> F32.is_fin d = true -> ltb F32.zero d = true ->
  let y := if leb x F32.zero then d else x in
  (F32.is_fin y = true /\ ltb F32.zero y = true) \/ y = NaN.
Proof.
  intros Hx Hd Hp. cbv zeta. unfold F32.zero in *.
  destruct x as [n| | |]; cbn [leb F32.no_inf] in *; try discriminate.
  - destruct (n <=? 0) eqn:E; [left; split; assumption|].
    left. split; [exact Hx|]. cbn [ltb]. apply Z.ltb_lt. apply Z.leb_gt in E. lia.
  - right. reflexivity.
Qed.

Lemma ltb_nan_l (y : fl) : ltb NaN y = false.
Proof. destruct y; reflexivity. Qed.

Lemma ltb_nan_r (x : fl) : ltb x NaN = false.
Proof. destruct x; reflexivity. Qed.

(** The argument of [pwm_ctrl_init]: [NULL], or a configuration whose
    limits are finite or NaN. *)
Lemma init_cfg_ok (cfg : option pwm_ctrl_config_t) :
  cfg_arg_ok cfg = true -> cfg_ok (init_cfg cfg) = true.
Proof.
  intros Harg.
  set (c0 := match cfg with Some c => c | None => cfg_zero end).
  assert (H0 : cfg_no_inf c0 = true).
  { unfold c0. destruct cfg; [exact Harg | vm_compute; reflexivity]. }
  unfold cfg_no_inf in H0. rewrite !andb_true_iff in H0.
  destruct H0 as (((N1 & N2) & N3) & N4).
  destruct default_limits_ok as (D1 & D2 & D3 & P1 & P2 & P3 & L1 & L2).
  pose proof (sanitize_pos (min_pct c0) _ N1 D1 P1) as S1.
  pose proof (sanitize_pos (mid_pct c0) _ N2 D2 P2) as S2.
  pose proof (sanitize_pos (max_pct c0) _ N3 D3 P3) as S3.
  cbv zeta in S1, S2, S3.
  unfold init_cfg. cbv zeta. fold c0.
  set (mn := if leb (min_pct c0) F32.zero then PWM_HOST_PCT_MIN else min_pct c0)
    in *.
  set (md := if leb (mid_pct c0) F32.zero then PWM_HOST_PCT_MID else mid_pct c0)
    in *.
  set (mx := if leb (max_pct c0) F32.zero then PWM_HOST_PCT_MAX else max_pct c0)
    in *.
  unfold cfg_ok. cbn [min_pct mid_pct max_pct max_step_pct].
  assert (Hms : is_float F32.fmt
                  (if leb (max_step_pct c0) F32.zero then F32.lit 2 10
                   else max_step_pct c0) = true).
  { destruct (leb (max_step_pct c0) F32.zero);
      [vm_compute; reflexivity | exact N4]. }
  rewrite Hms.
  destruct (ltb mn md && ltb md mx) eqn:O.
  - apply andb_true_iff in O. destruct O as [O1 O2].
    destruct S1 as [[F1 Q1]|E1]; [|rewrite E1, ltb_nan_l in O1; discriminate].
    destruct S3 as [[F3 Q3]|E3]; [|rewrite E3, ltb_nan_r in O2; discriminate].
    destruct S2 as [[F2 Q2]|E2]; [|rewrite E2, ltb_nan_r in O1; discriminate].
    rewrite F1, F2, F3, Q1, O1, O2. reflexivity.
  - rewrite D1, D2, D3, P1, L1, L2. reflexivity.
Qed.

Lemma fin_between_intro (mn mx y : Z) :
  representable F32.fmt y = true -> mn <= y <= mx ->
  F32.fin_between (Fin mn) (Fin mx) (Fin y) = true.
Proof.
  intros Ry Hy. unfold F32.fin_between, F32.is_fin. cbn [leb]. rewrite Ry.
  cbn [andb]. apply andb_true_iff. split; apply Z.leb_le; lia.
Qed.

Lemma nth_repeat_lt {A} (x d : A) (n i : nat) :
  (i < n)%nat -> nth i (repeat x n) d = x.
Proof.
  revert i. induction n as [|n IH]; intros i Hi; [lia|].
  destruct i as [|i]; [reflexivity|]. cbn. apply IH. lia.
Qed.

(** The state [pwm_ctrl_init] leaves is within the limits, whether or
    not its frame went out. *)
Lemma in_limits_init32 (cfg : option pwm_ctrl_config_t) (now sent : Z)
  (c : ctrl) (h : host) :
  cfg_arg_ok cfg = true ->
  exists rc c1 h1 out,
    pwm_ctrl_init cfg now sent c h = Some (rc, c1, h1, out) /\
    in_limits c1 = true /\ s_cfg c1 = init_cfg cfg.
Proof.
  intros Harg. pose proof (init_cfg_ok cfg Harg) as Hk.
  destruct (cfg_ok_spec _ Hk)
    as (mn & md & mx & E1 & E2 & E3 & R1 & R2 & R3 & O1 & O2 & O3 & Hms).
  unfold pwm_ctrl_init. cbv zeta.
  set (c1 := init_state_to_mid _).
  assert (Ek : s_cfg c1 = init_cfg cfg) by reflexivity.
  assert (Emid : s_current_pct c1 = repeat (Fin md) 8
                 /\ s_target_pct c1 = repeat (Fin md) 8).
  { unfold c1, init_state_to_mid. cbn [s_cfg s_current_pct s_target_pct].
    rewrite E2. unfold gtb, F32.zero. cbn [ltb].
    assert ((0 <? md) = true) as -> by (apply Z.ltb_lt; lia).
    split; reflexivity. }
  destruct Emid as [Ec Et].
  assert (Hin1 : in_limits c1 = true).
  { apply in_limits_intro.
    - rewrite Ek. exact Hk.
    - rewrite Ec. apply repeat_length.
    - rewrite Et. apply repeat_length.
    - intros i Hi. unfold cur_at. rewrite Ec, Ek, E1, E3.
      rewrite nth_repeat_lt by exact Hi. apply fin_between_intro; [exact R2 | lia].
    - intros i Hi. unfold tgt_at. rewrite Et, Ek, E1, E3.
      rewrite nth_repeat_lt by exact Hi. apply fin_between_intro; [exact R2 | lia]. }
  destruct (pwm_host_set_all_pct_defined
              (repeat (mid_pct (s_cfg c1)) PWM_HOST_CH_NUM) now sent h)
    as (ws & _ & _ & _ & ->).
  { intros i Hi. rewrite Ek, E2. unfold PWM_HOST_CH_NUM.
    rewrite nth_repeat_lt by exact Hi. exact R2. }
  destruct (if s_sock h <? 0 then _ else _) as [[rc h1] out].
  destruct (negb (is_ok rc)).
  - exists PWM_CTRL_ERR_INTERNAL, c1, h1, out. repeat split; assumption.
  - eexists PWM_CTRL_OK, _, h1, out. split; [reflexivity|].
    split; [|exact Ek].
    apply (in_limits_new_cur c1 _ Hin1); try reflexivity.
    intros i Hi. destruct (in_limits_spec c1 Hin1) as (_ & _ & _ & Hall).
    exact (proj1 (Hall i Hi)).
Qed.

(** *** Target setters *)

(** The value a setter stores for a request that is a number. *)
Lemma stored_target_limits (c : ctrl) (pct : fl) :
  in_limits c = true -> F32.is_num pct = true ->
  F32.fin_between (min_pct (s_cfg c)) (max_pct (s_cfg c))
    (clamp_pct c (if ltb pct F32.zero then mid_pct (s_cfg c) else pct)) = true.
Proof.
  intros Hin Hp.
  destruct (in_limits_spec c Hin) as (Hk & _).
  destruct (cfg_ok_spec _ Hk)
    as (mn & md & mx & E1 & E2 & E3 & R1 & R2 & R3 & O1 & O2 & O3 & Hms).
  destruct (clamp_pct_rank c mn mx
              (if ltb pct F32.zero then mid_pct (s_cfg c) else pct)
              E1 E3 R1 R3 O1 ltac:(lia)) as (y & Ey & Ry & Hy).
  { destruct (ltb pct F32.zero); [rewrite E2; exact R2 | exact Hp]. }
  rewrite Ey, E1, E3. apply fin_between_intro; [exact Ry | lia].
Qed.

Lemma in_limits_set_target32 (c : ctrl) (t : list fl) :
  in_limits c = true -> length t = 8%nat ->
  Forall (fun x => F32.fin_between (min_pct (s_cfg c)) (max_pct (s_cfg c)) x
                   = true) t ->
  in_limits (set_target t c) = true.
Proof.
  intros Hin Hl Hall.
  destruct (in_limits_spec c Hin) as (Hk & Hlc & _ & Hcur).
  apply in_limits_intro; cbn [set_target s_cfg s_current_pct s_target_pct];
    try assumption.
  - intros i Hi. apply (Hcur i Hi).
  - intros i Hi. unfold tgt_at. cbn [set_target s_target_pct].
    rewrite List.Forall_forall in Hall. apply Hall, nth_In. lia.
Qed.

Lemma targets_forall (c : ctrl) :
  in_limits c = true ->
  length (s_target_pct c) = 8%nat /\
  Forall (fun x => F32.fin_between (min_pct (s_cfg c)) (max_pct (s_cfg c)) x
                   = true) (s_target_pct c).
Proof.
  unfold in_limits. rewrite !andb_true_iff.
  intros ((((H1 & H2) & H3) & H4) & H5). apply Nat.eqb_eq in H3.
  split; [exact H3|]. apply List.Forall_forall. intros x Hx.
  rewrite forallb_forall in H5. apply H5, Hx.
Qed.

Lemma in_limits_set_target_pct (ch : Z) (pct : fl) (c : ctrl) :
  in_limits c = true -> F32.is_num pct = true ->
  in_limits (snd (pwm_ctrl_set_target_pct ch pct c)) = true /\
  s_cfg (snd (pwm_ctrl_set_target_pct ch pct c)) = s_cfg c.
Proof.
  intros Hin Hp. unfold pwm_ctrl_set_target_pct.
  destruct (s_inited c =? 0); [split; [exact Hin | reflexivity]|].
  destruct ((ch <? 1) || (PWM_HOST_CH_NUM_Z <? ch));
    [split; [exact Hin | reflexivity]|].
  cbn [snd]. split; [|reflexivity].
  destruct (targets_forall c Hin) as [Hl Hall].
  apply in_limits_set_target32; [exact Hin | |].
  - unfold store. rewrite length_insert. exact Hl.
  - unfold store. apply Forall_insert; [exact Hall|].
    apply stored_target_limits; assumption.
Qed.

Lemma in_limits_set_targets_mask32 (mask : Z) (pct : list fl) (c : ctrl) :
  in_limits c = true -> forallb F32.is_num pct = true ->
  in_limits (snd (pwm_ctrl_set_targets_mask mask pct c)) = true /\
  s_cfg (snd (pwm_ctrl_set_targets_mask mask pct c)) = s_cfg c.
Proof.
  intros Hin Hp. unfold pwm_ctrl_set_targets_mask.
  destruct (s_inited c =? 0); [split; [exact Hin | reflexivity]|].
  cbn [snd]. split; [|reflexivity].
  destruct (targets_forall c Hin) as [Hl Hall].
  assert (Hloop : forall l t,
            length t = 8%nat ->
            Forall (fun x => F32.fin_between (min_pct (s_cfg c))
                               (max_pct (s_cfg c)) x = true) t ->
            let t' := fold_left (mask_body c mask pct) l t in
            length t' = 8%nat /\
            Forall (fun x => F32.fin_between (min_pct (s_cfg c))
                               (max_pct (s_cfg c)) x = true) t').
  { induction l as [|i l IH]; intros t Ht Hf; [split; assumption|].
    cbn [fold_left]. apply IH.
    - unfold mask_body. destruct (negb _); [exact Ht|].
      unfold store. rewrite length_insert. exact Ht.
    - unfold mask_body. destruct (negb _); [exact Hf|].
      unfold store. apply Forall_insert; [exact Hf|].
      apply stored_target_limits; [exact Hin|].
      destruct (Nat.lt_ge_cases i (length pct)) as [Hi|Hi].
      + rewrite forallb_forall in Hp. apply Hp, nth_In, Hi.
      + rewrite nth_overflow by exact Hi. reflexivity. }
  destruct (Hloop (seq 0 PWM_HOST_CH_NUM) _ Hl Hall) as [Hl' Hall'].
  apply in_limits_set_target32; assumption.
Qed.

Lemma in_limits_set_all_target_mid32 (c : ctrl) :
  in_limits c = true ->
  in_limits (snd (pwm_ctrl_set_all_target_mid c)) = true /\
  s_cfg (snd (pwm_ctrl_set_all_target_mid c)) = s_cfg c.
Proof.
  intros Hin. unfold pwm_ctrl_set_all_target_mid.
  destruct (s_inited c =? 0); [split; [exact Hin | reflexivity]|].
  cbn [snd]. split; [|reflexivity].
  destruct (in_limits_spec c Hin) as (Hk & _).
  destruct (cfg_ok_spec _ Hk)
    as (mn & md & mx & E1 & E2 & E3 & R1 & R2 & R3 & O1 & O2 & O3 & Hms).
  apply in_limits_set_target32; [exact Hin | apply repeat_length|].
  apply List.Forall_forall. intros x Hx. apply repeat_spec in Hx. subst x.
  rewrite E1, E2, E3. apply fin_between_intro; [exact R2 | lia].
Qed.

(** Any sequence of calls whose requests are numbers, from a state
    within the limits: defined, within the limits, same
    configuration. *)
Lemma in_limits_run_ctrl_ops32 (ops : list ctrl_op) :
  forall c h, in_limits c = true -> forallb op_is_num ops = true ->
  exists c' h', run_ctrl_ops ops c h = Some (c', h') /\
                in_limits c' = true /\ s_cfg c' = s_cfg c.
Proof.
  induction ops as [|o ops IH]; intros c h Hin Hops.
  - exists c, h. repeat split. exact Hin.
  - cbn [forallb] in Hops. apply andb_true_iff in Hops.
    destruct Hops as [Ho Hops].
    assert (H1 : exists c1 h1, run_ctrl_op o c h = Some (c1, h1) /\
                   in_limits c1 = true /\ s_cfg c1 = s_cfg c).
    { destruct o as [ch pct|mask pct| |now sent]; cbn [run_ctrl_op op_is_num] in *.
      - eexists _, h. split; [reflexivity|].
        apply in_limits_set_target_pct; assumption.
      - eexists _, h. split; [reflexivity|].
        apply in_limits_set_targets_mask32; assumption.
      - eexists _, h. split; [reflexivity|].
        apply in_limits_set_all_target_mid32; assumption.
      - destruct (pwm_ctrl_step_defined now sent c h Hin)
          as (rc & c1 & h1 & out & E & Hin1 & _ & Ek & _).
        exists c1, h1. rewrite E. repeat split; assumption. }
    destruct H1 as (c1 & h1 & E1 & Hin1 & Ek1).
    destruct (IH c1 h1 Hin1 Hops) as (c' & h' & E' & Hin' & Ek').
    exists c', h'. cbn [run_ctrl_ops]. rewrite E1.
    repeat split; [exact E' | exact Hin' | congruence].
Qed.

(** *** A value only approaches its target *)

Lemma above_band (md e x : Z) :
  representable F32.fmt md = true -> representable F32.fmt e = true ->
  0 < e -> representable F32.fmt x = true ->
  gtb (Fin x) (F32.add (Fin md) (Fin e)) = true -> md < x.
Proof.
  intros Rm Re He Rx H. unfold gtb, F32.add in H.
  pose proof (proj1 (ltb_rank F32.fmt binary32_ok
                       (add F32.fmt (Fin md) (Fin e)) (Fin x)
                       (add_fin_fin_is_num F32.fmt binary32_ok md e) Rx) H)
    as L.
  pose proof (add_fin_mono F32.fmt binary32_ok md (Fin 0) (Fin e)) as M.
  rewrite (add_0_r F32.fmt md Rm) in M. cbn [rank is_num] in M, L.
  specialize (M eq_refl Re ltac:(lia)). lia.
Qed.

Lemma below_band (md e x : Z) :
  representable F32.fmt md = true -> representable F32.fmt e = true ->
  0 < e -> representable F32.fmt x = true ->
  ltb (Fin x) (F32.sub (Fin md) (Fin e)) = true -> x < md.
Proof.
  intros Rm Re He Rx H. unfold F32.sub, sub in H. cbn [neg] in H.
  pose proof (proj1 (ltb_rank F32.fmt binary32_ok
                       (Fin x) (add F32.fmt (Fin md) (Fin (- e))) Rx
                       (add_fin_fin_is_num F32.fmt binary32_ok md (- e))) H)
    as L.
  pose proof (add_fin_mono F32.fmt binary32_ok md (Fin (- e)) (Fin 0)) as M.
  rewrite (add_0_r F32.fmt md Rm) in M. cbn [rank is_num] in M, L.
  rewrite representable_opp in M.
  specialize (M Re eq_refl ltac:(lia)). lia.
Qed.

(** With [max <= 2 * min], the value computed for a channel lies
    between the current value and the target, on the target's side. *)
Lemma next_pct_at_toward (c : ctrl) (mask : Z) (i : nat) :
  in_limits c = true -> (i < 8)%nat -> narrow_limits (s_cfg c) = true ->
  let a := F32.rank (cur_at c i) in
  let t := F32.rank (tgt_at c i) in
  let y := F32.rank (next_pct_at c mask i) in
  (a <= t -> a <= y <= t) /\ (t <= a -> t <= y <= a).
Proof.
  intros Hin Hi Hnar. cbv zeta.
  destruct (chan_view c i Hin Hi)
    as (mn & md & mx & a & t & E1 & E2 & E3 & Ea & Et & R1 & R2 & R3 & Ra & Rt
        & O1 & O2 & O3 & Ha & Ht & Hms).
  destruct eps_pos as (e & Ee & He & Re).
  unfold narrow_limits in Hnar. rewrite E1, E3 in Hnar.
  unfold F32.rank in *. cbn [rank] in Hnar. apply Z.leb_le in Hnar.
  rewrite Ea, Et. cbn [rank].
  assert (Hrep : forall x y, representable F32.fmt x = true ->
                   representable F32.fmt y = true ->
                   mn <= x <= mx -> mn <= y <= mx ->
                   representable F32.fmt (x - y) = true).
  { intros x y Rx Ry Hx Hy. destruct (Z.le_gt_cases y x) as [L|L].
    - apply representable_diff; [exact Rx | exact Ry | lia | lia].
    - replace (x - y) with (- (y - x)) by lia. rewrite representable_opp.
      apply representable_diff; [exact Ry | exact Rx | lia | lia]. }
  assert (Hclamp : forall y, representable F32.fmt y = true -> mn <= y <= mx ->
                     clamp_pct c (Fin y) = Fin y).
  { intros y Ry Hy.
    destruct (clamp_pct_rank c mn mx (Fin y) E1 E3 R1 R3 O1 ltac:(lia) Ry)
      as (y' & Ey & _ & Hy').
    rewrite Ey. f_equal. unfold F32.rank in Hy'. cbn [rank] in Hy'. lia. }
  unfold next_pct_at. fold (cur_at c i). rewrite Ea.
  destruct (negb (ch_in_mask (Z.of_nat i + 1) mask)); [cbn [rank]; lia|].
  unfold step_delta. fold (cur_at c i) (tgt_at c i).
  rewrite E2, Ea, Et, Ee.
  match goal with
  | |- context [F32.sub ?x (Fin a)] => set (eff := x)
  end.
  assert (Heff : exists q, eff = Fin q /\ representable F32.fmt q = true /\
                   mn <= q <= mx /\
                   (a <= t -> a <= q <= t) /\ (t <= a -> t <= q <= a)).
  { unfold eff. destruct (enable_reverse_protection (s_cfg c) =? 0).
    { exists t. repeat split; try assumption; lia. }
    destruct (gtb (Fin a) (F32.add (Fin md) (Fin e))
              && ltb (Fin t) (F32.sub (Fin md) (Fin e))
              || ltb (Fin a) (F32.sub (Fin md) (Fin e))
                 && gtb (Fin t) (F32.add (Fin md) (Fin e))) eqn:C.
    - exists md. split; [reflexivity|]. split; [exact R2|]. split; [lia|].
      apply orb_true_iff in C. destruct C as [C|C];
        apply andb_true_iff in C; destruct C as [C1 C2].
      + pose proof (above_band md e a R2 Re He Ra C1).
        pose proof (below_band md e t R2 Re He Rt C2). lia.
      + pose proof (below_band md e a R2 Re He Ra C1).
        pose proof (above_band md e t R2 Re He Rt C2). lia.
    - exists t. repeat split; try assumption; lia. }
  destruct Heff as (q & -> & Rq & Hq & Hup & Hdn).
  assert (Hsub : F32.sub (Fin q) (Fin a) = Fin (q - a))
    by (apply sub_exact, Hrep; assumption).
  rewrite Hsub. cbn [abs].
  destruct (gtb (Fin (Z.abs (q - a))) (max_step_pct_effective c)) eqn:G.
  - destruct (max_step_pct_effective_shape c Hms)
      as [(m & Em & Hm & Rm)|[Em|Em]]; rewrite Em in G |- *;
      unfold gtb in G; cbn [ltb] in G; try discriminate G.
    apply Z.ltb_lt in G. unfold gtb, F32.zero. cbn [ltb].
    destruct (0 <? q - a) eqn:S; [apply Z.ltb_lt in S | apply Z.ltb_ge in S].
    + cbn [F32.add add].
      destruct (round_between F32.fmt binary32_ok (a + m) 1 a q)
        as (y & Ey & Ry & Hy); [lia | exact Ra | exact Rq | lia |].
      rewrite Ey, (Hclamp y Ry) by lia. cbn [rank]. lia.
    + cbn [neg F32.add add].
      destruct (round_between F32.fmt binary32_ok (a + - m) 1 q a)
        as (y & Ey & Ry & Hy); [lia | exact Rq | exact Ra | lia |].
      rewrite Ey, (Hclamp y Ry) by lia. cbn [rank]. lia.
  - assert (Eadd : F32.add (Fin a) (Fin (q - a)) = Fin q).
    { unfold F32.add. rewrite add_exact;
        replace (a + (q - a)) with q by lia; [reflexivity | exact Rq]. }
    rewrite Eadd, (Hclamp q Rq) by lia. cbn [rank]. lia.
Qed.

(** Over any run of steps, the value of a channel moves toward its
    target and never past it. *)
Lemma run_steps_toward (i : nat) (env : list (Z * Z)) :
  (i < 8)%nat ->
  forall c h,
  in_limits c = true -> narrow_limits (s_cfg c) = true ->
  exists tr,
    run_steps env c h = Some tr /\ nth_error tr 0 = Some c /\
    (forall k ck, nth_error tr k = Some ck ->
       in_limits ck = true /\ s_cfg ck = s_cfg c /\
       s_target_pct ck = s_target_pct c) /\
    forall j k cj ck, (j <= k)%nat ->
      nth_error tr j = Some cj -> nth_error tr k = Some ck ->
      let a := F32.rank (cur_at c i) in
      let t := F32.rank (tgt_at c i) in
      let x := F32.rank (cur_at cj i) in
      let y := F32.rank (cur_at ck i) in
      (a <= t -> a <= x /\ x <= y /\ y <= t) /\
      (t <= a -> t <= y /\ y <= x /\ x <= a).
Proof.
  intros Hi. induction env as [|[now sent] rest IH]; intros c h Hin Hnar.
  - exists [c]. split; [reflexivity|]. split; [reflexivity|].
    assert (Hone : forall k ck, nth_error [c] k = Some ck ->
                     k = 0%nat /\ ck = c).
    { intros k ck Hk.
      destruct k as [|k]; [injection Hk as <-; split; reflexivity|].
      destruct k; discriminate Hk. }
    split.
    + intros k ck Hk. destruct (Hone k ck Hk) as [-> ->].
      repeat split. exact Hin.
    + intros j k cj ck _ Hj Hk.
      destruct (Hone j cj Hj) as [-> ->]. destruct (Hone k ck Hk) as [-> ->].
      cbv zeta. lia.
  - destruct (pwm_ctrl_step_defined now sent c h Hin)
      as (rc & c1 & h1 & out & E & Hin1 & Hres).
    pose proof Hres as (_ & Ek & Et & _).
    assert (Hnar1 : narrow_limits (s_cfg c1) = true) by (rewrite Ek; exact Hnar).
    destruct (IH c1 h1 Hin1 Hnar1) as (tr & Er & H0 & Hinv & Hmono).
    assert (Ett : tgt_at c1 i = tgt_at c i)
      by (unfold tgt_at; rewrite Et; reflexivity).
    assert (Hstep : let a := F32.rank (cur_at c i) in
                    let t := F32.rank (tgt_at c i) in
                    let y := F32.rank (cur_at c1 i) in
                    (a <= t -> a <= y <= t) /\ (t <= a -> t <= y <= a)).
    { destruct (step_result_cur c c1 rc i Hi Hres) as [Ec|[_ Ec]]; rewrite Ec.
      - cbv zeta. lia.
      - apply next_pct_at_toward; assumption. }
    cbv zeta in Hstep.
    exists (c :: tr). cbn [run_steps]. rewrite E, Er.
    split; [reflexivity|]. split; [reflexivity|]. split.
    + intros k ck Hk. destruct k as [|k].
      * injection Hk as <-. repeat split. exact Hin.
      * cbn [nth_error] in Hk. destruct (Hinv k ck Hk) as (A & B & C).
        repeat split; [exact A | congruence | congruence].
    + intros j k cj ck Hjk Hj Hk. cbv zeta.
      destruct k as [|k].
      * destruct j as [|j]; [|lia].
        injection Hj as <-. injection Hk as <-. lia.
      * cbn [nth_error] in Hk. destruct j as [|j].
        -- injection Hj as <-.
           pose proof (Hmono 0%nat k c1 ck ltac:(lia) H0 Hk) as M.
           cbv zeta in M. rewrite Ett in M. lia.
        -- cbn [nth_error] in Hj.
           pose proof (Hmono j k cj ck ltac:(lia) Hj Hk) as M.
           cbv zeta in M. rewrite Ett in M. lia.
Qed.

End ShaperOps32Facts.
Module Shaper32Claims.
Import Bits Flt FltFacts PwmHost PwmCtrl32 Shaper32Facts.
(** C1 (slew bound), as the binary32 arithmetic of the code has it.
    From a state whose limits are finite and ordered and whose current
    values and targets lie within them, with a configured
    [max_step_pct] above zero, whatever the targets, the group mode,
    the toggle and the fate of the emit: [pwm_ctrl_step] returns, and
    the new current value of every channel lies between the binary32
    difference [cur - max_step] and the binary32 sum [cur + max_step]
    of its old value and the step; a channel outside the active mask
    of the call, and every channel of a call that does not return
    [PWM_CTRL_OK], keeps its value. *)
Theorem C1_step_within_rounded_slew
  (now sent : Z) (c : ctrl) (h : host) (i : nat) :
  in_limits c = true ->
  (i < 8)%nat ->
  gtb (max_step_pct (s_cfg c)) F32.zero = true ->
  exists rc c' h' out,
    pwm_ctrl_step now sent c h = Some (rc, c', h', out) /\
    leb (F32.sub (cur_at c i) (max_step_pct (s_cfg c))) (cur_at c' i) = true /\
    leb (cur_at c' i) (F32.add (cur_at c i) (max_step_pct (s_cfg c))) = true /\
    (ch_in_mask (Z.of_nat i + 1) (fst (active_mask_for_this_step c)) = false
     \/ rc <> PWM_CTRL_OK ->
     cur_at c' i = cur_at c i).
Proof.
  intros Hin Hi Hgt.
  destruct (pwm_ctrl_step_defined now sent c h Hin)
    as (rc & c' & h' & out & Estep & Hin' & _ & _ & _ & Hres).
  exists rc, c', h', out. split; [exact Estep|].
  destruct (chan_view c i Hin Hi)
    as (mn & md & mx & a & t & E1 & E2 & E3 & Ea & Et & R1 & R2 & R3 & Ra & Rt
        & O1 & O2 & O3 & Ha & Ht & Hms).
  destruct (chan_view c' i Hin' Hi)
    as (_ & _ & _ & a' & _ & _ & _ & _ & Ea' & _ & _ & _ & _ & Ra' & _).
  destruct (gtb_zero_rank _ Hms Hgt) as [Hm Hpos].
  pose proof (max_step_pct_effective_pos32 c Hgt) as Eeff.
  pose proof (next_pct_at_slew32 c (fst (active_mask_for_this_step c)) i Hin Hi)
    as Hs.
  rewrite Eeff in Hs. specialize (Hs Hm ltac:(lia)).
  set (ms := max_step_pct (s_cfg c)) in *.
  assert (Hsub : F32.is_num (F32.sub (cur_at c i) ms) = true).
  { rewrite Ea. unfold F32.sub, sub.
    apply (add_fin_is_num F32.fmt binary32_ok). rewrite is_num_neg. exact Hm. }
  assert (Hadd : F32.is_num (F32.add (cur_at c i) ms) = true).
  { rewrite Ea. apply (add_fin_is_num F32.fmt binary32_ok). exact Hm. }
  assert (Hself : F32.rank (F32.sub (cur_at c i) ms) <= F32.rank (cur_at c i)
                  <= F32.rank (F32.add (cur_at c i) ms)).
  { pose proof (next_pct_at_slew32 c 0 i Hin Hi) as Hs0.
    rewrite Eeff in Hs0. specialize (Hs0 Hm ltac:(lia)).
    unfold next_pct_at in Hs0. fold (cur_at c i) in Hs0.
    replace (ch_in_mask (Z.of_nat i + 1) 0) with false in Hs0; [exact Hs0|].
    unfold ch_in_mask, PwmCtrl.ch_in_mask.
    destruct ((Z.of_nat i + 1 <? 1) || (PWM_HOST_CH_NUM_Z <? Z.of_nat i + 1));
      reflexivity. }
  assert (Hcases : cur_at c' i = cur_at c i \/
                   (rc = PWM_CTRL_OK /\
                    cur_at c' i
                    = next_pct_at c (fst (active_mask_for_this_step c)) i)).
  { destruct Hres as [[_ E]|[Erc E]].
    - left. unfold cur_at. rewrite E. reflexivity.
    - right. split; [exact Erc|]. unfold cur_at at 1. rewrite E.
      apply nth_map_seq0. exact Hi. }
  assert (Hnum' : F32.is_num (cur_at c' i) = true)
    by (rewrite Ea'; exact Ra').
  assert (Hbounds : F32.rank (F32.sub (cur_at c i) ms) <= F32.rank (cur_at c' i)
                    <= F32.rank (F32.add (cur_at c i) ms)).
  { destruct Hcases as [->|[_ ->]]; assumption. }
  split; [|split].
  - apply (leb_rank F32.fmt binary32_ok); [exact Hsub | exact Hnum' | apply Hbounds].
  - apply (leb_rank F32.fmt binary32_ok); [exact Hnum' | exact Hadd | apply Hbounds].
  - intros [Hout|Hrc].
    + destruct Hcases as [E|[_ E]]; [exact E|].
      rewrite E. unfold next_pct_at. rewrite Hout. reflexivity.
    + destruct Hcases as [E|[Erc _]]; [exact E | contradiction].
Qed.

(** Channel 1 at the maximum with its target at the minimum, default
    step 0.2 %, A/B alternation, emit accepted. *)
Lemma C1_step_within_rounded_slew_witness :
  let c := shaper_at cfg_alternate (F32.lit 10 1) (F32.lit 5 1) in
  exists rc c' h' out,
    pwm_ctrl_step 0 30 c PwmCtrl.host0 = Some (rc, c', h', out) /\
    leb (F32.sub (cur_at c 0) (max_step_pct (s_cfg c))) (cur_at c' 0) = true /\
    leb (cur_at c' 0) (F32.add (cur_at c 0) (max_step_pct (s_cfg c))) = true /\
    (ch_in_mask (Z.of_nat 0 + 1) (fst (active_mask_for_this_step c)) = false
     \/ rc <> PWM_CTRL_OK ->
     cur_at c' 0 = cur_at c 0).
Proof.
  apply (C1_step_within_rounded_slew 0 30
           (shaper_at cfg_alternate (F32.lit 10 1) (F32.lit 5 1))
           PwmCtrl.host0 0).
  - vm_compute. reflexivity.
  - lia.
  - vm_compute. reflexivity.
Defined.

(** C1 as stated fails in binary32: default limits, step [0.1f], every
    channel updated on each call and every emit taken, channel 1 from
    7.5 % toward 9.5 %.  The seventh call moves it from 8.0999994 % to
    8.1999998 %: the sum [8.0999994f + 0.1f] is rounded up, and the
    change exceeds the step.  [F32.rank] of a finite number is its
    value in units of 2^-149. *)
Lemma C1_change_exceeds_max_step :
  let c0 := shaper_at (cfg_step (F32.lit 1 10)) (F32.lit 15 2) (F32.lit 95 10) in
  exists tr c6 c7,
    run_steps (repeat (0, 30) 7) c0 PwmCtrl.host0 = Some tr /\
    nth_error tr 6 = Some c6 /\ nth_error tr 7 = Some c7 /\
    in_limits c6 = true /\
    max_step_pct (s_cfg c6) = Fin (13421773 * 2 ^ 122) /\
    cur_at c6 0 = Fin (8493465 * 2 ^ 129) /\
    cur_at c7 0 = Fin (8598323 * 2 ^ 129) /\
    F32.rank (max_step_pct (s_cfg c6))
      < F32.rank (cur_at c7 0) - F32.rank (cur_at c6 0).
Proof.
  cbv zeta.
  destruct (run_steps (repeat (0, 30) 7)
              (shaper_at (cfg_step (F32.lit 1 10)) (F32.lit 15 2) (F32.lit 95 10))
              PwmCtrl.host0) as [tr|] eqn:E; [|vm_compute in E; discriminate].
  exists tr, (nth 6 tr (shaper_at cfg_alternate NaN NaN)),
    (nth 7 tr (shaper_at cfg_alternate NaN NaN)).
  split; [reflexivity|].
  vm_compute in E. injection E as <-.
  vm_compute. repeat split; reflexivity.
Qed.




End Shaper32Claims.
Module Shaper32Extras.
Import Bits BitsFacts Flt FltFacts PwmHost PwmHost32 PwmCtrl32 Host32Facts.
Import Shaper32Facts ShaperOps32Facts.
Local Open Scope Z_scope.

(** X15 (the limits hold for good), in binary32.  After
    [pwm_ctrl_init] with [NULL] or a configuration whose limits are
    finite or NaN, whether or not its first frame went out, and after
    any sequence of target settings (one channel, by mask, all to
    neutral) and steps that follows, with requests that are numbers
    (finite or infinite, not NaN) and any send results: every call
    returns, the stored limits are unchanged, finite, positive and
    ordered min < mid < max, and every channel's current value and
    target are finite and within [min_pct, max_pct].  A NaN request is
    not brought within the limits: [pwm_ctrl_set_target_pct] on a
    valid channel of an initialised shaper stores the NaN as the
    channel's target. *)
Theorem X15_shaper_stays_within_limits (cfg : option pwm_ctrl_config_t)
  (now sent : Z) (c0 : ctrl) (h0 : host) (ops : list ctrl_op) (i : nat) :
  cfg_arg_ok cfg = true -> forallb op_is_num ops = true -> (i < 8)%nat ->
  (exists rc c1 h1 out c h,
     pwm_ctrl_init cfg now sent c0 h0 = Some (rc, c1, h1, out) /\
     run_ctrl_ops ops c1 h1 = Some (c, h) /\
     s_cfg c = s_cfg c1 /\ cfg_ok (s_cfg c) = true /\
     F32.fin_between (min_pct (s_cfg c)) (max_pct (s_cfg c)) (cur_at c i)
     = true /\
     F32.fin_between (min_pct (s_cfg c)) (max_pct (s_cfg c)) (tgt_at c i)
     = true) /\
  (forall c, s_inited c <> 0 -> length (s_target_pct c) = 8%nat ->
     pwm_ctrl_set_target_pct (Z.of_nat i + 1) NaN c
     = (PWM_CTRL_OK, set_target (<[i := NaN]> (s_target_pct c)) c) /\
     tgt_at (snd (pwm_ctrl_set_target_pct (Z.of_nat i + 1) NaN c)) i = NaN).
Proof.
  intros Harg Hops Hi. split.
  - destruct (in_limits_init32 cfg now sent c0 h0 Harg)
      as (rc & c1 & h1 & out & E1 & Hin1 & _).
    destruct (in_limits_run_ctrl_ops32 ops c1 h1 Hin1 Hops)
      as (c & h & E & Hin & Ek).
    exists rc, c1, h1, out, c, h.
    destruct (in_limits_spec c Hin) as (Hk & _ & _ & Hall).
    destruct (Hall i Hi) as [Hc Ht]. repeat split; assumption.
  - intros c Hinit Hlen.
    assert (E : pwm_ctrl_set_target_pct (Z.of_nat i + 1) NaN c
                = (PWM_CTRL_OK, set_target (<[i := NaN]> (s_target_pct c)) c)).
    { unfold pwm_ctrl_set_target_pct.
      assert ((s_inited c =? 0) = false) as -> by (apply Z.eqb_neq; exact Hinit).
      assert (((Z.of_nat i + 1 <? 1) || (PWM_HOST_CH_NUM_Z <? Z.of_nat i + 1))
              = false) as ->.
      { unfold PWM_HOST_CH_NUM_Z. apply orb_false_iff.
        split; apply Z.ltb_ge; lia. }
      replace (Z.to_nat (Z.of_nat i + 1 - 1)) with i by lia.
      unfold clamp_pct, gtb. cbn [ltb].
      rewrite ?ltb_nan_l, ?ltb_nan_r. reflexivity. }
    split; [exact E|]. rewrite E. cbn [snd]. unfold tgt_at.
    cbn [set_target s_target_pct].
    apply nth_lookup_Some with (d := F32.zero).
    apply list_lookup_insert_eq. lia.
Qed.

Lemma X15_shaper_stays_within_limits_witness :
  let ops := [CSetTarget 3 (F32.of_int 99); CStep 5 30;
              CSetTargetsMask 0xF0 [F32.of_int 1; PInf; F32.of_int (-4)];
              CStep 25 7; CSetAllTargetMid; CStep 45 30] in
  (exists rc c1 h1 out c h,
     pwm_ctrl_init (Some cfg_alternate) 0 30 (shaper_at cfg_zero NaN NaN)
                   PwmCtrl.host0
     = Some (rc, c1, h1, out) /\
     run_ctrl_ops ops c1 h1 = Some (c, h) /\
     s_cfg c = s_cfg c1 /\ cfg_ok (s_cfg c) = true /\
     F32.fin_between (min_pct (s_cfg c)) (max_pct (s_cfg c)) (cur_at c 2)
     = true /\
     F32.fin_between (min_pct (s_cfg c)) (max_pct (s_cfg c)) (tgt_at c 2)
     = true) /\
  (forall c, s_inited c <> 0 -> length (s_target_pct c) = 8%nat ->
     pwm_ctrl_set_target_pct (Z.of_nat 2 + 1) NaN c
     = (PWM_CTRL_OK, set_target (<[2%nat := NaN]> (s_target_pct c)) c) /\
     tgt_at (snd (pwm_ctrl_set_target_pct (Z.of_nat 2 + 1) NaN c)) 2 = NaN).
Proof.
  apply (X15_shaper_stays_within_limits (Some cfg_alternate) 0 30
           (shaper_at cfg_zero NaN NaN) PwmCtrl.host0
           [CSetTarget 3 (F32.of_int 99); CStep 5 30;
            CSetTargetsMask 0xF0 [F32.of_int 1; PInf; F32.of_int (-4)];
            CStep 25 7; CSetAllTargetMid; CStep 45 30] 2).
  - vm_compute. reflexivity.
  - vm_compute. reflexivity.
  - lia.
Defined.

(** X16 (a value only ever approaches its target), in binary32.  From
    a state within finite ordered limits with [max <= 2 * min], with
    the targets left alone, over any run of [pwm_ctrl_step] calls, in
    either group mode, with the reverse protection on or off and
    whatever each send returns: every call returns, and a channel
    that starts at or below its target never decreases and never
    passes the target, and one that starts at or above it never
    increases and never passes it. *)
Theorem X16_monotone_toward_target (env : list (Z * Z)) (c : ctrl) (h : host)
  (i : nat) :
  in_limits c = true -> narrow_limits (s_cfg c) = true -> (i < 8)%nat ->
  exists tr,
    run_steps env c h = Some tr /\ length tr = S (length env) /\
    forall j k cj ck, (j <= k)%nat ->
      nth_error tr j = Some cj -> nth_error tr k = Some ck ->
      (leb (cur_at c i) (tgt_at c i) = true ->
       leb (cur_at c i) (cur_at cj i) = true /\
       leb (cur_at cj i) (cur_at ck i) = true /\
       leb (cur_at ck i) (tgt_at c i) = true) /\
      (leb (tgt_at c i) (cur_at c i) = true ->
       leb (tgt_at c i) (cur_at ck i) = true /\
       leb (cur_at ck i) (cur_at cj i) = true /\
       leb (cur_at cj i) (cur_at c i) = true).
Proof.
  intros Hin Hnar Hi.
  destruct (run_steps_toward i env Hi c h Hin Hnar)
    as (tr & E & _ & Hinv & Hmono).
  exists tr. split; [exact E|]. split.
  { destruct (run_steps_defined env c h Hin) as (tr' & E' & Hl & _).
    rewrite E in E'. injection E' as <-. exact Hl. }
  intros j k cj ck Hjk Hj Hk.
  pose proof (Hmono j k cj ck Hjk Hj Hk) as M. cbv zeta in M.
  destruct (Hinv j cj Hj) as (Hinj & _). destruct (Hinv k ck Hk) as (Hink & _).
  destruct (chan_view c i Hin Hi)
    as (_ & _ & _ & a & t & _ & _ & _ & Ea & Et & _ & _ & _ & Ra & Rt & _).
  destruct (chan_view cj i Hinj Hi)
    as (_ & _ & _ & x & _ & _ & _ & _ & Ex & _ & _ & _ & _ & Rx & _).
  destruct (chan_view ck i Hink Hi)
    as (_ & _ & _ & y & _ & _ & _ & _ & Ey & _ & _ & _ & _ & Ry & _).
  rewrite Ea, Et, Ex, Ey in *. unfold F32.rank in M. cbn [rank leb] in *.
  rewrite !Z.leb_le. exact M.
Qed.

Lemma X16_monotone_toward_target_witness :
  let c := shaper_at cfg_alternate (F32.lit 10 1) (F32.lit 5 1) in
  let env := [(0, 30); (20, 7); (40, 30); (60, 30)] in
  exists tr,
    run_steps env c PwmCtrl.host0 = Some tr /\ length tr = S (length env) /\
    forall j k cj ck, (j <= k)%nat ->
      nth_error tr j = Some cj -> nth_error tr k = Some ck ->
      (leb (cur_at c 0) (tgt_at c 0) = true ->
       leb (cur_at c 0) (cur_at cj 0) = true /\
       leb (cur_at cj 0) (cur_at ck 0) = true /\
       leb (cur_at ck 0) (tgt_at c 0) = true) /\
      (leb (tgt_at c 0) (cur_at c 0) = true ->
       leb (tgt_at c 0) (cur_at ck 0) = true /\
       leb (cur_at ck 0) (cur_at cj 0) = true /\
       leb (cur_at cj 0) (cur_at c 0) = true).
Proof.
  apply (X16_monotone_toward_target [(0, 30); (20, 7); (40, 30); (60, 30)]
           (shaper_at cfg_alternate (F32.lit 10 1) (F32.lit 5 1))
           PwmCtrl.host0 0).
  - vm_compute. reflexivity.
  - vm_compute. reflexivity.
  - lia.
Defined.

End Shaper32Extras.
